(** * Random User API test harness: resilient client, command history,
      observer registry and validation strategies

    A shallow embedding of the TypeScript sources.  Asynchronous methods are
    modelled as sequential computations in a state-and-exception monad: one
    logical sequence of calls drives each object, an [await] is a bind, a
    rejected promise is a thrown value. *)

From Stdlib Require Import ZArith List String QArith Lia.
From stdpp Require Import base list strings gmap pretty.
From Equations Require Import Equations.

Open Scope string_scope.
Open Scope Z_scope.

(** ** The JavaScript run-time: thrown values, effects, array primitives *)

Module JS.

(** Values that the sources throw or receive from axios.  An [AxiosError]
    carries the status of the response when one was received, and whether
    the request left the client.  A promise can also be rejected with a
    value that is no error object: [null], [undefined], or any other value
    without a [message] property ([Messageless]: a string, a number, a
    plain object). *)
Inductive Thrown : Type :=
| Error (message : string)
| TypeError (message : string)
| AxiosError (response : option Z) (request : bool) (message : string)
| Null
| Undefined
| Messageless.

(** [null] and [undefined], on which a property read throws. *)
Definition thrown_nullish (e : Thrown) : bool :=
  match e with
  | Null | Undefined => true
  | _ => false
  end.

(** Outcome of a call: a returned value or a thrown one. *)
Inductive Res (A : Type) : Type :=
| Ok (a : A)
| Throw (e : Thrown).
Arguments Ok {A} a.
Arguments Throw {A} e.

(** [(error as Error).message]: the text of an error object and [undefined]
    ([None]) on a value without the property; on [null] and [undefined] the
    read itself throws a [TypeError]. *)
Definition message (e : Thrown) : Res (option string) :=
  match e with
  | Error m => Ok (Some m)
  | TypeError m => Ok (Some m)
  | AxiosError _ _ m => Ok (Some m)
  | Messageless => Ok None
  | Null =>
      Throw (TypeError "Cannot read properties of null (reading 'message')")
  | Undefined =>
      Throw (TypeError
               "Cannot read properties of undefined (reading 'message')")
  end.

Definition res_map {A B} (f : A -> B) (r : Res A) : Res B :=
  match r with Ok a => Ok (f a) | Throw e => Throw e end.

(** Computations over a mutable state [S] that may throw.  The state
    reached when a computation throws is kept: assignments made before
    the throw stay made. *)
Definition M (S A : Type) : Type := S -> Res A * S.

Definition ret {S A} (a : A) : M S A := fun s => (Ok a, s).

Definition throw {S A} (e : Thrown) : M S A := fun s => (Throw e, s).

Definition bind {S A B} (m : M S A) (k : A -> M S B) : M S B :=
  fun s =>
    match m s with
    | (Ok a, s') => k a s'
    | (Throw e, s') => (Throw e, s')
    end.

(** [try { m } catch (error) { handler error }] *)
Definition try_catch {S A} (m : M S A) (handler : Thrown -> M S A) : M S A :=
  fun s =>
    match m s with
    | (Ok a, s') => (Ok a, s')
    | (Throw e, s') => handler e s'
    end.

Definition gets {S A} (f : S -> A) : M S A := fun s => (Ok (f s), s).

(** An outcome that is already known, inside a computation. *)
Definition lift {S A} (r : Res A) : M S A := fun s => (r, s).

Definition modify {S} (f : S -> S) : M S unit := fun s => (Ok tt, f s).

(** [Array.prototype.slice(0, end)] for an integer [end]: a negative
    [end] counts from the end of the array, and the bounds are clamped. *)
Definition slice0 {A} (l : list A) (e : Z) : list A :=
  let len := Z.of_nat (length l) in
  let final := if e <? 0 then Z.max (len + e) 0 else Z.min e len in
  take (Z.to_nat final) l.

(** [l[i]] for an integer [i]: [None] stands for [undefined]. *)
Definition index {A} (l : list A) (i : Z) : option A :=
  if i <? 0 then None else l !! Z.to_nat i.

(** Calling a method on the result of an array read: calling it on
    [undefined] throws a [TypeError]. *)
Definition deref {S A} (o : option A) : M S A :=
  match o with
  | Some a => ret a
  | None => throw (TypeError "Cannot read properties of undefined")
  end.

(** [l.forEach(f)]: the callback runs on the elements in index order; a
    throw from it ends the iteration. *)
Fixpoint forEach {S A} (l : list A) (f : A -> M S unit) : M S unit :=
  match l with
  | [] => ret tt
  | x :: rest => bind (f x) (fun _ => forEach rest f)
  end.

(** [a || b] on an optional number: [undefined] and [0] are falsy. *)
Definition or_else (a : option Z) (b : Z) : Z :=
  match a with
  | Some v => if v =? 0 then b else v
  | None => b
  end.

(** [l.includes(x)] on an array of strings. *)
Definition includes (l : list string) (x : string) : bool :=
  bool_decide (x ∈ l).

(** [l.join(sep)] on an array of strings. *)
Fixpoint array_join (sep : string) (l : list string) : string :=
  match l with
  | [] => ""
  | [x] => x
  | x :: rest => x ++ sep ++ array_join sep rest
  end.

(** The truthiness of a string: the empty string is falsy. *)
Definition truthy_string (s : string) : bool := negb (String.eqb s "").

End JS.

Declare Scope js_scope.
Delimit Scope js_scope with js.
Notation "'let!' x ':=' m 'in' k" := (JS.bind m (fun x => k))
  (at level 10, x binder, m at level 100, k at level 200) : js_scope.
Notation "m ';;;' k" := (JS.bind m (fun _ => k))
  (at level 100, k at level 200, right associativity) : js_scope.
Open Scope js_scope.

(** ** The resilient client (api/randomuser.client.ts) *)

Module Client.
Import JS.

(** Modelled from the spec: types/randomuser.types.ts is not among the
    sources.  A person record keeps the attributes that the commands and the
    service contract name; the payload is an object with [results] and
    [info]. *)
Record User : Type := {
  gender : string;
  email : string;
  user_nat : string
}.

Record ResponseInfo : Type := {
  seed : string;
  info_results : Z;
  page : Z;
  version : string
}.

Record RandomUserResponse : Type := {
  results : list User;
  info : ResponseInfo
}.

Record AxiosResponse : Type := {
  status : Z;
  data : RandomUserResponse
}.

(** Query parameters: a JavaScript object used as a map from parameter name
    to a string or a number. *)
Inductive ParamValue : Type :=
| PStr (s : string)
| PNum (n : Z).

Abbreviation Params := (gmap string ParamValue).

(** [{ ...a, ...b }]: the entries of [b] win. *)
Definition spread (a b : Params) : Params := b ∪ a.

(** What the remote service and the transport do with one call. *)
Inductive NetOutcome : Type :=
| Responded (code : Z) (body : RandomUserResponse)
| NoResponse (reason : string)
| SetupFailed (reason : string).

(** What can be observed of a client from outside: calls handed to the
    transport and suspensions of the caller, in the order they happen. *)
Inductive NetEvent : Type :=
| Requested (params : Params)
| Waited (ms : Z).

Definition is_request (e : NetEvent) : bool :=
  match e with Requested _ => true | Waited _ => false end.

(** The environment of a client.  [server i params] is the outcome of the
    call number [i] (from 0) when it carries [params]; [overrun i] is by how
    many milliseconds the timer number [i] (from 0) fires after its delay
    has passed; [clock] is what [Date.now()] reads. *)
Record World : Type := {
  server : nat -> Params -> NetOutcome;
  overrun : nat -> nat;
  clock : Z;
  events : list NetEvent
}.

Definition record_event (e : NetEvent) (w : World) : World :=
  {| server := server w; overrun := overrun w; clock := clock w;
     events := events w ++ [e] |}.

(** The network-call counter. *)
Definition network_calls (w : World) : nat :=
  length (filter (fun e => is_request e = true) (events w)).

Definition waits (w : World) : list Z :=
  omap (fun e => match e with Waited ms => Some ms | Requested _ => None end)
       (events w).

(** How axios settles a call: it resolves on a 2xx status and rejects with
    an [AxiosError] otherwise. *)
Definition settle (o : NetOutcome) : Res AxiosResponse :=
  match o with
  | Responded code body =>
      if (200 <=? code) && (code <? 300)
      then Ok {| status := code; data := body |}
      else Throw (AxiosError (Some code) true
                    ("Request failed with status code " ++ pretty code))
  | NoResponse reason => Throw (AxiosError None true reason)
  | SetupFailed reason => Throw (AxiosError None false reason)
  end.

(** [this.client.get('/', { params })] *)
Definition axios_get (params : Params) : M World AxiosResponse :=
  fun w =>
    (settle (server w (network_calls w) params),
     record_event (Requested params) w).

(** The delay that [setTimeout] gives a timer asked for [ms] milliseconds:
    a delay below 1 or above 2^31 - 1 is set to 1. *)
Definition timer_delay (ms : Z) : Z :=
  if (ms <? 1) || (ms >? 2147483647) then 1 else ms.

(** [wait(ms)] of utils/helpers.ts, a promise resolved by
    [setTimeout(resolve, ms)]: the caller is suspended until the timer
    fires, which is when its delay has passed or later.  The event keeps the
    [ms] asked for. *)
Definition wait (ms : Z) : M World unit :=
  fun w =>
    (Ok tt, {| server := server w;
               overrun := overrun w;
               clock := clock w + timer_delay ms
                        + Z.of_nat (overrun w (length (waits w)));
               events := events w ++ [Waited ms] |}).

(** [Required<ApiClientConfig>], without the logger, whose output is not
    modelled.  The numbers are whole numbers: a [retryAttempts] that is
    [NaN] or [Infinity], with which [retryRequest] goes on for as long as
    the attempts fail, is outside the model. *)
Record ApiClientConfig : Type := {
  baseUrl : string;
  timeout : Z;
  retryAttempts : Z;
  retryDelay : Z;
  enableLogging : bool
}.

(** The partial configuration that a caller or the builder passes in. *)
Record PartialConfig : Type := {
  opt_baseUrl : option string;
  opt_timeout : option Z;
  opt_retryAttempts : option Z;
  opt_retryDelay : option Z;
  opt_enableLogging : option bool
}.

(** [loadDefaultConfig().api] of ConfigManager. *)
Definition defaultConfig : ApiClientConfig :=
  {| baseUrl := "https://randomuser.me/api";
     timeout := 10000;
     retryAttempts := 3;
     retryDelay := 1000;
     enableLogging := true |}.

(** The constructor: each absent or falsy entry falls back to the default. *)
Definition new_client (defaults : ApiClientConfig) (config : PartialConfig)
  : ApiClientConfig :=
  {| baseUrl := match opt_baseUrl config with
                | Some u => if String.eqb u "" then baseUrl defaults else u
                | None => baseUrl defaults
                end;
     timeout := or_else (opt_timeout config) (timeout defaults);
     retryAttempts := or_else (opt_retryAttempts config) (retryAttempts defaults);
     retryDelay := or_else (opt_retryDelay config) (retryDelay defaults);
     enableLogging := match opt_enableLogging config with
                      | Some b => b
                      | None => true
                      end |}.

(** The failure classification that [retryRequest] applies. *)
Inductive FailureClassification : Type := Retryable | NonRetryable.

(** A response was received, with a status in [400, 500) other than 429. *)
Definition is_client_error (error : Thrown) : bool :=
  match error with
  | AxiosError (Some st) _ _ => (400 <=? st) && (st <? 500) && negb (st =? 429)
  | _ => false
  end.

Definition classify (error : Thrown) : FailureClassification :=
  if is_client_error error then NonRetryable else Retryable.

(** [retryDelay * Math.pow(2, attempt - 1)], for [attempt >= 1]. *)
Definition backoff (config : ApiClientConfig) (attempt : Z) : Z :=
  retryDelay config * 2 ^ (attempt - 1).

(** [axiosError.response && ...]: whether the failure is a client error;
    the read of [response] throws on [null] and [undefined]. *)
Definition reads_client_error (error : Thrown) : Res bool :=
  match error with
  | Null =>
      Throw (TypeError "Cannot read properties of null (reading 'response')")
  | Undefined =>
      Throw (TypeError
               "Cannot read properties of undefined (reading 'response')")
  | _ => Ok (is_client_error error)
  end.

(** [retryRequest(requestFn, attempt)].  The recursion is on the attempts
    that remain, [retryAttempts] being a whole number. *)
Equations? retryRequest (config : ApiClientConfig)
    (requestFn : M World AxiosResponse) (attempt : Z) (w : World)
  : Res AxiosResponse * World
  by wf (Z.to_nat (retryAttempts config - attempt)) lt :=
retryRequest config requestFn attempt w with requestFn w => {
  | (Ok response, w1) := (Ok response, w1);
  | (Throw error, w1) with Z_ge_dec attempt (retryAttempts config) => {
    | left _ := (Throw error, w1);
    | right _ with reads_client_error error => {
      | Throw e := (Throw e, w1);
      | Ok true := (Throw error, w1);
      | Ok false :=
          retryRequest config requestFn (attempt + 1)
            (snd (wait (backoff config attempt) w1)) } } }.
Proof. lia. Qed.

(** [handleError(error)] *)
Definition handleError (error : Thrown) : Thrown :=
  match error with
  | AxiosError (Some st) _ msg =>
      let message := "API request failed with status " ++ pretty st in
      if st =? 400 then Error (message ++ ": Bad Request - Invalid parameters")
      else if st =? 404 then Error (message ++ ": Not Found - Invalid endpoint")
      else if st =? 429
        then Error (message ++ ": Too Many Requests - Rate limit exceeded")
      else if st =? 500 then Error (message ++ ": Internal Server Error")
      else if st =? 503 then Error (message ++ ": Service Unavailable")
      else Error (message ++ ": " ++ msg)
  | AxiosError None true _ =>
      Error "No response from server - Network error or timeout"
  | AxiosError None false msg =>
      Error ("Request configuration error: " ++ msg)
  | Error msg => Error msg
  | TypeError msg => TypeError msg
  | Null | Undefined | Messageless => Error "Unknown error occurred"
  end.

(** [{ format: 'json', results: 1 }] *)
Definition defaultParams : Params :=
  {[ "format" := PStr "json"; "results" := PNum 1 ]}.

(** [getUsers(params)] *)
Definition getUsers (config : ApiClientConfig) (params : Params)
  : M World RandomUserResponse :=
  let mergedParams := spread defaultParams params in
  try_catch
    (let! response := retryRequest config (axios_get mergedParams) 1 in
     ret (data response))
    (fun error => throw (handleError error)).

(** [getSingleUser(params)] *)
Definition getSingleUser (config : ApiClientConfig) (params : Params)
  : M World RandomUserResponse :=
  getUsers config (<["results" := PNum 1]> params).

(** [getMultipleUsers(count, params)] *)
Definition getMultipleUsers (config : ApiClientConfig) (count : Z)
    (params : Params) : M World RandomUserResponse :=
  if (count <? 1) || (count >? 5000)
  then throw (Error "Count must be between 1 and 5000")
  else getUsers config (<["results" := PNum count]> params).

(** [getUsersByGender(gender, count)] *)
Definition getUsersByGender (config : ApiClientConfig) (gender : string)
    (count : Z) : M World RandomUserResponse :=
  getUsers config {[ "gender" := PStr gender; "results" := PNum count ]}.

(** The nationality codes that [getUsersByNationality] accepts. *)
Definition supportedNationalities : list string :=
  ["AU"; "BR"; "CA"; "CH"; "DE"; "DK"; "ES"; "FI";
   "FR"; "GB"; "IE"; "IN"; "IR"; "MX"; "NL"; "NO";
   "NZ"; "RS"; "TR"; "US"].

(** [getUsersByNationality(nationality, count)].  [toUpperCase] is
    [String.prototype.toUpperCase]. *)
Definition getUsersByNationality (toUpperCase : string -> string)
    (config : ApiClientConfig) (nationality : string) (count : Z)
  : M World RandomUserResponse :=
  if negb (includes supportedNationalities (toUpperCase nationality))
  then throw (Error ("Unsupported nationality: " ++ nationality))
  else getUsers config
         {[ "nat" := PStr (toUpperCase nationality); "results" := PNum count ]}.

(** The attribute names that the field lists may hold. *)
Definition availableFields : list string :=
  ["gender"; "name"; "location"; "email"; "login";
   "dob"; "registered"; "phone"; "cell"; "id";
   "picture"; "nat"].

(** [fields.filter(field => !availableFields.includes(field))] *)
Definition invalidFields (fields : list string) : list string :=
  List.filter (fun field => negb (includes availableFields field)) fields.

(** [getUsersWithFields(fields, count)] *)
Definition getUsersWithFields (config : ApiClientConfig) (fields : list string)
    (count : Z) : M World RandomUserResponse :=
  if (Z.of_nat (length (invalidFields fields)) >? 0)
  then throw (Error ("Invalid fields: " ++ array_join ", " (invalidFields fields)))
  else getUsers config
         {[ "inc" := PStr (array_join "," fields); "results" := PNum count ]}.

(** [getUsersWithoutFields(fields, count)] *)
Definition getUsersWithoutFields (config : ApiClientConfig)
    (fields : list string) (count : Z) : M World RandomUserResponse :=
  if (Z.of_nat (length (invalidFields fields)) >? 0)
  then throw (Error ("Invalid fields: " ++ array_join ", " (invalidFields fields)))
  else getUsers config
         {[ "exc" := PStr (array_join "," fields); "results" := PNum count ]}.

(** [getUsersWithSeed(seed, count)] *)
Definition getUsersWithSeed (config : ApiClientConfig) (seed : string)
    (count : Z) : M World RandomUserResponse :=
  getUsers config {[ "seed" := PStr seed; "results" := PNum count ]}.

End Client.

(** ** The client builder (builders/ApiClientBuilder.ts) *)

Module Builder.
Import JS.

(** A logger, known by its context (utils/logger.ts). *)
Record Logger : Type := {
  context : string
}.

(** The [ApiClientConfig] object that the builder fills in
    (types/api.types.ts): every entry is optional. *)
Record BuilderConfig : Type := {
  baseUrl : option string;
  timeout : option Z;
  retryAttempts : option Z;
  retryDelay : option Z;
  logger : option Logger;
  enableLogging : option bool
}.

(** [new ApiClientBuilder()] *)
Definition new_ApiClientBuilder : BuilderConfig :=
  {| baseUrl := None; timeout := None; retryAttempts := None;
     retryDelay := None; logger := None; enableLogging := None |}.

Definition withBaseUrl (u : string) (b : BuilderConfig) : BuilderConfig :=
  {| baseUrl := Some u; timeout := timeout b;
     retryAttempts := retryAttempts b; retryDelay := retryDelay b;
     logger := logger b; enableLogging := enableLogging b |}.

Definition withTimeout (t : Z) (b : BuilderConfig) : BuilderConfig :=
  {| baseUrl := baseUrl b; timeout := Some t;
     retryAttempts := retryAttempts b; retryDelay := retryDelay b;
     logger := logger b; enableLogging := enableLogging b |}.

(** [withRetries(attempts, delay = 1000)] *)
Definition withRetries (attempts : Z) (delay : option Z) (b : BuilderConfig)
  : BuilderConfig :=
  {| baseUrl := baseUrl b; timeout := timeout b;
     retryAttempts := Some attempts; retryDelay := Some (default 1000 delay);
     logger := logger b; enableLogging := enableLogging b |}.

Definition withLogger (l : Logger) (b : BuilderConfig) : BuilderConfig :=
  {| baseUrl := baseUrl b; timeout := timeout b;
     retryAttempts := retryAttempts b; retryDelay := retryDelay b;
     logger := Some l; enableLogging := Some true |}.

Definition withLogging (enabled : bool) (b : BuilderConfig) : BuilderConfig :=
  {| baseUrl := baseUrl b; timeout := timeout b;
     retryAttempts := retryAttempts b; retryDelay := retryDelay b;
     logger := logger b; enableLogging := Some enabled |}.

(** [build()]: the configuration of the client that the constructor makes
    of the builder's entries over the defaults of the configuration
    manager, and the logger it keeps. *)
Definition build (defaults : Client.ApiClientConfig) (b : BuilderConfig)
  : Client.ApiClientConfig * Logger :=
  (Client.new_client defaults
     {| Client.opt_baseUrl := baseUrl b;
        Client.opt_timeout := timeout b;
        Client.opt_retryAttempts := retryAttempts b;
        Client.opt_retryDelay := retryDelay b;
        Client.opt_enableLogging := enableLogging b |},
   default {| context := "RandomUserApiClient" |} (logger b)).

Definition forProduction : BuilderConfig :=
  withLogging false (withRetries 5 (Some 2000) (withTimeout 30000
    new_ApiClientBuilder)).

Definition forTesting : BuilderConfig :=
  withLogging true (withRetries 3 (Some 1000) (withTimeout 10000
    new_ApiClientBuilder)).

Definition forDevelopment : BuilderConfig :=
  withLogger {| context := "DevApiClient" |}
    (withLogging true (withRetries 2 (Some 500) (withTimeout 5000
       new_ApiClientBuilder))).

End Builder.

(** ** Test results, observers and the notifier (observers/TestObserver.ts) *)

Module Observers.
Import JS.

Inductive Status : Type := passed | failed | skipped.

Definition is_failed (s : Status) : bool :=
  match s with failed => true | _ => false end.

(** Durations and timestamps are whole milliseconds. *)
Record TestResult : Type := {
  testName : string;
  status : Status;
  duration : Z;
  error : option string;
  timestamp : Z
}.

Record TestSuite : Type := {
  suiteName : string;
  suite_results : list TestResult;
  suite_totalTests : Z;
  suite_passedTests : Z;
  suite_failedTests : Z;
  suite_skippedTests : Z;
  suite_totalDuration : Z
}.

Section Registry.

(** What the observers' handlers read and write: their own accumulated
    state, the console, a log.  The notifier's own array is not part of it. *)
Variable W : Type.

(** An observer object: its identity and its three handlers. *)
Record TestObserver : Type := {
  observer_id : nat;
  onTestStart : string -> M W unit;
  onTestComplete : TestResult -> M W unit;
  onSuiteComplete : TestSuite -> M W unit
}.

Inductive Notification : Type :=
| TestStart (testName : string)
| TestComplete (result : TestResult)
| SuiteComplete (suite : TestSuite).

(** One handler invocation: which observer was called, with what. *)
Record Delivery : Type := {
  receiver : TestObserver;
  notification : Notification
}.

(** The handlers' world together with the log of handler invocations. *)
Record Env : Type := {
  delivered : list Delivery;
  world : W
}.

Definition handler (observer : TestObserver) (n : Notification) : M W unit :=
  match n with
  | TestStart testName => onTestStart observer testName
  | TestComplete result => onTestComplete observer result
  | SuiteComplete suite => onSuiteComplete observer suite
  end.

(** Invoking a handler of [observer]: the invocation is logged, then the
    handler runs on the world. *)
Definition invoke (observer : TestObserver) (n : Notification) : M Env unit :=
  fun env =>
    let '(r, w') := handler observer n (world env) in
    (r, {| delivered := delivered env
                          ++ [{| receiver := observer; notification := n |}];
           world := w' |}).

Record TestResultNotifier : Type := {
  observers : list TestObserver
}.

Definition new_TestResultNotifier : TestResultNotifier :=
  {| observers := [] |}.

Definition addObserver (this : TestResultNotifier) (observer : TestObserver)
  : TestResultNotifier :=
  {| observers := observers this ++ [observer] |}.

(** [this.observers.indexOf(observer)], by object identity; [-1] when the
    observer is absent. *)
Fixpoint indexOf (l : list TestObserver) (observer : TestObserver) : Z :=
  match l with
  | [] => -1
  | o :: rest =>
      if Nat.eqb (observer_id o) (observer_id observer) then 0
      else let i := indexOf rest observer in
           if i <? 0 then -1 else i + 1
  end.

Definition removeObserver (this : TestResultNotifier) (observer : TestObserver)
  : TestResultNotifier :=
  let index := indexOf (observers this) observer in
  if index >? -1
  then {| observers := delete (Z.to_nat index) (observers this) |}
  else this.

Definition notifyTestStart (this : TestResultNotifier) (testName : string)
  : M Env unit :=
  forEach (observers this) (fun observer => invoke observer (TestStart testName)).

Definition notifyTestComplete (this : TestResultNotifier) (result : TestResult)
  : M Env unit :=
  forEach (observers this) (fun observer => invoke observer (TestComplete result)).

Definition notifySuiteComplete (this : TestResultNotifier) (suite : TestSuite)
  : M Env unit :=
  forEach (observers this) (fun observer => invoke observer (SuiteComplete suite)).

End Registry.

Arguments observer_id {W} _.
Arguments onTestStart {W} _ _.
Arguments onTestComplete {W} _ _.
Arguments onSuiteComplete {W} _ _.
Arguments receiver {W} _.
Arguments notification {W} _.
Arguments delivered {W} _.
Arguments world {W} _.
Arguments observers {W} _.
Arguments new_TestResultNotifier {W}.
Arguments addObserver {W} _ _.
Arguments removeObserver {W} _ _.
Arguments indexOf {W} _ _.
Arguments invoke {W} _ _.
Arguments handler {W} _ _.
Arguments notifyTestStart {W} _ _.
Arguments notifyTestComplete {W} _ _.
Arguments notifySuiteComplete {W} _ _.

(** *** MetricsTestObserver *)

(** A JavaScript number that is a whole number or [Infinity]. *)
Inductive Num : Type :=
| Finite (z : Z)
| Infinity.

(** [a > b] and [a < b] between a whole number and such a number. *)
Definition gt_num (a : Z) (b : Num) : bool :=
  match b with Finite z => a >? z | Infinity => false end.

Definition lt_num (a : Z) (b : Num) : bool :=
  match b with Finite z => a <? z | Infinity => true end.

Record NamedDuration : Type := {
  name : string;
  named_duration : Num
}.

(** The [metrics] object.  The counts and [totalDuration] are whole numbers,
    as the code's doubles are while they stay below 2^53 in absolute value;
    [averageDuration] is the exact quotient, of which the code holds the
    nearest double. *)
Record Metrics : Type := {
  totalTests : Z;
  passedTests : Z;
  failedTests : Z;
  skippedTests : Z;
  totalDuration : Z;
  averageDuration : Q;
  slowestTest : NamedDuration;
  fastestTest : NamedDuration
}.

Definition initial_metrics : Metrics :=
  {| totalTests := 0;
     passedTests := 0;
     failedTests := 0;
     skippedTests := 0;
     totalDuration := 0;
     averageDuration := 0%Q;
     slowestTest := {| name := ""; named_duration := Finite 0 |};
     fastestTest := {| name := ""; named_duration := Infinity |} |}.

(** [MetricsTestObserver.onTestComplete(result)] on the [metrics] object. *)
Definition metrics_onTestComplete (result : TestResult) (m : Metrics) : Metrics :=
  let totalTests' := totalTests m + 1 in
  let totalDuration' := totalDuration m + duration result in
  let passedTests' :=
    match status result with passed => passedTests m + 1 | _ => passedTests m end in
  let failedTests' :=
    match status result with failed => failedTests m + 1 | _ => failedTests m end in
  let skippedTests' :=
    match status result with skipped => skippedTests m + 1 | _ => skippedTests m end in
  let slowestTest' :=
    if gt_num (duration result) (named_duration (slowestTest m))
    then {| name := testName result; named_duration := Finite (duration result) |}
    else slowestTest m in
  let fastestTest' :=
    if lt_num (duration result) (named_duration (fastestTest m))
    then {| name := testName result; named_duration := Finite (duration result) |}
    else fastestTest m in
  {| totalTests := totalTests';
     passedTests := passedTests';
     failedTests := failedTests';
     skippedTests := skippedTests';
     totalDuration := totalDuration';
     averageDuration := (inject_Z totalDuration' / inject_Z totalTests')%Q;
     slowestTest := slowestTest';
     fastestTest := fastestTest' |}.

(** [reset()] *)
Definition metrics_reset (m : Metrics) : Metrics := initial_metrics.

(** The observer object over its own [metrics]. *)
Definition MetricsTestObserver (id : nat) : TestObserver Metrics :=
  {| observer_id := id;
     onTestStart := fun _ => ret tt;
     onTestComplete := fun result => modify (metrics_onTestComplete result);
     onSuiteComplete := fun _ => ret tt |}.

(** The state of the observer after a sequence of [onTestComplete] calls,
    oldest first. *)
Definition metrics_after (received : list TestResult) : Metrics :=
  fold_left (fun m result => metrics_onTestComplete result m) received
            initial_metrics.

(** *** FileTestObserver *)

(** [`${result.status}`] *)
Definition status_text (s : Status) : string :=
  match s with
  | passed => "passed"
  | failed => "failed"
  | skipped => "skipped"
  end.

(** [if (result.error)]: an absent error and the empty string are falsy. *)
Definition has_error (result : TestResult) : bool :=
  match error result with
  | Some text => truthy_string text
  | None => false
  end.

Section FileObserver.

(** [Date.prototype.toISOString], on a time in milliseconds. *)
Variable toISOString : Z -> string.

(** [FileTestObserver.onTestStart(testName)] on the [logs] array, at the
    time [now]. *)
Definition file_onTestStart (now : Z) (testName : string)
    (logs : list string) : list string :=
  (logs ++ ["[" ++ toISOString now ++ "] TEST_START: " ++ testName]%string)%list.

(** [FileTestObserver.onTestComplete(result)] on the [logs] array. *)
Definition file_onTestComplete (result : TestResult) (logs : list string)
  : list string :=
  let logs1 :=
    (logs ++ ["[" ++ toISOString (timestamp result) ++ "] TEST_COMPLETE: "
              ++ testName result ++ " - " ++ status_text (status result)
              ++ " (" ++ pretty (duration result) ++ "ms)"]%string)%list in
  if has_error result
  then (logs1 ++ ["[" ++ toISOString (timestamp result) ++ "] ERROR: "
                  ++ default "" (error result)]%string)%list
  else logs1.

(** [FileTestObserver.onSuiteComplete(suite)] on the [logs] array, at the
    time [now]. *)
Definition file_onSuiteComplete (now : Z) (suite : TestSuite)
    (logs : list string) : list string :=
  (logs ++ ["[" ++ toISOString now ++ "] SUITE_COMPLETE: " ++ suiteName suite
            ++ " - " ++ pretty (suite_passedTests suite) ++ "/"
            ++ pretty (suite_totalTests suite) ++ " passed"]%string)%list.

(** [clearLogs()] *)
Definition file_clearLogs (logs : list string) : list string := [].

(** What a file observer is told, with the time at which it is told. *)
Inductive FileEvent : Type :=
| FileStart (now : Z) (testName : string)
| FileComplete (result : TestResult)
| FileSuite (now : Z) (suite : TestSuite).

Definition file_handle (ev : FileEvent) (logs : list string) : list string :=
  match ev with
  | FileStart now testName => file_onTestStart now testName logs
  | FileComplete result => file_onTestComplete result logs
  | FileSuite now suite => file_onSuiteComplete now suite logs
  end.

(** The [logs] array after a sequence of notifications, oldest first. *)
Definition file_after (evs : list FileEvent) (logs : list string)
  : list string :=
  fold_left (fun l ev => file_handle ev l) evs logs.


End FileObserver.

End Observers.

(** ** Commands, the invoker and the macro command (commands/TestCommand.ts) *)

Module Commands.
Import JS Observers.

Section Commands.

(** What the commands' own logic reads and writes (the remote service, the
    clock), and [Date.now()] on it.  The invoker's fields are not part of
    it. *)
Variable W : Type.
Variable date_now : W -> Z.

(** A command object. *)
Record TestCommand : Type := {
  execute : M W TestResult;
  undo : M W unit;
  getCommandName : string;
  getDescription : string
}.

(** One method invocation on a command. *)
Inductive Call : Type :=
| Executed (command : TestCommand)
| Undone (command : TestCommand).

(** The commands' world together with the log of method invocations. *)
Record Env : Type := {
  calls : list Call;
  world : W
}.

(** [await command.execute()] *)
Definition call_execute (command : TestCommand) : M Env TestResult :=
  fun env =>
    let '(r, w') := execute command (world env) in
    (r, {| calls := calls env ++ [Executed command]; world := w' |}).

(** [await command.undo()] *)
Definition call_undo (command : TestCommand) : M Env unit :=
  fun env =>
    let '(r, w') := undo command (world env) in
    (r, {| calls := calls env ++ [Undone command]; world := w' |}).

Definition now : M Env Z := gets (fun env => date_now (world env)).

(** *** TestCommandInvoker *)

Record TestCommandInvoker : Type := {
  history : list TestCommand;
  currentIndex : Z
}.

Definition new_TestCommandInvoker : TestCommandInvoker :=
  {| history := []; currentIndex := -1 |}.

(** The invoker's methods run on the invoker object and the environment. *)
Definition InvokerState : Type := TestCommandInvoker * Env.

Definition this : M InvokerState TestCommandInvoker := gets fst.

Definition assign (f : TestCommandInvoker -> TestCommandInvoker)
  : M InvokerState unit :=
  modify (fun s => (f (fst s), snd s)).

Definition in_env {A} (m : M Env A) : M InvokerState A :=
  fun s => let '(r, env') := m (snd s) in (r, (fst s, env')).

Definition set_history (h : list TestCommand) (i : TestCommandInvoker)
  : TestCommandInvoker :=
  {| history := h; currentIndex := currentIndex i |}.

Definition set_currentIndex (c : Z) (i : TestCommandInvoker)
  : TestCommandInvoker :=
  {| history := history i; currentIndex := c |}.

Definition executeCommand (command : TestCommand) : M InvokerState TestResult :=
  assign (fun i => set_history (slice0 (history i) (currentIndex i + 1)) i) ;;;
  assign (fun i => set_history (history i ++ [command]) i) ;;;
  assign (fun i => set_currentIndex (currentIndex i + 1) i) ;;;
  in_env (call_execute command).

Definition undoLastCommand : M InvokerState unit :=
  let! i := this in
  if currentIndex i >=? 0 then
    let! command := deref (index (history i) (currentIndex i)) in
    in_env (call_undo command) ;;;
    assign (fun i => set_currentIndex (currentIndex i - 1) i)
  else ret tt.

(** [None] stands for [null]. *)
Definition redoCommand : M InvokerState (option TestResult) :=
  let! i := this in
  if currentIndex i <? Z.of_nat (length (history i)) - 1 then
    assign (fun i => set_currentIndex (currentIndex i + 1) i) ;;;
    let! i := this in
    let! command := deref (index (history i) (currentIndex i)) in
    let! result := in_env (call_execute command) in
    ret (Some result)
  else ret None.

Definition getHistory (i : TestCommandInvoker) : list TestCommand := history i.

Definition clearHistory : M InvokerState unit :=
  assign (fun i => set_history [] i) ;;;
  assign (fun i => set_currentIndex (-1) i).

Definition canUndo (i : TestCommandInvoker) : bool := currentIndex i >=? 0.

Definition canRedo (i : TestCommandInvoker) : bool :=
  currentIndex i <? Z.of_nat (length (history i)) - 1.

(** The calls that a driver of the invoker can make. *)
Inductive Op : Type :=
| OpExecute (command : TestCommand)
| OpUndo
| OpRedo
| OpClear.

(** The state after one call, whether it returned or threw. *)
Definition step (op : Op) (s : InvokerState) : InvokerState :=
  match op with
  | OpExecute command => snd (executeCommand command s)
  | OpUndo => snd (undoLastCommand s)
  | OpRedo => snd (redoCommand s)
  | OpClear => snd (clearHistory s)
  end.

Definition run_ops (ops : list Op) (s : InvokerState) : InvokerState :=
  fold_left (fun s op => step op s) ops s.

(** *** MacroTestCommand *)

(** The macro command: the array of its sub-commands, its name and its
    description.  The object keeps the array it is given, not a copy: the
    record holds the contents of that array when a method is called, and a
    push to the array by another holder is an [addCommand]. *)
Record MacroTestCommand : Type := {
  commands : list TestCommand;
  name : string;
  description : string
}.

(** The constructor; the array defaults to an empty one. *)
Definition new_MacroTestCommand (name description : string)
    (commands : option (list TestCommand)) : MacroTestCommand :=
  {| commands := default [] commands; name := name; description := description |}.

Definition addCommand (command : TestCommand) (m : MacroTestCommand)
  : MacroTestCommand :=
  {| commands := commands m ++ [command];
     name := name m;
     description := description m |}.

(** [`${result.error}`] *)
Definition error_text (result : TestResult) : string :=
  match error result with
  | Some e => e
  | None => "undefined"
  end.

(** The [for ... of] loop of [execute]: [Some r] when the loop returns [r]
    from inside, [None] when it runs to its end. *)
Fixpoint execute_loop (m : MacroTestCommand) (startTime : Z)
    (rest : list TestCommand) : M Env (option TestResult) :=
  match rest with
  | [] => ret None
  | command :: rest' =>
      let! result := call_execute command in
      if is_failed (status result) then
        let! t := now in
        ret (Some {| testName := name m;
                     status := failed;
                     duration := t - startTime;
                     error := Some ("Command " ++ getCommandName command
                                    ++ " failed: " ++ error_text result);
                     timestamp := t |})
      else execute_loop m startTime rest'
  end.

Definition MacroTestCommand_execute (m : MacroTestCommand) : M Env TestResult :=
  let! startTime := now in
  try_catch
    (let! returned := execute_loop m startTime (commands m) in
     match returned with
     | Some result => ret result
     | None =>
         let! t := now in
         ret {| testName := name m;
                status := passed;
                duration := t - startTime;
                error := None;
                timestamp := t |}
     end)
    (fun error =>
       let! t := now in
       let! text := lift (message error) in
       ret {| testName := name m;
              status := failed;
              duration := t - startTime;
              error := text;
              timestamp := t |}).

(** The loop of [undo], entered with [i + 1 = n]: it calls the undo of the
    sub-commands at indices [n - 1], ..., [0]. *)
Fixpoint undo_loop (m : MacroTestCommand) (n : nat) : M Env unit :=
  match n with
  | O => ret tt
  | S i =>
      let! command := deref (commands m !! i) in
      call_undo command ;;;
      undo_loop m i
  end.

Definition MacroTestCommand_undo (m : MacroTestCommand) : M Env unit :=
  undo_loop m (length (commands m)).

(** A macro command used as a command: what its methods do to the world. *)
Definition as_TestCommand (m : MacroTestCommand) : TestCommand :=
  {| execute := fun w =>
       let '(r, env) := MacroTestCommand_execute m {| calls := []; world := w |} in
       (r, world env);
     undo := fun w =>
       let '(r, env) := MacroTestCommand_undo m {| calls := []; world := w |} in
       (r, world env);
     getCommandName := name m;
     getDescription := description m |}.

(** [BaseTestCommand.createTestResult], with the [startTime] of the command. *)
Definition createTestResult (startTime : Z) (testName : string)
    (status : Status) (error : option string) : M W TestResult :=
  fun w =>
    (Ok {| testName := testName;
           status := status;
           duration := date_now w - startTime;
           error := error;
           timestamp := date_now w |}, w).

End Commands.

Arguments execute {W} _.
Arguments undo {W} _.
Arguments getCommandName {W} _.
Arguments getDescription {W} _.
Arguments Executed {W} _.
Arguments Undone {W} _.
Arguments calls {W} _.
Arguments world {W} _.
Arguments call_execute {W} _.
Arguments call_undo {W} _.
Arguments history {W} _.
Arguments currentIndex {W} _.
Arguments new_TestCommandInvoker {W}.
Arguments this {W}.
Arguments assign {W} _.
Arguments in_env {W A} _.
Arguments set_history {W} _ _.
Arguments set_currentIndex {W} _ _.
Arguments executeCommand {W} _.
Arguments undoLastCommand {W}.
Arguments redoCommand {W}.
Arguments clearHistory {W}.
Arguments getHistory {W} _.
Arguments canUndo {W} _.
Arguments canRedo {W} _.
Arguments OpExecute {W} _.
Arguments OpUndo {W}.
Arguments OpRedo {W}.
Arguments OpClear {W}.
Arguments step {W} _ _.
Arguments run_ops {W} _ _.
Arguments commands {W} _.
Arguments name {W} _.
Arguments description {W} _.
Arguments new_MacroTestCommand {W} _ _ _.
Arguments addCommand {W} _ _.
Arguments MacroTestCommand_execute {W} _ _.
Arguments MacroTestCommand_undo {W} _.
Arguments execute_loop {W} _ _ _ _.
Arguments undo_loop {W} _ _.
Arguments as_TestCommand {W} _ _.
Arguments createTestResult {W} _ _ _ _ _.

(** *** The commands over the client

    A number inside a template literal is written with [pretty], which is
    its text when it is a whole number below 10^21 in absolute value; the
    exponent notation that larger numbers get is not modelled. *)

Definition client_now (w : Client.World) : Z := Client.clock w.

(** [FetchSingleUserCommand] *)
Definition FetchSingleUserCommand (client : Client.ApiClientConfig)
  : TestCommand Client.World :=
  let getCommandName := "FetchSingleUser" in
  {| execute :=
       let! startTime := gets client_now in
       try_catch
         (let! result := Client.getSingleUser client ∅ in
          let n := Z.of_nat (length (Client.results result)) in
          if n =? 1
          then createTestResult client_now startTime getCommandName passed None
          else createTestResult client_now startTime getCommandName failed
                 (Some ("Expected 1 user, got " ++ pretty n)))
         (fun error =>
            let! text := lift (message error) in
            createTestResult client_now startTime getCommandName failed text);
     undo := ret tt;
     getCommandName := getCommandName;
     getDescription := "Fetches a single user from the API" |}.

(** [FetchMultipleUsersCommand] *)
Definition FetchMultipleUsersCommand (client : Client.ApiClientConfig)
    (count : Z) : TestCommand Client.World :=
  let getCommandName := "FetchMultipleUsers(" ++ pretty count ++ ")" in
  {| execute :=
       let! startTime := gets client_now in
       try_catch
         (let! result := Client.getMultipleUsers client count ∅ in
          let n := Z.of_nat (length (Client.results result)) in
          if n =? count
          then createTestResult client_now startTime getCommandName passed None
          else createTestResult client_now startTime getCommandName failed
                 (Some ("Expected " ++ pretty count ++ " users, got " ++ pretty n)))
         (fun error =>
            let! text := lift (message error) in
            createTestResult client_now startTime getCommandName failed text);
     undo := ret tt;
     getCommandName := getCommandName;
     getDescription := "Fetches " ++ pretty count ++ " users from the API" |}.

(** [FetchUsersByGenderCommand]; [count] defaults to 1. *)
Definition FetchUsersByGenderCommand (client : Client.ApiClientConfig)
    (gender : string) (count : option Z) : TestCommand Client.World :=
  let count := default 1 count in
  let getCommandName :=
    "FetchUsersByGender(" ++ gender ++ ", " ++ pretty count ++ ")" in
  {| execute :=
       let! startTime := gets client_now in
       try_catch
         (let! result := Client.getUsersByGender client gender count in
          let allCorrectGender :=
            forallb (fun user => String.eqb (Client.gender user) gender)
                    (Client.results result) in
          let n := Z.of_nat (length (Client.results result)) in
          if (n =? count) && allCorrectGender
          then createTestResult client_now startTime getCommandName passed None
          else
            let error :=
              if negb allCorrectGender
              then "Not all users have correct gender"
              else "Expected " ++ pretty count ++ " users, got " ++ pretty n in
            createTestResult client_now startTime getCommandName failed
              (Some error))
         (fun error =>
            let! text := lift (message error) in
            createTestResult client_now startTime getCommandName failed text);
     undo := ret tt;
     getCommandName := getCommandName;
     getDescription :=
       "Fetches " ++ pretty count ++ " " ++ gender ++ " users from the API" |}.

(** [PerformanceTestCommand]; [maxDuration] defaults to 5000. *)
Definition PerformanceTestCommand
    (operation : M Client.World Client.RandomUserResponse)
    (operationName : string) (maxDuration : option Z)
  : TestCommand Client.World :=
  let maxDuration := default 5000 maxDuration in
  let getCommandName := "PerformanceTest(" ++ operationName ++ ")" in
  {| execute :=
       let! startTime := gets client_now in
       try_catch
         (let! result := operation in
          let! t := gets client_now in
          let duration := t - startTime in
          if duration <=? maxDuration
          then createTestResult client_now startTime getCommandName passed None
          else createTestResult client_now startTime getCommandName failed
                 (Some ("Operation took " ++ pretty duration
                        ++ "ms, expected <= " ++ pretty maxDuration ++ "ms")))
         (fun error =>
            let! text := lift (message error) in
            createTestResult client_now startTime getCommandName failed text);
     undo := ret tt;
     getCommandName := getCommandName;
     getDescription :=
       "Tests performance of " ++ operationName ++ " operation (max "
       ++ pretty maxDuration ++ "ms)" |}.

End Commands.

(** ** Values of type [any]

    The data handed to the validation strategies: what [JSON.parse] yields,
    together with [undefined] and the numbers that are not finite. *)

Module Json.
Import JS.

(** A JavaScript number; the finite ones are taken as rationals. *)
Inductive JsNumber : Type :=
| NaN
| Fin (q : Q)
| Inf (negative : bool).

#[warnings="-register-all"]
Inductive JsValue : Type :=
| JUndefined
| JNull
| JBool (b : bool)
| JNumber (n : JsNumber)
| JString (s : string)
| JArray (items : list JsValue)
| JObject (fields : gmap string JsValue).

(** [!!v]: [undefined], [null], [false], [0], [NaN] and the empty string
    are falsy. *)
Definition truthy (v : JsValue) : bool :=
  match v with
  | JUndefined | JNull => false
  | JBool b => b
  | JNumber NaN => false
  | JNumber (Fin q) => negb (Qeq_bool q 0)
  | JNumber (Inf _) => true
  | JString s => truthy_string s
  | JArray _ | JObject _ => true
  end.

(** [typeof v] *)
Definition typeof (v : JsValue) : string :=
  match v with
  | JUndefined => "undefined"
  | JNull => "object"
  | JBool _ => "boolean"
  | JNumber _ => "number"
  | JString _ => "string"
  | JArray _ | JObject _ => "object"
  end.

(** [Array.isArray(v)] *)
Definition isArray (v : JsValue) : bool :=
  match v with JArray _ => true | _ => false end.

(** [v === undefined] *)
Definition is_undefined (v : JsValue) : bool :=
  match v with JUndefined => true | _ => false end.

(** [v.key], for a [key] that is neither an index, nor ["length"], nor the
    name of a method of a prototype (the strategies read no such key): the
    own property of an object, [undefined] on an object without it, on an
    array and on a primitive, and a [TypeError] on [undefined] and
    [null]. *)
Definition get (v : JsValue) (key : string) : Res JsValue :=
  match v with
  | JUndefined =>
      Throw (TypeError ("Cannot read properties of undefined (reading '"
                        ++ key ++ "')"))
  | JNull =>
      Throw (TypeError ("Cannot read properties of null (reading '"
                        ++ key ++ "')"))
  | JObject fields => Ok (default JUndefined (fields !! key))
  | _ => Ok JUndefined
  end.

(** [v.hasOwnProperty(key)], for such a [key].  The method is that of
    [Object.prototype] unless the object has a property of its own under
    the name ["hasOwnProperty"]: its value, which is no function, is then
    what is called, and the call throws a [TypeError]. *)
Definition hasOwnProperty (v : JsValue) (key : string) : Res bool :=
  match v with
  | JUndefined =>
      Throw (TypeError
        "Cannot read properties of undefined (reading 'hasOwnProperty')")
  | JNull =>
      Throw (TypeError
        "Cannot read properties of null (reading 'hasOwnProperty')")
  | JObject fields =>
      match fields !! "hasOwnProperty" with
      | Some _ => Throw (TypeError "user.hasOwnProperty is not a function")
      | None => Ok (bool_decide (is_Some (fields !! key)))
      end
  | _ => Ok false
  end.

End Json.

(** ** Format checks (utils/helpers.ts) *)

Module Helpers.
Import Stdlib.Strings.Ascii JS.

(** *** Regular expressions

    The patterns of the helpers, [/^...$/] without the flags [g], [y] and
    [m]: [test] tells whether the whole string is in the language of the
    pattern.  A string is the sequence of its code units, taken below 256;
    a character class is the set of the code units it allows. *)
Inductive Regex : Type :=
| Void
| Eps
| Class (allows : ascii -> bool)
| Seq (r1 r2 : Regex)
| Alt (r1 r2 : Regex)
| Star (r : Regex).

(** [r+] *)
Definition plus (r : Regex) : Regex := Seq r (Star r).

(** [r{n}] *)
Fixpoint times (n : nat) (r : Regex) : Regex :=
  match n with
  | O => Eps
  | S n' => Seq r (times n' r)
  end.

Fixpoint nullable (r : Regex) : bool :=
  match r with
  | Void => false
  | Eps => true
  | Class _ => false
  | Seq r1 r2 => nullable r1 && nullable r2
  | Alt r1 r2 => nullable r1 || nullable r2
  | Star _ => true
  end.

(** The pattern for what may follow the code unit [c]. *)
Fixpoint deriv (c : ascii) (r : Regex) : Regex :=
  match r with
  | Void => Void
  | Eps => Void
  | Class allows => if allows c then Eps else Void
  | Seq r1 r2 =>
      if nullable r1
      then Alt (Seq (deriv c r1) r2) (deriv c r2)
      else Seq (deriv c r1) r2
  | Alt r1 r2 => Alt (deriv c r1) (deriv c r2)
  | Star r1 => Seq (deriv c r1) (Star r1)
  end.

(** [regex.test(s)] *)
Fixpoint test (r : Regex) (s : string) : bool :=
  match s with
  | EmptyString => nullable r
  | String c rest => test (deriv c r) rest
  end.

(** The code unit [c] alone. *)
Definition unit_ (c : ascii) : Regex := Class (Ascii.eqb c).

(** [\s] below 256: tab, line feed, vertical tab, form feed, carriage
    return, space and no-break space. *)
Definition white_space (c : ascii) : bool :=
  bool_decide (nat_of_ascii c ∈ [9; 10; 11; 12; 13; 32; 160]%nat).

(** [[^\s@]] *)
Definition not_space_or_at (c : ascii) : bool :=
  negb (white_space c || Ascii.eqb c "@").

Definition between (lo hi : ascii) (c : ascii) : bool :=
  (nat_of_ascii lo <=? nat_of_ascii c)%nat
  && (nat_of_ascii c <=? nat_of_ascii hi)%nat.

(** [[0-9a-f]] under the flag [i]: a letter is allowed in either case. *)
Definition hex_digit (c : ascii) : bool :=
  between "0" "9" c || between "a" "f" c || between "A" "F" c.

(** [/^[^\s@]+@[^\s@]+\.[^\s@]+$/] *)
Definition emailRegex : Regex :=
  Seq (plus (Class not_space_or_at))
    (Seq (unit_ "@")
       (Seq (plus (Class not_space_or_at))
          (Seq (unit_ ".") (plus (Class not_space_or_at))))).

Definition isValidEmail (email : string) : bool := test emailRegex email.

(** [/^[0-9a-f]{8}-[0-9a-f]{4}-[0-9a-f]{4}-[0-9a-f]{4}-[0-9a-f]{12}$/i] *)
Definition uuidRegex : Regex :=
  Seq (times 8 (Class hex_digit))
    (Seq (unit_ "-")
       (Seq (times 4 (Class hex_digit))
          (Seq (unit_ "-")
             (Seq (times 4 (Class hex_digit))
                (Seq (unit_ "-")
                   (Seq (times 4 (Class hex_digit))
                      (Seq (unit_ "-") (times 12 (Class hex_digit))))))))).

Definition isValidUUID (uuid : string) : bool := test uuidRegex uuid.

(** *** Ages *)

(** The fields of a valid [Date] in local time: [getFullYear()],
    [getMonth()] (from 0) and [getDate()]. *)
Record DateFields : Type := {
  getFullYear : Z;
  getMonth : Z;
  getDate : Z
}.

(** [calculateAge(dateOfBirth)], on the fields of [new Date(dateOfBirth)]
    and of [new Date()]. *)
Definition calculateAge (today dob : DateFields) : Z :=
  let age := getFullYear today - getFullYear dob in
  let monthDiff := getMonth today - getMonth dob in
  if (monthDiff <? 0) || ((monthDiff =? 0) && (getDate today <? getDate dob))
  then age - 1
  else age.

End Helpers.


(** ** Configuration (config/ConfigManager.ts) *)

Module Config.
Import JS.

(** A number of the configuration: a whole number, or the [NaN] that
    [parseInt] yields on a text without digits. *)
Inductive Number : Type :=
| NaN
| Int (z : Z).

(** [n <= 0] and [n < 0] on a property that may be absent: a comparison
    with [undefined] or with [NaN] is false. *)
Definition le_zero (n : option Number) : bool :=
  match n with
  | Some (Int z) => z <=? 0
  | _ => false
  end.

Definition lt_zero (n : option Number) : bool :=
  match n with
  | Some (Int z) => z <? 0
  | _ => false
  end.

(** The sections of an [AppConfig] as they are at run time; a property
    that is absent is [None]. *)
Record ApiSection : Type := {
  baseUrl : option string;
  timeout : option Number;
  retryAttempts : option Number;
  retryDelay : option Number
}.

Record TestingSection : Type := {
  enableLogging : option bool;
  maxConcurrentRequests : option Number;
  defaultTimeout : option Number;
  performanceThreshold : option Number
}.

Record ReportingSection : Type := {
  enableHtmlReports : option bool;
  enableJunitReports : option bool;
  reportDirectory : option string
}.

Record AppConfig : Type := {
  api : ApiSection;
  testing : TestingSection;
  reporting : ReportingSection;
  environment : string
}.

(** [Partial<AppConfig>]: the keys that are given. *)
Record PartialConfig : Type := {
  p_api : option ApiSection;
  p_testing : option TestingSection;
  p_reporting : option ReportingSection;
  p_environment : option string
}.

(** A property of [{ ...a, ...b }]: that of [b] when [b] has it. *)
Definition over {A : Type} (a b : option A) : option A :=
  match b with
  | Some x => Some x
  | None => a
  end.

(** [{ ...a, ...b }] on sections *)
Definition spread_api (a b : ApiSection) : ApiSection :=
  {| baseUrl := over (baseUrl a) (baseUrl b);
     timeout := over (timeout a) (timeout b);
     retryAttempts := over (retryAttempts a) (retryAttempts b);
     retryDelay := over (retryDelay a) (retryDelay b) |}.

Definition spread_testing (a b : TestingSection) : TestingSection :=
  {| enableLogging := over (enableLogging a) (enableLogging b);
     maxConcurrentRequests :=
       over (maxConcurrentRequests a) (maxConcurrentRequests b);
     defaultTimeout := over (defaultTimeout a) (defaultTimeout b);
     performanceThreshold :=
       over (performanceThreshold a) (performanceThreshold b) |}.

Definition spread_reporting (a b : ReportingSection) : ReportingSection :=
  {| enableHtmlReports := over (enableHtmlReports a) (enableHtmlReports b);
     enableJunitReports := over (enableJunitReports a) (enableJunitReports b);
     reportDirectory := over (reportDirectory a) (reportDirectory b) |}.

(** [{ ...config, ...partialConfig }]: a section that is given replaces
    the section of [config] as a whole. *)
Definition spread_config (config : AppConfig) (partialConfig : PartialConfig)
  : AppConfig :=
  {| api := default (api config) (p_api partialConfig);
     testing := default (testing config) (p_testing partialConfig);
     reporting := default (reporting config) (p_reporting partialConfig);
     environment := default (environment config) (p_environment partialConfig) |}.

(** Assignments to the properties that [loadEnvironmentConfig] writes. *)
Definition set_environment (v : string) (config : AppConfig) : AppConfig :=
  {| api := api config; testing := testing config;
     reporting := reporting config; environment := v |}.

Definition set_api_baseUrl (v : string) (config : AppConfig) : AppConfig :=
  {| api := {| baseUrl := Some v;
               timeout := timeout (api config);
               retryAttempts := retryAttempts (api config);
               retryDelay := retryDelay (api config) |};
     testing := testing config; reporting := reporting config;
     environment := environment config |}.

Definition set_api_timeout (v : Number) (config : AppConfig) : AppConfig :=
  {| api := {| baseUrl := baseUrl (api config);
               timeout := Some v;
               retryAttempts := retryAttempts (api config);
               retryDelay := retryDelay (api config) |};
     testing := testing config; reporting := reporting config;
     environment := environment config |}.

Definition set_api_retryAttempts (v : Number) (config : AppConfig)
  : AppConfig :=
  {| api := {| baseUrl := baseUrl (api config);
               timeout := timeout (api config);
               retryAttempts := Some v;
               retryDelay := retryDelay (api config) |};
     testing := testing config; reporting := reporting config;
     environment := environment config |}.

Definition set_testing_enableLogging (v : bool) (config : AppConfig)
  : AppConfig :=
  {| api := api config;
     testing :=
       {| enableLogging := Some v;
          maxConcurrentRequests := maxConcurrentRequests (testing config);
          defaultTimeout := defaultTimeout (testing config);
          performanceThreshold := performanceThreshold (testing config) |};
     reporting := reporting config; environment := environment config |}.

Definition set_testing_maxConcurrentRequests (v : Number) (config : AppConfig)
  : AppConfig :=
  {| api := api config;
     testing :=
       {| enableLogging := enableLogging (testing config);
          maxConcurrentRequests := Some v;
          defaultTimeout := defaultTimeout (testing config);
          performanceThreshold := performanceThreshold (testing config) |};
     reporting := reporting config; environment := environment config |}.

Definition set_testing_performanceThreshold (v : Number) (config : AppConfig)
  : AppConfig :=
  {| api := api config;
     testing :=
       {| enableLogging := enableLogging (testing config);
          maxConcurrentRequests := maxConcurrentRequests (testing config);
          defaultTimeout := defaultTimeout (testing config);
          performanceThreshold := Some v |};
     reporting := reporting config; environment := environment config |}.

(** [loadDefaultConfig()] *)
Definition loadDefaultConfig : AppConfig :=
  {| api := {| baseUrl := Some "https://randomuser.me/api";
               timeout := Some (Int 10000);
               retryAttempts := Some (Int 3);
               retryDelay := Some (Int 1000) |};
     testing := {| enableLogging := Some true;
                   maxConcurrentRequests := Some (Int 10);
                   defaultTimeout := Some (Int 30000);
                   performanceThreshold := Some (Int 5000) |};
     reporting := {| enableHtmlReports := Some true;
                     enableJunitReports := Some true;
                     reportDirectory := Some "test-reports" |};
     environment := "development" |}.

(** [process.env] *)
Definition ProcessEnv : Type := gmap string string.

(** [if (process.env.KEY)]: the variable when it is set to a non-empty
    text. *)
Definition env_var (penv : ProcessEnv) (key : string) : option string :=
  match penv !! key with
  | Some text => if truthy_string text then Some text else None
  | None => None
  end.

Section Manager.

(** [parseInt(text, 10)] and [text.toLowerCase()] *)
Variable parseInt : string -> Number.
Variable toLowerCase : string -> string.

(** [loadEnvironmentConfig()] on the [config] of the manager, under the
    process environment [penv]. *)
Definition loadEnvironmentConfig (penv : ProcessEnv) : M AppConfig unit :=
  let env := default "development" (env_var penv "NODE_ENV") in
  modify (set_environment env) ;;;
  (if String.eqb env "production" then
     modify (set_api_timeout (Int 30000)) ;;;
     modify (set_api_retryAttempts (Int 5)) ;;;
     modify (set_testing_enableLogging false) ;;;
     modify (set_testing_performanceThreshold (Int 3000))
   else if String.eqb env "testing" then
     modify (set_api_timeout (Int 5000)) ;;;
     modify (set_api_retryAttempts (Int 1)) ;;;
     modify (set_testing_enableLogging false) ;;;
     modify (set_testing_maxConcurrentRequests (Int 5))
   else ret tt) ;;;
  (match env_var penv "API_BASE_URL" with
   | Some text => modify (set_api_baseUrl text)
   | None => ret tt
   end) ;;;
  (match env_var penv "API_TIMEOUT" with
   | Some text => modify (set_api_timeout (parseInt text))
   | None => ret tt
   end) ;;;
  (match env_var penv "RETRY_ATTEMPTS" with
   | Some text => modify (set_api_retryAttempts (parseInt text))
   | None => ret tt
   end) ;;;
  (match env_var penv "ENABLE_LOGGING" with
   | Some text =>
       modify (set_testing_enableLogging (String.eqb (toLowerCase text) "true"))
   | None => ret tt
   end).

(** [new ConfigManager()]: the [config] of the new manager. *)
Definition new_ConfigManager (penv : ProcessEnv) : AppConfig :=
  snd (loadEnvironmentConfig penv loadDefaultConfig).

(** [getConfig()] and [getApiConfig()]: copies. *)
Definition getConfig (config : AppConfig) : AppConfig := config.

Definition getApiConfig (config : AppConfig) : ApiSection := api config.

(** [updateConfig(partialConfig)] *)
Definition updateConfig (partialConfig : PartialConfig) (config : AppConfig)
  : AppConfig :=
  spread_config config partialConfig.

(** [resetToDefaults()] *)
Definition resetToDefaults (penv : ProcessEnv) (config : AppConfig)
  : AppConfig :=
  new_ConfigManager penv.

(** [errors.push(text)] *)
Definition push (text : string) : M (list string) unit :=
  modify (fun errors => (errors ++ [text])%list).

Record ConfigValidation : Type := {
  isValid : bool;
  errors : list string
}.

(** [validateConfig()] *)
Definition validateConfig (config : AppConfig) : ConfigValidation :=
  let errors :=
    snd (((if negb (truthy_string (default "" (baseUrl (api config))))
           then push "API base URL is required" else ret tt) ;;;
          (if le_zero (timeout (api config))
           then push "API timeout must be positive" else ret tt) ;;;
          (if lt_zero (retryAttempts (api config))
           then push "Retry attempts cannot be negative" else ret tt) ;;;
          (if le_zero (maxConcurrentRequests (testing config))
           then push "Max concurrent requests must be positive" else ret tt) ;;;
          (if le_zero (performanceThreshold (testing config))
           then push "Performance threshold must be positive" else ret tt))
           []) in
  {| isValid := Z.of_nat (length errors) =? 0; errors := errors |}.

(** [ConfigManager.getConfigForEnvironment(env)], on the process
    environment. *)
Definition getConfigForEnvironment (env : string) : M ProcessEnv AppConfig :=
  let! tempInstance := gets new_ConfigManager in
  let! originalEnv := gets (fun penv => penv !! "NODE_ENV") in
  modify (<["NODE_ENV" := env]>) ;;;
  let! tempInstance :=
    gets (fun penv => snd (loadEnvironmentConfig penv tempInstance)) in
  (match originalEnv with
   | Some text =>
       if truthy_string text
       then modify (<["NODE_ENV" := text]>)
       else modify (delete "NODE_ENV")
   | None => modify (delete "NODE_ENV")
   end) ;;;
  ret (getConfig tempInstance).

(** The process: its environment and the [config] of the singleton, once
    it is created. *)
Record Runtime : Type := {
  process_env : ProcessEnv;
  instance : option AppConfig
}.

(** [ConfigManager.getInstance()]: the singleton is created on first use;
    the computation yields its [config]. *)
Definition getInstance : M Runtime AppConfig :=
  fun rt =>
    match instance rt with
    | Some config => (Ok config, rt)
    | None =>
        let config := new_ConfigManager (process_env rt) in
        (Ok config, {| process_env := process_env rt; instance := Some config |})
    end.

(** [clone()] *)
Definition clone : M Runtime unit :=
  throw (Error "Cannot clone singleton ConfigManager instance").

(** *** ConfigBuilder *)

Definition new_ConfigBuilder : PartialConfig :=
  {| p_api := None; p_testing := None; p_reporting := None;
     p_environment := None |}.

Definition empty_api : ApiSection :=
  {| baseUrl := None; timeout := None; retryAttempts := None;
     retryDelay := None |}.

Definition empty_testing : TestingSection :=
  {| enableLogging := None; maxConcurrentRequests := None;
     defaultTimeout := None; performanceThreshold := None |}.

Definition empty_reporting : ReportingSection :=
  {| enableHtmlReports := None; enableJunitReports := None;
     reportDirectory := None |}.

Definition withApiConfig (apiConfig : ApiSection) (this : PartialConfig)
  : PartialConfig :=
  {| p_api := Some (spread_api (default empty_api (p_api this)) apiConfig);
     p_testing := p_testing this;
     p_reporting := p_reporting this;
     p_environment := p_environment this |}.

Definition withTestingConfig (testingConfig : TestingSection)
    (this : PartialConfig) : PartialConfig :=
  {| p_api := p_api this;
     p_testing :=
       Some (spread_testing (default empty_testing (p_testing this))
               testingConfig);
     p_reporting := p_reporting this;
     p_environment := p_environment this |}.

Definition withReportingConfig (reportingConfig : ReportingSection)
    (this : PartialConfig) : PartialConfig :=
  {| p_api := p_api this;
     p_testing := p_testing this;
     p_reporting :=
       Some (spread_reporting (default empty_reporting (p_reporting this))
               reportingConfig);
     p_environment := p_environment this |}.

Definition withEnvironment (env : string) (this : PartialConfig)
  : PartialConfig :=
  {| p_api := p_api this;
     p_testing := p_testing this;
     p_reporting := p_reporting this;
     p_environment := Some env |}.

(** [build()] *)
Definition build (this : PartialConfig) : M Runtime AppConfig :=
  let! manager := getInstance in
  let baseConfig := getConfig manager in
  ret (spread_config baseConfig this).

(** [applyToManager()] *)
Definition applyToManager (this : PartialConfig) : M Runtime unit :=
  let! manager := getInstance in
  modify (fun rt => {| process_env := process_env rt;
                       instance := Some (updateConfig this manager) |}).

End Manager.

End Config.


(** ** Validation strategies (strategies/ValidationStrategy.ts) *)

Module Strategies.
Import JS.

Record ValidationResult : Type := {
  isValid : bool;
  errors : list string;
  field : option string
}.

Section Strategies.

(** The validated datum, of type [any] in the sources. *)
Variable Data : Type.

(** A strategy object.  Its [validate] reads the datum only; it may throw
    on a datum of the wrong shape. *)
Record ValidationStrategy : Type := {
  validate : Data -> Res ValidationResult;
  getStrategyName : string
}.

(** The log of [validate] invocations: the strategies called, in order. *)
Definition Log : Type := list ValidationStrategy.

(** [strategy.validate(data)] *)
Definition call_validate (strategy : ValidationStrategy) (data : Data)
  : M Log ValidationResult :=
  fun log => (validate strategy data, (log ++ [strategy])%list).

(** The composite: the array of its sub-strategies, with its contents when
    a method is called. *)
Record CompositeValidationStrategy : Type := {
  strategies : list ValidationStrategy
}.

Definition addStrategy (strategy : ValidationStrategy)
    (this : CompositeValidationStrategy) : CompositeValidationStrategy :=
  {| strategies := strategies this ++ [strategy] |}.

Definition removeStrategy (strategyName : string)
    (this : CompositeValidationStrategy) : CompositeValidationStrategy :=
  {| strategies :=
       filter (fun s => getStrategyName s <> strategyName) (strategies this) |}.

(** The loop of [CompositeValidationStrategy.validate] over the strategies
    that remain, with the two accumulators of the method. *)
Fixpoint validate_loop (rest : list ValidationStrategy) (data : Data)
    (allErrors : list string) (allValid : bool)
  : M Log (list string * bool) :=
  match rest with
  | [] => ret (allErrors, allValid)
  | strategy :: rest' =>
      let! result := call_validate strategy data in
      if negb (isValid result)
      then validate_loop rest' data (allErrors ++ errors result) false
      else validate_loop rest' data allErrors allValid
  end.

Definition composite_validate (this : CompositeValidationStrategy)
    (data : Data) : M Log ValidationResult :=
  let! acc := validate_loop (strategies this) data [] true in
  ret {| isValid := snd acc; errors := fst acc; field := Some "composite" |}.

(** [names.join(', ')] *)
Fixpoint join (sep : string) (l : list string) : string :=
  match l with
  | [] => ""
  | [x] => x
  | x :: rest => x ++ sep ++ join sep rest
  end.

Definition composite_getStrategyName (this : CompositeValidationStrategy)
  : string :=
  "CompositeValidation("
    ++ join ", " (map getStrategyName (strategies this)) ++ ")".

(** A composite used as a strategy. *)
Definition as_strategy (this : CompositeValidationStrategy)
  : ValidationStrategy :=
  {| validate := fun data => fst (composite_validate this data []);
     getStrategyName := composite_getStrategyName this |}.

End Strategies.

Arguments validate {Data} _ _.
Arguments getStrategyName {Data} _.
Arguments call_validate {Data} _ _.
Arguments strategies {Data} _.
Arguments addStrategy {Data} _ _.
Arguments removeStrategy {Data} _ _.
Arguments validate_loop {Data} _ _ _ _.
Arguments composite_validate {Data} _ _.
Arguments composite_getStrategyName {Data} _.
Arguments as_strategy {Data} _.

(** The field-format strategies share one shape: a check from
    utils/helpers.ts, taken as [check], and an error that quotes the
    datum. *)
Definition format_strategy (check : string -> bool)
    (prefix fieldName strategyName : string) : ValidationStrategy string :=
  {| validate := fun datum =>
       let isValid := check datum in
       Ok {| isValid := isValid;
             errors := if isValid then [] else [prefix ++ datum];
             field := Some fieldName |};
     getStrategyName := strategyName |}.

Definition EmailValidationStrategy (isValidEmail : string -> bool)
  : ValidationStrategy string :=
  format_strategy isValidEmail "Invalid email format: " "email" "EmailValidation".

Definition UUIDValidationStrategy (isValidUUID : string -> bool)
  : ValidationStrategy string :=
  format_strategy isValidUUID "Invalid UUID format: " "uuid" "UUIDValidation".

(** *** Structure strategies *)

Section Structure.
Import Json.

(** [errors.push(text)] on the [errors] array of a [validate]. *)
Definition push (text : string) : M (list string) unit :=
  modify (fun errors => (errors ++ [text])%list).

Definition requiredFields : list string :=
  ["gender"; "name"; "location"; "email"; "login"; "dob"; "registered";
   "phone"; "cell"; "id"; "picture"; "nat"].

(** The callback of [requiredFields.forEach] *)
Definition check_required (user : JsValue) (field : string)
  : M (list string) unit :=
  let! own := lift (hasOwnProperty user field) in
  if negb own
  then push ("Missing required field: " ++ field)
  else
    let! value := lift (get user field) in
    if is_undefined value
    then push ("Missing required field: " ++ field)
    else ret tt.

(** [UserStructureValidationStrategy.validate(user)] *)
Definition UserStructure_validate (user : JsValue) : Res ValidationResult :=
  fst ((forEach requiredFields (check_required user) ;;;
        let! name := lift (get user "name") in
        (if truthy name && String.eqb (typeof name) "object"
         then
           let! first := lift (get name "first") in
           if negb (truthy first)
           then push "Name must have first and last properties"
           else
             let! last := lift (get name "last") in
             if negb (truthy last)
             then push "Name must have first and last properties"
             else ret tt
         else ret tt) ;;;
        let! location := lift (get user "location") in
        (if truthy location && String.eqb (typeof location) "object"
         then
           let! city := lift (get location "city") in
           if negb (truthy city)
           then push "Location must have city and country properties"
           else
             let! country := lift (get location "country") in
             if negb (truthy country)
             then push "Location must have city and country properties"
             else ret tt
         else ret tt) ;;;
        let! errors := gets (fun errors => errors) in
        ret {| isValid := Z.of_nat (length errors) =? 0;
               errors := errors;
               field := Some "user" |}) []).

Definition UserStructureValidationStrategy : ValidationStrategy JsValue :=
  {| validate := UserStructure_validate;
     getStrategyName := "UserStructureValidation" |}.

(** [ResponseStructureValidationStrategy.validate(response)] *)
Definition ResponseStructure_validate (response : JsValue)
  : Res ValidationResult :=
  fst ((let! results := lift (get response "results") in
        (if negb (truthy results) || negb (isArray results)
         then push "Response must have results array"
         else ret tt) ;;;
        let! info := lift (get response "info") in
        (if negb (truthy info) || negb (String.eqb (typeof info) "object")
         then push "Response must have info object"
         else
           let! info_results := lift (get info "results") in
           (if negb (String.eqb (typeof info_results) "number")
            then push "Info must have results number"
            else ret tt) ;;;
           let! info_page := lift (get info "page") in
           (if negb (String.eqb (typeof info_page) "number")
            then push "Info must have page number"
            else ret tt) ;;;
           let! info_seed := lift (get info "seed") in
           (if negb (String.eqb (typeof info_seed) "string")
            then push "Info must have seed string"
            else ret tt)) ;;;
        let! errors := gets (fun errors => errors) in
        ret {| isValid := Z.of_nat (length errors) =? 0;
               errors := errors;
               field := Some "response" |}) []).

Definition ResponseStructureValidationStrategy : ValidationStrategy JsValue :=
  {| validate := ResponseStructure_validate;
     getStrategyName := "ResponseStructureValidation" |}.

(** [ToString(v)], which [RegExp.prototype.test] and a template literal
    apply to an argument that is not a string; it may throw. *)
Variable to_string : JsValue -> Res string.

(** A field-format strategy handed a datum of type [any]. *)
Definition on_any (strategy : ValidationStrategy string)
  : ValidationStrategy JsValue :=
  {| validate := fun datum =>
       match to_string datum with
       | Ok text => validate strategy text
       | Throw e => Throw e
       end;
     getStrategyName := getStrategyName strategy |}.

(** [ValidationStrategyFactory.createFullUserValidator()] *)
Definition createFullUserValidator : CompositeValidationStrategy JsValue :=
  {| strategies :=
       [UserStructureValidationStrategy;
        on_any (EmailValidationStrategy Helpers.isValidEmail);
        on_any (UUIDValidationStrategy Helpers.isValidUUID)] |}.

End Structure.


End Strategies.

(** ** Test doubles

    Concrete services, commands, observers and strategies on which the
    embedding is run. *)

Module Fixtures.
Import JS.

(** *** Services and clients *)

Definition someone : Client.User :=
  {| Client.gender := "female";
     Client.email := "ada@example.com";
     Client.user_nat := "GB" |}.

Definition payload (n : nat) : Client.RandomUserResponse :=
  {| Client.results := repeat someone n;
     Client.info := {| Client.seed := "test-seed-123";
                       Client.info_results := Z.of_nat n;
                       Client.page := 1;
                       Client.version := "1.4" |} |}.

(** A service that answers every call with as many records as asked for. *)
Definition healthy (i : nat) (params : Client.Params) : Client.NetOutcome :=
  match params !! "results" with
  | Some (Client.PNum n) => Client.Responded 200 (payload (Z.to_nat n))
  | _ => Client.Responded 200 (payload 1)
  end.

(** A service that is unavailable for the first two calls. *)
Definition flaky (i : nat) (params : Client.Params) : Client.NetOutcome :=
  match i with
  | 0%nat | 1%nat => Client.Responded 503 (payload 0)
  | _ => healthy i params
  end.

(** A service that does not know the endpoint. *)
Definition missing (i : nat) (params : Client.Params) : Client.NetOutcome :=
  Client.Responded 404 (payload 0).

(** A service that is unavailable for the first call only. *)
Definition hiccup (i : nat) (params : Client.Params) : Client.NetOutcome :=
  match i with
  | 0%nat => Client.Responded 503 (payload 0)
  | _ => healthy i params
  end.

(** The world before anything has happened, with timers that fire on
    time. *)
Definition boot (server : nat -> Client.Params -> Client.NetOutcome)
  : Client.World :=
  {| Client.server := server;
     Client.overrun := fun _ => 0%nat;
     Client.clock := 0;
     Client.events := [] |}.

(** [ApiClientBuilder.forTesting().build()] *)
Definition testing_client : Client.ApiClientConfig :=
  Client.new_client Client.defaultConfig
    {| Client.opt_baseUrl := None;
       Client.opt_timeout := Some 10000;
       Client.opt_retryAttempts := Some 3;
       Client.opt_retryDelay := Some 1000;
       Client.opt_enableLogging := Some true |}.

(** A client told to wait 2^31 milliseconds before its second attempt. *)
Definition patient_client : Client.ApiClientConfig :=
  Client.new_client Client.defaultConfig
    {| Client.opt_baseUrl := None;
       Client.opt_timeout := None;
       Client.opt_retryAttempts := Some 2;
       Client.opt_retryDelay := Some 2147483648;
       Client.opt_enableLogging := Some false |}.

(** *** Commands *)

Definition fetch_one : Commands.TestCommand Client.World :=
  Commands.FetchSingleUserCommand testing_client.

Definition fetch_two : Commands.TestCommand Client.World :=
  Commands.FetchMultipleUsersCommand testing_client 2.

Definition fetch_five : Commands.TestCommand Client.World :=
  Commands.FetchMultipleUsersCommand testing_client 5.

(** Rejected by the count check of the client. *)
Definition fetch_none : Commands.TestCommand Client.World :=
  Commands.FetchMultipleUsersCommand testing_client 0.

(** A command whose undo rejects. *)
Definition stubborn : Commands.TestCommand Client.World :=
  {| Commands.execute := Commands.execute fetch_one;
     Commands.undo := throw (Error "cannot undo");
     Commands.getCommandName := "Stubborn";
     Commands.getDescription := "A command that cannot be undone" |}.

(** A command whose undo asks the service to forget what the command
    fetched: one more request, with the seed [label]. *)
Definition reverting (label : string) : Commands.TestCommand Client.World :=
  {| Commands.execute := Commands.execute fetch_one;
     Commands.undo :=
       (let! response := Client.axios_get {[ "seed" := Client.PStr label ]} in
        ret tt);
     Commands.getCommandName := "Reverting(" ++ label ++ ")";
     Commands.getDescription := "A command whose undo calls the service" |}.

Definition start_env (server : nat -> Client.Params -> Client.NetOutcome)
  : Commands.Env Client.World :=
  {| Commands.calls := []; Commands.world := boot server |}.

(** A command whose execution rejects. *)
Definition exploding : Commands.TestCommand Client.World :=
  {| Commands.execute := throw (Error "exploded");
     Commands.undo := ret tt;
     Commands.getCommandName := "Exploding";
     Commands.getDescription := "A command that throws" |}.

(** A command whose execution rejects with [null]. *)
Definition choking : Commands.TestCommand Client.World :=
  {| Commands.execute := throw Null;
     Commands.undo := ret tt;
     Commands.getCommandName := "Choking";
     Commands.getDescription := "A command that rejects with null" |}.

(** *** Observers *)

(** An observer that keeps its notifications in a shared journal, as the
    hand-written observer of the pattern tests does. *)
Definition recorder (id : nat) (label : string)
  : Observers.TestObserver (list string) :=
  {| Observers.observer_id := id;
     Observers.onTestStart := fun testName =>
       modify (fun journal => (journal ++ [(label ++ " START: " ++ testName)%string])%list);
     Observers.onTestComplete := fun result =>
       modify (fun journal =>
         (journal
            ++ [(label ++ " COMPLETE: " ++ Observers.testName result)%string])%list);
     Observers.onSuiteComplete := fun suite =>
       modify (fun journal =>
         (journal
            ++ [(label ++ " SUITE: " ++ Observers.suiteName suite)%string])%list) |}.

(** An observer whose completion handler throws. *)
Definition faulty (id : nat) : Observers.TestObserver (list string) :=
  {| Observers.observer_id := id;
     Observers.onTestStart := fun _ => ret tt;
     Observers.onTestComplete := fun _ => throw (Error "observer failed");
     Observers.onSuiteComplete := fun _ => ret tt |}.

Definition demo_result : Observers.TestResult :=
  {| Observers.testName := "ObserverDemoTest";
     Observers.status := Observers.passed;
     Observers.duration := 100;
     Observers.error := None;
     Observers.timestamp := 0 |}.

Definition instant_result : Observers.TestResult :=
  {| Observers.testName := "InstantTest";
     Observers.status := Observers.passed;
     Observers.duration := 0;
     Observers.error := None;
     Observers.timestamp := 0 |}.

(** *** Strategies *)

Definition accepting (strategyName : string)
  : Strategies.ValidationStrategy string :=
  {| Strategies.validate := fun _ =>
       Ok {| Strategies.isValid := true;
             Strategies.errors := [];
             Strategies.field := None |};
     Strategies.getStrategyName := strategyName |}.

Definition rejecting (strategyName : string) (errors : list string)
  : Strategies.ValidationStrategy string :=
  {| Strategies.validate := fun _ =>
       Ok {| Strategies.isValid := false;
             Strategies.errors := errors;
             Strategies.field := None |};
     Strategies.getStrategyName := strategyName |}.

(** A strategy that accepts the datum and still reports a remark. *)
Definition remarking (strategyName : string) (remarks : list string)
  : Strategies.ValidationStrategy string :=
  {| Strategies.validate := fun _ =>
       Ok {| Strategies.isValid := true;
             Strategies.errors := remarks;
             Strategies.field := None |};
     Strategies.getStrategyName := strategyName |}.

(** A strategy that throws on the datum. *)
Definition brittle (strategyName : string)
  : Strategies.ValidationStrategy string :=
  {| Strategies.validate := fun _ =>
       Throw (TypeError "Cannot read properties of null");
     Strategies.getStrategyName := strategyName |}.

(** A service that is unavailable on every call. *)
Definition down (i : nat) (params : Client.Params) : Client.NetOutcome :=
  Client.Responded 503 (payload 0).

(** [toUpperCase] on strings of ASCII characters. *)
Fixpoint upper_ascii (s : string) : string :=
  match s with
  | EmptyString => EmptyString
  | String c rest =>
      let n := Ascii.nat_of_ascii c in
      String (if (Nat.leb 97 n && Nat.leb n 122)%bool
              then Ascii.ascii_of_nat (n - 32)
              else c)
             (upper_ascii rest)
  end.

(** A result with a given name and duration. *)
Definition timed (testName : string) (duration : Z) : Observers.TestResult :=
  {| Observers.testName := testName;
     Observers.status := Observers.passed;
     Observers.duration := duration;
     Observers.error := None;
     Observers.timestamp := 0 |}.

(** *** Data of type [any] *)

(** A record of the service, as parsed. *)
Definition ada : Json.JsValue :=
  Json.JObject
    {[ "gender" := Json.JString "female";
       "name" := Json.JObject {[ "title" := Json.JString "Ms";
                                 "first" := Json.JString "Ada";
                                 "last" := Json.JString "Lovelace" ]};
       "location" := Json.JObject {[ "city" := Json.JString "London";
                                     "country" := Json.JString "United Kingdom" ]};
       "email" := Json.JString "ada@example.com";
       "login" := Json.JObject
                    {[ "uuid" := Json.JString
                                   "7a0eed16-9430-4d68-901f-c0d4c1c3bf00" ]};
       "dob" := Json.JObject {[ "date" := Json.JString "1815-12-10T00:00:00.000Z";
                                "age" := Json.JNumber (Json.Fin 36) ]};
       "registered" := Json.JObject
                         {[ "date" := Json.JString "2012-03-01T09:30:00.000Z";
                            "age" := Json.JNumber (Json.Fin 12) ]};
       "phone" := Json.JString "016977 1234";
       "cell" := Json.JString "07700 900123";
       "id" := Json.JObject {[ "name" := Json.JString "NINO";
                               "value" := Json.JNull ]};
       "picture" := Json.JObject
                      {[ "large" := Json.JString
                                      "https://randomuser.me/api/portraits/women/1.jpg" ]};
       "nat" := Json.JString "GB" ]}.

(** A response with one record. *)
Definition page_of_one : Json.JsValue :=
  Json.JObject
    {[ "results" := Json.JArray [ada];
       "info" := Json.JObject {[ "seed" := Json.JString "test-seed-123";
                                 "results" := Json.JNumber (Json.Fin 1);
                                 "page" := Json.JNumber (Json.Fin 1);
                                 "version" := Json.JString "1.4" ]} ]}.

(** [ToString] on the data of the tests: a string is itself and an object
    without a [toString] of its own is ["[object Object]"]; the other
    values do not occur in them. *)
Definition plain_to_string (v : Json.JsValue) : Res string :=
  match v with
  | Json.JString s => Ok s
  | Json.JObject _ => Ok "[object Object]"
  | Json.JUndefined => Ok "undefined"
  | Json.JNull => Ok "null"
  | Json.JBool true => Ok "true"
  | Json.JBool false => Ok "false"
  | _ => Throw (TypeError "not a datum of the tests")
  end.

(** *** Process environments *)

(** [parseInt(text, 10)] on a text that starts with a digit or holds
    none. *)
Fixpoint leading_digits (acc : option Z) (text : string) : option Z :=
  match text with
  | EmptyString => acc
  | String c rest =>
      let n := Ascii.nat_of_ascii c in
      if (Nat.leb 48 n && Nat.leb n 57)%bool
      then leading_digits (Some (10 * default 0 acc + Z.of_nat (n - 48))) rest
      else acc
  end.

Definition parse_int (text : string) : Config.Number :=
  match leading_digits None text with
  | Some z => Config.Int z
  | None => Config.NaN
  end.

(** [toLowerCase] on strings of ASCII characters. *)
Fixpoint lower_ascii (s : string) : string :=
  match s with
  | EmptyString => EmptyString
  | String c rest =>
      let n := Ascii.nat_of_ascii c in
      String (if (Nat.leb 65 n && Nat.leb n 90)%bool
              then Ascii.ascii_of_nat (n + 32)
              else c)
             (lower_ascii rest)
  end.

(** The process environment of a test run. *)
Definition test_run : Config.ProcessEnv := {[ "NODE_ENV" := "testing" ]}.


End Fixtures.

(** ** Vocabulary of the properties *)

Module Expected.
Import JS.

(** The calls and suspensions of [m] failed attempts in a row, the first of
    them numbered [first]: each call is followed by its back-off wait. *)
Definition backoff_schedule (config : Client.ApiClientConfig)
    (params : Client.Params) (first : Z) (m : nat) : list Client.NetEvent :=
  flat_map
    (fun j => [Client.Requested params;
               Client.Waited (Client.retryDelay config * 2 ^ (first + Z.of_nat j - 1))])
    (seq 0 m).

(** The world after [m] failed attempts in a row and their waits. *)
Fixpoint retried (config : Client.ApiClientConfig) (params : Client.Params)
    (attempt : Z) (m : nat) (w : Client.World) : Client.World :=
  match m with
  | O => w
  | S m' =>
      retried config params (attempt + 1) m'
        (snd (Client.wait (Client.backoff config attempt)
                (Client.record_event (Client.Requested params) w)))
  end.

(** The waits as the specification words them: each of the [m] waits of
    a call, the one after attempt [k] being asked to last
    [d * 2^(k-1)] milliseconds, lasts that long or longer. *)
Definition waits_last_as_asked (config : Client.ApiClientConfig)
    (params : Client.Params) (m : nat) (w : Client.World) : Prop :=
  forall k, (k < m)%nat ->
    Client.backoff config (1 + Z.of_nat k)
    <= Client.clock (retried config params 1 (S k) w)
       - Client.clock (retried config params 1 k w).


Section CommandVocabulary.
Variable W : Type.

(** The cursor of the invoker lies between -1 and the last index of the
    history. *)
Definition cursor_in_range (i : Commands.TestCommandInvoker W) : Prop :=
  -1 <= Commands.currentIndex i
     < Z.of_nat (length (Commands.history i)).

(** Running the commands in order while none of them throws or reports a
    failure: the environment reached, if all of them pass. *)
Fixpoint all_pass (cs : list (Commands.TestCommand W)) (env : Commands.Env W)
  : option (Commands.Env W) :=
  match cs with
  | [] => Some env
  | c :: rest =>
      match Commands.call_execute c env with
      | (Ok r, env') =>
          if Observers.is_failed (Observers.status r) then None
          else all_pass rest env'
      | (Throw _, _) => None
      end
  end.

(** The undo of each command of [cs] in turn, on the world that the one
    before left, each invocation logged, until one of them rejects. *)
Fixpoint undo_each (cs : list (Commands.TestCommand W)) (env : Commands.Env W)
  : JS.Res unit * Commands.Env W :=
  match cs with
  | [] => (JS.Ok tt, env)
  | c :: rest =>
      match Commands.undo c (Commands.world env) with
      | (JS.Ok _, w1) =>
          undo_each rest
            {| Commands.calls := (Commands.calls env ++ [Commands.Undone c])%list;
               Commands.world := w1 |}
      | (JS.Throw e, w1) =>
          (JS.Throw e,
           {| Commands.calls := (Commands.calls env ++ [Commands.Undone c])%list;
              Commands.world := w1 |})
      end
  end.

(** The specification's words for the undo of a macro command: the undo of
    every sub-command is invoked, the last sub-command first. *)
Definition undoes_all_in_reverse (m : Commands.MacroTestCommand W)
    (env : Commands.Env W) : Prop :=
  Commands.calls (snd (Commands.MacroTestCommand_undo m env)) =
  (Commands.calls env
     ++ map Commands.Undone (rev (Commands.commands m)))%list.

End CommandVocabulary.

Arguments cursor_in_range {W} _.
Arguments all_pass {W} _ _.
Arguments undo_each {W} _ _.
Arguments undoes_all_in_reverse {W} _ _.


Section NotifierVocabulary.
Variable W : Type.

(** One invocation per observer of the list, in the order of the list, all
    with the same notification. *)
Definition deliveries (l : list (Observers.TestObserver W))
    (n : Observers.Notification) : list (Observers.Delivery W) :=
  map (fun o => {| Observers.receiver := o; Observers.notification := n |}) l.

(** The three notify operations of the notifier, by notification. *)
Definition notify (this : Observers.TestResultNotifier W)
    (n : Observers.Notification) : M (Observers.Env W) unit :=
  match n with
  | Observers.TestStart testName => Observers.notifyTestStart this testName
  | Observers.TestComplete result => Observers.notifyTestComplete this result
  | Observers.SuiteComplete suite => Observers.notifySuiteComplete this suite
  end.

End NotifierVocabulary.

Arguments deliveries {W} _ _.
Arguments notify {W} _ _.


(** A completion whose result carries a non-empty error text. *)
Definition completes_with_error (ev : Observers.FileEvent) : bool :=
  match ev with
  | Observers.FileComplete result => Observers.has_error result
  | _ => false
  end.


(** The sum of the durations of the results received. *)
Definition sum_durations (received : list Observers.TestResult) : Z :=
  fold_right Z.add 0 (map Observers.duration received).

(** The number of results received with a given status. *)
Definition count_status (st : Observers.Status)
    (received : list Observers.TestResult) : Z :=
  Z.of_nat (length (List.filter
    (fun r => match Observers.status r, st with
              | Observers.passed, Observers.passed
              | Observers.failed, Observers.failed
              | Observers.skipped, Observers.skipped => true
              | _, _ => false
              end) received)).

(** [held] is the name and duration of a result received. *)
Definition holds_a_received_result (held : Observers.NamedDuration)
    (received : list Observers.TestResult) : Prop :=
  exists r, In r received
            /\ Observers.name held = Observers.testName r
            /\ Observers.named_duration held
               = Observers.Finite (Observers.duration r).

(** The concatenation, in order, of the error lists of all the
    sub-results. *)
Definition all_errors (results : list Strategies.ValidationResult)
  : list string :=
  flat_map Strategies.errors results.

(** The concatenation, in order, of the error lists of the sub-results
    that are not valid. *)
Definition errors_of_invalid (results : list Strategies.ValidationResult)
  : list string :=
  flat_map (fun r => if Strategies.isValid r then [] else Strategies.errors r)
           results.

(** The aggregation as the specification words it: the composite is valid
    exactly when every sub-result is, and its errors are those of all the
    sub-results. *)
Definition aggregates_all_errors {Data : Type}
    (strategies : list (Strategies.ValidationStrategy Data)) (data : Data)
  : Prop :=
  forall results,
    Forall2 (fun s r => Strategies.validate s data = Ok r) strategies results ->
    exists r log,
      Strategies.composite_validate
        {| Strategies.strategies := strategies |} data [] = (Ok r, log)
      /\ (Strategies.isValid r = true
          <-> Forall (fun x => Strategies.isValid x = true) results)
      /\ Strategies.errors r = all_errors results.

(** *** Formats and structures *)

(** The strings that a pattern allows. *)
Inductive In_lang : Helpers.Regex -> string -> Prop :=
| in_eps : In_lang Helpers.Eps ""
| in_class allows c :
    allows c = true -> In_lang (Helpers.Class allows) (String c "")
| in_seq r1 r2 s1 s2 :
    In_lang r1 s1 -> In_lang r2 s2 -> In_lang (Helpers.Seq r1 r2) (s1 ++ s2)
| in_alt_l r1 r2 s : In_lang r1 s -> In_lang (Helpers.Alt r1 r2) s
| in_alt_r r1 r2 s : In_lang r2 s -> In_lang (Helpers.Alt r1 r2) s
| in_star_nil r : In_lang (Helpers.Star r) ""
| in_star_cons r s1 s2 :
    In_lang r s1 -> In_lang (Helpers.Star r) s2 ->
    In_lang (Helpers.Star r) (s1 ++ s2).

(** Every code unit of the string is allowed. *)
Fixpoint all_units (allows : Ascii.ascii -> bool) (s : string) : bool :=
  match s with
  | EmptyString => true
  | String c rest => allows c && all_units allows rest
  end.

(** A non-empty run without white space and without an at sign. *)
Definition plain_run (s : string) : Prop :=
  s <> "" /\ all_units Helpers.not_space_or_at s = true.

(** A run of [n] hexadecimal digits, in either case. *)
Definition hex_run (n : nat) (s : string) : Prop :=
  String.length s = n /\ all_units Helpers.hex_digit s = true.

(** The date [(month, day)] of the year [y] is not after the date
    [today]. *)
Definition reached (y month day : Z) (today : Helpers.DateFields) : Prop :=
  y < Helpers.getFullYear today
  \/ (y = Helpers.getFullYear today
      /\ (month < Helpers.getMonth today
          \/ (month = Helpers.getMonth today
              /\ day <= Helpers.getDate today))).

(** The value of a property of a value that is neither [undefined] nor
    [null]. *)
Definition prop (v : Json.JsValue) (key : string) : Json.JsValue :=
  match v with
  | Json.JObject fields => default Json.JUndefined (fields !! key)
  | _ => Json.JUndefined
  end.

(** The value has the property as its own, with a value other than
    [undefined]. *)
Definition present (v : Json.JsValue) (key : string) : bool :=
  match v with
  | Json.JObject fields =>
      match fields !! key with
      | Some value => negb (Json.is_undefined value)
      | None => false
      end
  | _ => false
  end.

(** An object or an array. *)
Definition structured (v : Json.JsValue) : bool :=
  match v with
  | Json.JObject _ | Json.JArray _ => true
  | _ => false
  end.

Definition nullish (v : Json.JsValue) : bool :=
  match v with
  | Json.JUndefined | Json.JNull => true
  | _ => false
  end.

(** A structured part that lacks a truthy value under one of two keys. *)
Definition lacks_one_of (part : Json.JsValue) (key1 key2 : string) : bool :=
  structured part
  && negb (Json.truthy (prop part key1) && Json.truthy (prop part key2)).

(** The defects of a user, in the order in which they are reported. *)
(** The datum is an object that has a property of its own under the name
    of the method that the structure check calls on it. *)
Definition shadows_hasOwnProperty (v : Json.JsValue) : bool :=
  match v with
  | Json.JObject fields =>
      match fields !! "hasOwnProperty" with
      | Some _ => true
      | None => false
      end
  | _ => false
  end.

Definition user_defects (user : Json.JsValue) : list string :=
  (map (fun field => ("Missing required field: " ++ field)%string)
     (List.filter (fun field => negb (present user field))
        Strategies.requiredFields)
   ++ (if lacks_one_of (prop user "name") "first" "last"
       then ["Name must have first and last properties"] else [])
   ++ (if lacks_one_of (prop user "location") "city" "country"
       then ["Location must have city and country properties"] else []))%list.

Definition is_number (v : Json.JsValue) : bool :=
  match v with Json.JNumber _ => true | _ => false end.

Definition is_string (v : Json.JsValue) : bool :=
  match v with Json.JString _ => true | _ => false end.

(** The defects of a response, in the order in which they are reported. *)
Definition response_defects (response : Json.JsValue) : list string :=
  ((if Json.isArray (prop response "results")
    then [] else ["Response must have results array"])
   ++ (if structured (prop response "info")
       then
         (if is_number (prop (prop response "info") "results")
          then [] else ["Info must have results number"])
         ++ (if is_number (prop (prop response "info") "page")
             then [] else ["Info must have page number"])
         ++ (if is_string (prop (prop response "info") "seed")
             then [] else ["Info must have seed string"])
       else ["Response must have info object"]))%list.


(** *** Configuration *)

(** None of the variables that override a single setting is set to a
    non-empty text. *)
Definition quiet (penv : Config.ProcessEnv) : Prop :=
  Config.env_var penv "API_BASE_URL" = None
  /\ Config.env_var penv "API_TIMEOUT" = None
  /\ Config.env_var penv "RETRY_ATTEMPTS" = None
  /\ Config.env_var penv "ENABLE_LOGGING" = None.

(** The settings of an environment: those of development, with a longer
    timeout, more attempts and a stricter threshold in production, and a
    shorter timeout, one attempt and less concurrency in testing; logging
    is off in both. *)
Definition preset (env : string) : Config.AppConfig :=
  if String.eqb env "production" then
    {| Config.api :=
         {| Config.baseUrl := Some "https://randomuser.me/api";
            Config.timeout := Some (Config.Int 30000);
            Config.retryAttempts := Some (Config.Int 5);
            Config.retryDelay := Some (Config.Int 1000) |};
       Config.testing :=
         {| Config.enableLogging := Some false;
            Config.maxConcurrentRequests := Some (Config.Int 10);
            Config.defaultTimeout := Some (Config.Int 30000);
            Config.performanceThreshold := Some (Config.Int 3000) |};
       Config.reporting := Config.reporting Config.loadDefaultConfig;
       Config.environment := "production" |}
  else if String.eqb env "testing" then
    {| Config.api :=
         {| Config.baseUrl := Some "https://randomuser.me/api";
            Config.timeout := Some (Config.Int 5000);
            Config.retryAttempts := Some (Config.Int 1);
            Config.retryDelay := Some (Config.Int 1000) |};
       Config.testing :=
         {| Config.enableLogging := Some false;
            Config.maxConcurrentRequests := Some (Config.Int 5);
            Config.defaultTimeout := Some (Config.Int 30000);
            Config.performanceThreshold := Some (Config.Int 5000) |};
       Config.reporting := Config.reporting Config.loadDefaultConfig;
       Config.environment := "testing" |}
  else
    {| Config.api := Config.api Config.loadDefaultConfig;
       Config.testing := Config.testing Config.loadDefaultConfig;
       Config.reporting := Config.reporting Config.loadDefaultConfig;
       Config.environment := if String.eqb env "" then "development" else env |}.

(** The ambient environment is one whose settings are those of
    development. *)
Definition plain_ambient (penv : Config.ProcessEnv) : Prop :=
  Config.env_var penv "NODE_ENV" <> Some "production"
  /\ Config.env_var penv "NODE_ENV" <> Some "testing".


(** The execution of a command over the client returns, as data, either a
    pass or a failure with its message, under the name of the command and
    with the time it took. *)
Definition reports_pass_or_failure (c : Commands.TestCommand Client.World)
    (w : Client.World) : Prop :=
  exists r w',
    Commands.execute c w = (Ok r, w')
    /\ Observers.testName r = Commands.getCommandName c
    /\ Observers.duration r = Client.clock w' - Client.clock w
    /\ ((Observers.status r = Observers.passed /\ Observers.error r = None)
        \/ (Observers.status r = Observers.failed
            /\ exists text, Observers.error r = Some text)).

End Expected.

(** * Properties *)

(** ** The resilient client *)

Section ClientProperties.
Import JS Client Expected.

(** What axios rejects with is an [AxiosError]. *)
Lemma settle_rejects_with_axios_error o e :
  settle o = Throw e ->
  exists response request msg, e = AxiosError response request msg.
Proof.
  destruct o as [code body | reason | reason]; cbn [settle].
  - destruct ((200 <=? code) && (code <? 300)); [discriminate |].
    intros H. injection H as <-. eauto.
  - intros H. injection H as <-. eauto.
  - intros H. injection H as <-. eauto.
Qed.

(** The body of [retryRequest], as the method reads. *)
Lemma retryRequest_method config requestFn attempt w :
  retryRequest config requestFn attempt w =
  match requestFn w with
  | (Ok response, w1) => (Ok response, w1)
  | (Throw error, w1) =>
      if attempt >=? retryAttempts config then (Throw error, w1)
      else match reads_client_error error with
           | Throw e => (Throw e, w1)
           | Ok true => (Throw error, w1)
           | Ok false =>
               retryRequest config requestFn (attempt + 1)
                 (snd (wait (backoff config attempt) w1))
           end
  end.
Proof.
  simp retryRequest.
  destruct (requestFn w) as [[response | error] w1]; simpl; [reflexivity |].
  destruct (Z_ge_dec attempt (retryAttempts config)) as [Hge | Hlt]; simpl.
  - destruct (Z.geb_spec attempt (retryAttempts config)); [reflexivity | lia].
  - destruct (Z.geb_spec attempt (retryAttempts config)); [lia |].
    destruct (reads_client_error error) as [[|] | e]; reflexivity.
Qed.

(** The same on the request of [getUsers], whose failures are those of
    axios. *)
Lemma retryRequest_unfold config params attempt w :
  retryRequest config (axios_get params) attempt w =
  match axios_get params w with
  | (Ok response, w1) => (Ok response, w1)
  | (Throw error, w1) =>
      if attempt >=? retryAttempts config then (Throw error, w1)
      else if is_client_error error then (Throw error, w1)
      else retryRequest config (axios_get params) (attempt + 1)
             (snd (wait (backoff config attempt) w1))
  end.
Proof.
  rewrite retryRequest_method. unfold axios_get.
  destruct (settle (server w (network_calls w) params)) as [response | error]
    eqn:Hsettle; [reflexivity |].
  destruct (settle_rejects_with_axios_error _ _ Hsettle)
    as (response & request & msg & ->).
  cbn [reads_client_error]. 
  destruct (attempt >=? retryAttempts config); [reflexivity |].
  destruct (is_client_error (AxiosError response request msg)); reflexivity.
Qed.

Lemma network_calls_request params w :
  network_calls (record_event (Requested params) w) = S (network_calls w).
Proof.
  unfold network_calls, record_event; simpl.
  rewrite filter_app, length_app. simpl.
  rewrite Nat.add_1_r. reflexivity.
Qed.

Lemma network_calls_wait ms w :
  network_calls (snd (wait ms w)) = network_calls w.
Proof.
  unfold network_calls, wait; simpl.
  rewrite filter_app, length_app. simpl. lia.
Qed.

Lemma waits_request params w :
  waits (record_event (Requested params) w) = waits w.
Proof.
  unfold waits, record_event; simpl.
  rewrite omap_app. simpl. apply app_nil_r.
Qed.

Lemma retried_server config params m : forall attempt w,
  server (retried config params attempt m w) = server w.
Proof.
  induction m as [| m IH]; intros attempt w; cbn [retried]; [reflexivity |].
  rewrite IH. reflexivity.
Qed.

Lemma retried_network_calls config params m : forall attempt w,
  network_calls (retried config params attempt m w) = (network_calls w + m)%nat.
Proof.
  induction m as [| m IH]; intros attempt w; cbn [retried]; [lia |].
  rewrite IH, network_calls_wait, network_calls_request. lia.
Qed.

Lemma backoff_schedule_S config params first m :
  backoff_schedule config params first (S m) =
  ([Requested params; Waited (backoff config first)]
     ++ backoff_schedule config params (first + 1) m)%list.
Proof.
  unfold backoff_schedule, backoff. simpl seq. simpl flat_map.
  rewrite Z.add_0_r. simpl app. do 2 f_equal.
  rewrite <- seq_shift, flat_map_concat_map, map_map, <- flat_map_concat_map.
  apply flat_map_ext. intros j.
  replace (first + Z.of_nat (S j) - 1) with (first + 1 + Z.of_nat j - 1) by lia.
  reflexivity.
Qed.

Lemma retried_events config params m : forall attempt w,
  events (retried config params attempt m w) =
  (events w ++ backoff_schedule config params attempt m)%list.
Proof.
  induction m as [| m IH]; intros attempt w.
  - simpl. symmetry. apply app_nil_r.
  - cbn [retried]. rewrite IH, backoff_schedule_S. simpl.
    rewrite <- !app_assoc. reflexivity.
Qed.

(** While the service keeps failing in a retryable way and attempts
    remain, [retryRequest] waits and calls again. *)
Lemma retryRequest_retries config params m : forall attempt w,
  attempt + Z.of_nat m <= retryAttempts config ->
  (forall j, (j < m)%nat ->
     exists e, settle (server w (network_calls w + j)%nat params) = Throw e
               /\ classify e = Retryable) ->
  retryRequest config (axios_get params) attempt w =
  retryRequest config (axios_get params) (attempt + Z.of_nat m)
    (retried config params attempt m w).
Proof.
  induction m as [| m IH]; intros attempt w Hle Hfail.
  - simpl. rewrite Z.add_0_r. reflexivity.
  - rewrite retryRequest_unfold. unfold axios_get at 1.
    destruct (Hfail 0%nat ltac:(lia)) as (e & He & Hcls).
    rewrite Nat.add_0_r in He. rewrite He.
    destruct (Z.geb_spec attempt (retryAttempts config)); [lia |].
    unfold classify in Hcls.
    destruct (is_client_error e); [discriminate |].
    rewrite IH.
    + cbn [retried]. f_equal. lia.
    + lia.
    + intros j Hj. rewrite network_calls_wait, network_calls_request.
      destruct (Hfail (S j) ltac:(lia)) as (e' & He' & Hcls').
      exists e'. split; [| exact Hcls'].
      simpl. rewrite <- He'. f_equal. f_equal. lia.
Qed.

Lemma waits_backoff_schedule config params m : forall first,
  omap (fun e => match e with Waited ms => Some ms | Requested _ => None end)
       (backoff_schedule config params first m) =
  map (fun k => retryDelay config * 2 ^ (Z.of_nat k - 1))
      (seq (Z.to_nat first) m) \/ first < 0.
Proof.
  induction m as [| m IH]; intros first.
  - left. reflexivity.
  - destruct (Z.ltb_spec first 0) as [Hneg | Hpos]; [right; exact Hneg | left].
    rewrite backoff_schedule_S, omap_app.
    destruct (IH (first + 1)) as [-> | Hneg]; [| lia].
    unfold backoff.
    replace (Z.to_nat (first + 1)) with (S (Z.to_nat first)) by lia.
    cbn [seq map]. rewrite Z2Nat.id by lia. reflexivity.
Qed.

Lemma settle_success code body :
  200 <= code < 300 ->
  settle (Responded code body) = Ok {| status := code; data := body |}.
Proof.
  intros [Hlo Hhi]. unfold settle.
  destruct (Z.leb_spec 200 code); [| lia].
  destruct (Z.ltb_spec code 300); [| lia].
  reflexivity.
Qed.

(** A failure without a response, a 429 and a 5xx are retried; a request
    that could not be set up is retried as well. *)
Lemma retryable_failures :
  (forall request message, classify (AxiosError None request message) = Retryable)
  /\ (forall request message, classify (AxiosError (Some 429) request message) = Retryable)
  /\ (forall st request message,
        500 <= st -> classify (AxiosError (Some st) request message) = Retryable)
  /\ (forall st request message,
        400 <= st < 500 -> st <> 429 ->
        classify (AxiosError (Some st) request message) = NonRetryable).
Proof.
  repeat split; try reflexivity.
  - intros st request message Hst. unfold classify, is_client_error.
    destruct (Z.leb_spec 400 st); [| lia].
    destruct (Z.ltb_spec st 500); [lia | reflexivity].
  - intros st request message [Hlo Hhi] Hne. unfold classify, is_client_error.
    destruct (Z.leb_spec 400 st); [| lia].
    destruct (Z.ltb_spec st 500); [| lia].
    destruct (Z.eqb_spec st 429); [lia | reflexivity].
Qed.

(** Whatever the service does, [retryRequest] makes some number [k] of
    failed attempts, each followed by its wait, and one last attempt, whose
    outcome it returns or throws. *)
Lemma retryRequest_trace config sent (fuel : nat) : forall attempt w,
  (Z.to_nat (retryAttempts config - attempt) <= fuel)%nat ->
  exists k : nat,
    Z.of_nat k <= Z.max 0 (retryAttempts config - attempt)
    /\ retryRequest config (axios_get sent) attempt w =
       (settle (server w (network_calls w + k)%nat sent),
        record_event (Requested sent) (retried config sent attempt k w)).
Proof.
  induction fuel as [| fuel IH]; intros attempt w Hfuel.
  - exists 0%nat. split; [lia |].
    rewrite retryRequest_unfold.
    unfold axios_get.
    replace (network_calls w + 0)%nat with (network_calls w) by lia.
    destruct (settle _) as [r | e]; [reflexivity |].
    destruct (Z.geb_spec attempt (retryAttempts config)); [reflexivity | lia].
  - rewrite retryRequest_unfold. unfold axios_get at 1.
    destruct (settle (server w (network_calls w) sent)) as [r | e] eqn:Hs.
    + exists 0%nat. replace (network_calls w + 0)%nat with (network_calls w) by lia.
           rewrite Hs. split; [lia | reflexivity].
    + destruct (Z.geb_spec attempt (retryAttempts config)) as [Hge | Hlt].
      * exists 0%nat. replace (network_calls w + 0)%nat with (network_calls w) by lia.
           rewrite Hs. split; [lia | reflexivity].
      * destruct (is_client_error e).
        -- exists 0%nat. replace (network_calls w + 0)%nat with (network_calls w) by lia.
           rewrite Hs. split; [lia | reflexivity].
        -- destruct (IH (attempt + 1)
                       (snd (wait (backoff config attempt)
                               (record_event (Requested sent) w))))
             as (k & Hk & Hrun); [lia |].
           exists (S k). split; [lia |].
           rewrite Hrun. cbn [retried].
           rewrite network_calls_wait, network_calls_request.
           replace (S (network_calls w) + k)%nat
             with (network_calls w + S k)%nat by lia.
           reflexivity.
Qed.

Lemma getUsers_trace config params w :
  exists k : nat,
    Z.of_nat k <= Z.max 0 (retryAttempts config - 1)
    /\ getUsers config params w =
       (match settle (server w (network_calls w + k)%nat
                        (spread defaultParams params)) with
        | Ok response => Ok (data response)
        | Throw e => Throw (handleError e)
        end,
        record_event (Requested (spread defaultParams params))
          (retried config (spread defaultParams params) 1 k w)).
Proof.
  destruct (retryRequest_trace config (spread defaultParams params)
              (Z.to_nat (retryAttempts config - 1)) 1 w (Nat.le_refl _))
    as (k & Hk & Hrun).
  exists k. split; [exact Hk |].
  unfold getUsers, try_catch, bind. rewrite Hrun.
  destruct (settle _); reflexivity.
Qed.

(** The world after one more failed attempt and its wait. *)
Lemma retried_snoc config params m : forall attempt w,
  retried config params attempt (S m) w =
  snd (wait (backoff config (attempt + Z.of_nat m))
         (record_event (Requested params) (retried config params attempt m w))).
Proof.
  induction m as [| m IH]; intros attempt w.
  - cbn [retried]. rewrite Z.add_0_r. reflexivity.
  - change (retried config params attempt (S (S m)) w)
      with (retried config params (attempt + 1) (S m)
              (snd (wait (backoff config attempt)
                      (record_event (Requested params) w)))).
    rewrite IH. cbn [retried].
    replace (attempt + 1 + Z.of_nat m) with (attempt + Z.of_nat (S m)) by lia.
    reflexivity.
Qed.

(** A wait lasts as long as its timer is set for, or longer; the timer is
    set for the time asked when that is at most 2^31 - 1 milliseconds. *)
Lemma wait_lasts ms w :
  timer_delay ms <= clock (snd (wait ms w)) - clock w
  /\ (ms <= 2147483647 -> ms <= timer_delay ms).
Proof.
  unfold wait, timer_delay. cbn [snd clock]. split; [lia |].
  intros Hms. destruct (Z.ltb_spec ms 1); cbn [orb]; [lia |].
  destruct (Z.gtb_spec ms 2147483647); lia.
Qed.





(** C8: for every integer count outside [1, 5000], [getMultipleUsers] fails
    with the error of its parameter check before any network call is
    issued: the world is left as it was, so the network-call counter does
    not move (it stays at zero on a fresh world) and nothing is waited for
    or retried. *)
Theorem bulk_fetch_rejects_count_out_of_range_before_any_call
    config count params w :
  count < 1 \/ 5000 < count ->
  getMultipleUsers config count params w =
    (Throw (Error "Count must be between 1 and 5000"), w)
  /\ network_calls (snd (getMultipleUsers config count params w))
     = network_calls w
  /\ (events w = [] ->
      network_calls (snd (getMultipleUsers config count params w)) = 0%nat)
  /\ waits (snd (getMultipleUsers config count params w)) = waits w.
Proof.
  intros Hout.
  assert (Hrun : getMultipleUsers config count params w =
                 (Throw (Error "Count must be between 1 and 5000"), w)).
  { unfold getMultipleUsers.
    destruct (Z.ltb_spec count 1) as [Hlt | Hge]; [reflexivity |].
    destruct (Z.gtb_spec count 5000) as [Hgt | Hle]; [reflexivity | lia]. }
  rewrite Hrun. simpl.
  repeat split.
  intros Hfresh. unfold network_calls. rewrite Hfresh. reflexivity.
Qed.

(** The counts of the error-handling tests that lie on either side of the
    range. *)
Lemma bulk_fetch_rejects_invalid_test_counts :
  (getMultipleUsers Fixtures.testing_client (-1) ∅ (Fixtures.boot Fixtures.healthy) =
     (Throw (Error "Count must be between 1 and 5000"),
      Fixtures.boot Fixtures.healthy)
   /\ network_calls (snd (getMultipleUsers Fixtures.testing_client (-1) ∅
                            (Fixtures.boot Fixtures.healthy)))
      = network_calls (Fixtures.boot Fixtures.healthy)
   /\ (events (Fixtures.boot Fixtures.healthy) = [] ->
       network_calls (snd (getMultipleUsers Fixtures.testing_client (-1) ∅
                             (Fixtures.boot Fixtures.healthy))) = 0%nat)
   /\ waits (snd (getMultipleUsers Fixtures.testing_client (-1) ∅
                    (Fixtures.boot Fixtures.healthy)))
      = waits (Fixtures.boot Fixtures.healthy))
  /\ network_calls (snd (getMultipleUsers Fixtures.testing_client 5001 ∅
                           (Fixtures.boot Fixtures.healthy))) = 0%nat.
Proof.
  split.
  - apply (bulk_fetch_rejects_count_out_of_range_before_any_call
             Fixtures.testing_client (-1) ∅ (Fixtures.boot Fixtures.healthy)).
    left. lia.
  - apply (bulk_fetch_rejects_count_out_of_range_before_any_call
             Fixtures.testing_client 5001 ∅ (Fixtures.boot Fixtures.healthy)).
    + right. lia.
    + reflexivity.
Defined.

(** Inside the range the call goes out, carrying the count. *)
Lemma bulk_fetch_in_range_issues_the_call config count params w :
  1 <= count <= 5000 ->
  getMultipleUsers config count params w =
    getUsers config (<["results" := PNum count]> params) w.
Proof.
  intros [Hlo Hhi]. unfold getMultipleUsers.
  destruct (Z.ltb_spec count 1); [lia |].
  destruct (Z.gtb_spec count 5000); [lia |].
  reflexivity.
Qed.

End ClientProperties.

(** ** The command invoker *)

Section InvokerProperties.
Import JS Observers Commands Expected.

Variable W : Type.
Variable date_now : W -> Z.

Implicit Types (s : InvokerState W) (i : TestCommandInvoker W)
  (env : Env W) (command : TestCommand W).

(** [executeCommand] in one step: the three assignments, then the call. *)
Lemma executeCommand_eq command i env :
  executeCommand command (i, env) =
  (fst (call_execute command env),
   ({| history := (slice0 (history i) (currentIndex i + 1) ++ [command])%list;
       currentIndex := currentIndex i + 1 |},
    snd (call_execute command env))).
Proof.
  unfold executeCommand, bind, assign, modify, in_env; simpl.
  destruct (call_execute command env) as [r env']. reflexivity.
Qed.

Lemma slice0_in_range {A} (l : list A) (c : Z) :
  -1 <= c < Z.of_nat (length l) ->
  slice0 l (c + 1) = take (Z.to_nat (c + 1)) l
  /\ length (slice0 l (c + 1)) = Z.to_nat (c + 1).
Proof.
  intros Hc. unfold slice0.
  destruct (Z.ltb_spec (c + 1) 0); [lia |].
  rewrite Z.min_l by lia. split; [reflexivity |].
  rewrite length_take. lia.
Qed.

Lemma undoLastCommand_eq i env :
  undoLastCommand (i, env) =
  if currentIndex i >=? 0 then
    match index (history i) (currentIndex i) with
    | Some command =>
        match call_undo command env with
        | (Ok _, env') => (Ok tt, (set_currentIndex (currentIndex i - 1) i, env'))
        | (Throw e, env') => (Throw e, (i, env'))
        end
    | None => (Throw (TypeError "Cannot read properties of undefined"), (i, env))
    end
  else (Ok tt, (i, env)).
Proof.
  unfold undoLastCommand, bind, this, gets, assign, modify, in_env, deref; simpl.
  destruct (currentIndex i >=? 0); [| reflexivity].
  destruct (index (history i) (currentIndex i)) as [command |]; simpl;
    [| reflexivity].
  destruct (call_undo command env) as [[[] | e] env']; reflexivity.
Qed.

Lemma redoCommand_eq i env :
  redoCommand (i, env) =
  if currentIndex i <? Z.of_nat (length (history i)) - 1 then
    match index (history i) (currentIndex i + 1) with
    | Some command =>
        (res_map Some (fst (call_execute command env)),
         (set_currentIndex (currentIndex i + 1) i,
          snd (call_execute command env)))
    | None =>
        (Throw (TypeError "Cannot read properties of undefined"),
         (set_currentIndex (currentIndex i + 1) i, env))
    end
  else (Ok None, (i, env)).
Proof.
  unfold redoCommand, bind, this, gets, assign, modify, in_env, deref; simpl.
  destruct (currentIndex i <? Z.of_nat (length (history i)) - 1);
    [| reflexivity].
  cbn.
  destruct (index (history i) (currentIndex i + 1)) as [command |]; cbn;
    [| reflexivity].
  destruct (call_execute command env) as [[r | e] env']; reflexivity.
Qed.

Lemma clearHistory_eq i env :
  clearHistory (i, env) =
  (Ok tt, ({| history := []; currentIndex := -1 |}, env)).
Proof. reflexivity. Qed.

Lemma index_in_range {A} (l : list A) (c : Z) :
  0 <= c < Z.of_nat (length l) ->
  exists x, index l c = Some x /\ l !! Z.to_nat c = Some x.
Proof.
  intros Hc. unfold index.
  destruct (Z.ltb_spec c 0); [lia |].
  destruct (lookup_lt_is_Some_2 l (Z.to_nat c)) as [x Hx]; [lia |].
  exists x. split; exact Hx.
Qed.

(** Each call of a driver keeps the cursor in range. *)
Lemma step_keeps_cursor_in_range (op : Op W) s :
  cursor_in_range (fst s) -> cursor_in_range (fst (step op s)).
Proof.
  destruct s as [i env]. unfold cursor_in_range. simpl fst. intros Hc.
  destruct op as [command | | |]; unfold step.
  - rewrite executeCommand_eq. simpl.
    destruct (slice0_in_range (history i) (currentIndex i) Hc) as [_ Hlen].
    rewrite length_app, Hlen. simpl. lia.
  - rewrite undoLastCommand_eq.
    destruct (Z.geb_spec (currentIndex i) 0) as [Hge | Hlt]; [| exact Hc].
    destruct (index (history i) (currentIndex i)) as [command |]; [| exact Hc].
    destruct (call_undo command env) as [[[] | e] env']; simpl; lia.
  - rewrite redoCommand_eq.
    destruct (Z.ltb_spec (currentIndex i) (Z.of_nat (length (history i)) - 1))
      as [Hlt | Hge]; [| exact Hc].
    destruct (index (history i) (currentIndex i + 1)) as [command |];
      simpl; lia.
  - rewrite clearHistory_eq. simpl. lia.
Qed.

Lemma run_ops_keeps_cursor_in_range (ops : list (Op W)) : forall s,
  cursor_in_range (fst s) -> cursor_in_range (fst (run_ops ops s)).
Proof.
  induction ops as [| op ops IH]; intros s Hs; [exact Hs |].
  simpl. apply IH, step_keeps_cursor_in_range, Hs.
Qed.

(** C5: in every state that a sequence of [executeCommand],
    [undoLastCommand], [redoCommand] and [clearHistory] calls reaches from
    a fresh invoker, the cursor is at least -1 and below the length of the
    history, and it is -1 when the history is empty; each of the calls
    preserves this, whether it returns or throws. *)
Theorem invoker_cursor_stays_in_range :
  (forall (ops : list (Op W)) env,
     let i := fst (run_ops ops (new_TestCommandInvoker, env)) in
     -1 <= currentIndex i < Z.of_nat (length (history i))
     /\ (history i = [] -> currentIndex i = -1))
  /\ (forall (op : Op W) s,
        cursor_in_range (fst s) -> cursor_in_range (fst (step op s))).
Proof.
  split.
  - intros ops env i.
    assert (Hi : cursor_in_range i).
    { apply run_ops_keeps_cursor_in_range. unfold cursor_in_range. simpl. lia. }
    split; [exact Hi |].
    intros Hempty. unfold cursor_in_range in Hi. rewrite Hempty in Hi.
    simpl in Hi. lia.
  - apply step_keeps_cursor_in_range.
Qed.

(** C7: [undoLastCommand] with the cursor at -1 returns without touching
    the invoker or calling anything; [redoCommand] with the cursor on the
    newest entry returns [null] and changes nothing; with the cursor in
    range and below the newest entry, [redoCommand] moves the cursor up by
    one and executes the entry there, returning what that execution
    returns. *)
Theorem undo_at_start_and_redo_at_end_do_nothing :
  (forall s, currentIndex (fst s) = -1 -> undoLastCommand s = (Ok tt, s))
  /\ (forall s,
        currentIndex (fst s) = Z.of_nat (length (history (fst s))) - 1 ->
        redoCommand s = (Ok None, s))
  /\ (forall s,
        -1 <= currentIndex (fst s) < Z.of_nat (length (history (fst s))) - 1 ->
        exists command,
          history (fst s) !! Z.to_nat (currentIndex (fst s) + 1) = Some command
          /\ redoCommand s =
             (res_map Some (fst (call_execute command (snd s))),
              (set_currentIndex (currentIndex (fst s) + 1) (fst s),
               snd (call_execute command (snd s))))).
Proof.
  split; [| split].
  - intros [i env] Hc. simpl in Hc. rewrite undoLastCommand_eq, Hc. reflexivity.
  - intros [i env] Hc. simpl in Hc. rewrite redoCommand_eq.
    destruct (Z.ltb_spec (currentIndex i) (Z.of_nat (length (history i)) - 1));
      [lia | reflexivity].
  - intros [i env] Hc. simpl in *. rewrite redoCommand_eq.
    destruct (Z.ltb_spec (currentIndex i) (Z.of_nat (length (history i)) - 1));
      [| lia].
    destruct (index_in_range (history i) (currentIndex i + 1) ltac:(lia))
      as (command & Hidx & Hlook).
    exists command. rewrite Hidx. split; [exact Hlook | reflexivity].
Qed.


(** C1, as the code has it: after [executeCommand(A)], [executeCommand(B)],
    [undoLastCommand()] returning, and [executeCommand(C)] on a fresh
    invoker, the history is [A, C]: it has length 2, its entry at index 1
    is [C] (the branch of [B] is discarded), and [canRedo()] is false. *)
Theorem execute_after_undo_discards_redo_branch
    (A B C : TestCommand W) env :
  let s1 := snd (executeCommand A (new_TestCommandInvoker, env)) in
  let s2 := snd (executeCommand B s1) in
  forall s3,
    undoLastCommand s2 = (Ok tt, s3) ->
    let i := fst (snd (executeCommand C s3)) in
    getHistory i = [A; C]
    /\ length (getHistory i) = 2%nat
    /\ getHistory i !! 1%nat = Some C
    /\ canRedo i = false.
Proof.
  intros s1 s2 s3 Hundo.
  assert (Hs2 : s2 = ({| history := [A; B]; currentIndex := 1 |}, snd s2)).
  { subst s2 s1. rewrite executeCommand_eq. cbn [snd].
    rewrite executeCommand_eq. reflexivity. }
  rewrite Hs2, undoLastCommand_eq in Hundo.
  change (currentIndex {| history := [A; B]; currentIndex := 1 |} >=? 0)
    with true in Hundo.
  change (index (history {| history := [A; B]; currentIndex := 1 |})
            (currentIndex {| history := [A; B]; currentIndex := 1 |}))
    with (Some B) in Hundo.
  cbv iota in Hundo.
  destruct (call_undo B (snd s2)) as [[[] | e] env3]; [| discriminate].
  injection Hundo as <-.
  rewrite executeCommand_eq.
  repeat split; reflexivity.
Qed.

End InvokerProperties.

(** ** The macro command *)

Section MacroProperties.
Import JS Observers Commands Expected.

Variable W : Type.
Variable date_now : W -> Z.

Implicit Types (m : MacroTestCommand W) (env : Env W)
  (command : TestCommand W) (cs : list (TestCommand W)).

Lemma call_execute_calls command env :
  calls (snd (call_execute command env)) =
  (calls env ++ [Executed command])%list.
Proof.
  unfold call_execute. destruct (execute command (world env)). reflexivity.
Qed.

Lemma call_undo_calls command env :
  calls (snd (call_undo command env)) = (calls env ++ [Undone command])%list.
Proof.
  unfold call_undo. destruct (undo command (world env)). reflexivity.
Qed.

(** The sub-commands that pass are called in list order, and only they. *)
Lemma all_pass_calls cs : forall env env1,
  all_pass cs env = Some env1 ->
  calls env1 = (calls env ++ map Executed cs)%list.
Proof.
  induction cs as [| c cs IH]; intros env env1 Hpass; simpl in Hpass.
  - injection Hpass as <-. simpl. symmetry. apply app_nil_r.
  - pose proof (call_execute_calls c env) as Hc.
    destruct (call_execute c env) as [[r | e] env']; [| discriminate].
    destruct (is_failed (status r)); [discriminate |].
    rewrite (IH _ _ Hpass). simpl in Hc. rewrite Hc.
    rewrite <- app_assoc. reflexivity.
Qed.

(** The loop of [execute] walks over the sub-commands that pass. *)
Lemma execute_loop_skips_passing m startTime cs : forall rest env env1,
  all_pass cs env = Some env1 ->
  execute_loop date_now m startTime (cs ++ rest) env =
  execute_loop date_now m startTime rest env1.
Proof.
  induction cs as [| c cs IH]; intros rest env env1 Hpass; simpl in Hpass.
  - injection Hpass as <-. reflexivity.
  - simpl. unfold bind at 1.
    destruct (call_execute c env) as [[r | e] env']; [| discriminate].
    destruct (is_failed (status r)); [discriminate |].
    apply IH, Hpass.
Qed.

Lemma undo_loop_S m n env c :
  commands m !! n = Some c ->
  undo_loop m (S n) env =
  match call_undo c env with
  | (Ok _, env1) => undo_loop m n env1
  | (Throw e, env1) => (Throw e, env1)
  end.
Proof.
  intros Hc. cbn [undo_loop]. unfold bind. rewrite Hc. simpl.
  destruct (call_undo c env) as [[[] | e] env1]; reflexivity.
Qed.

(** The loop of [undo] entered at [n] undoes the sub-commands below [n],
    the last of them first. *)
Lemma undo_loop_undo_each m : forall n env,
  (n <= length (commands m))%nat ->
  undo_loop m n env = undo_each (rev (take n (commands m))) env.
Proof.
  induction n as [| n IH]; intros env Hn.
  - reflexivity.
  - destruct (lookup_lt_is_Some_2 (commands m) n) as [c Hc]; [lia |].
    assert (Hrev : rev (take (S n) (commands m)) = c :: rev (take n (commands m))).
    { rewrite (take_S_r _ _ _ Hc), rev_app_distr. reflexivity. }
    rewrite Hrev, (undo_loop_S _ _ _ _ Hc). cbn [undo_each].
    unfold call_undo.
    destruct (undo c (world env)) as [[[] | e] w1]; [| reflexivity].
    apply IH. lia.
Qed.

Lemma undo_each_calls cs : forall env,
  (exists k,
     calls (snd (undo_each cs env)) =
     (calls env ++ map Undone (take k cs))%list)
  /\ (fst (undo_each cs env) = Ok tt ->
      calls (snd (undo_each cs env)) = (calls env ++ map Undone cs)%list)
  /\ ((forall c w, c ∈ cs -> fst (undo c w) = Ok tt) ->
      fst (undo_each cs env) = Ok tt).
Proof.
  induction cs as [| c cs IH]; intros env.
  - simpl. repeat split.
    + exists 0%nat. simpl. symmetry. apply app_nil_r.
    + intros _. symmetry. apply app_nil_r.
  - cbn [undo_each].
    destruct (undo c (world env)) as [[[] | e] w1] eqn:Hc.
    + destruct (IH {| calls := (calls env ++ [Undone c])%list; world := w1 |})
        as (Hprefix & Hall & Htotal).
      cbn [calls] in Hprefix, Hall.
      split; [| split].
      * destruct Hprefix as [k Hk]. exists (S k).
        rewrite Hk. simpl. rewrite <- app_assoc. reflexivity.
      * intros Hok. rewrite (Hall Hok). simpl.
        rewrite <- app_assoc. reflexivity.
      * intros Hnothrow. apply Htotal.
        intros c' w Hc'. apply Hnothrow. right. exact Hc'.
    + split; [| split].
      * exists 1%nat. cbn [take map snd calls]. rewrite take_0. reflexivity.
      * discriminate.
      * intros Hnothrow.
        specialize (Hnothrow c (world env) ltac:(left)).
        rewrite Hc in Hnothrow. discriminate.
Qed.

Lemma undo_each_app xs ys : forall env env1,
  undo_each xs env = (Ok tt, env1) ->
  undo_each (xs ++ ys) env = undo_each ys env1.
Proof.
  induction xs as [| c xs IH]; intros env env1 Hxs.
  - simpl in Hxs. injection Hxs as <-. reflexivity.
  - cbn [undo_each app] in *.
    destruct (undo c (world env)) as [[[] | e] w1]; [| discriminate].
    apply IH, Hxs.
Qed.

(** C4: [execute] runs the sub-commands in list order; when the
    sub-commands before [c] pass and [c] returns a result with status
    [failed], [execute] returns a failed result whose error names [c] and
    quotes its error, and no later sub-command is executed.  [undo] invokes
    the undo of the sub-commands from the last to the first, each on the
    world that the one before left and whatever the executions returned,
    until one of these undos rejects: it invokes them all when it returns,
    which it does when none of them rejects; when the undo of [c] rejects
    after those of the sub-commands behind [c] returned, [undo] rejects
    with the same value and the undo of no sub-command before [c] is
    invoked. *)
Theorem macro_stops_at_first_failure_and_undoes_in_reverse :
  (forall m pre c post env env1 r env2,
     commands m = (pre ++ c :: post)%list ->
     all_pass pre env = Some env1 ->
     call_execute c env1 = (Ok r, env2) ->
     status r = failed ->
     MacroTestCommand_execute date_now m env =
       (Ok {| testName := name m;
              status := failed;
              duration := date_now (world env2) - date_now (world env);
              error := Some ("Command " ++ getCommandName c ++ " failed: "
                             ++ error_text r);
              timestamp := date_now (world env2) |},
        env2)
     /\ calls env2 = (calls env ++ map Executed (pre ++ [c]))%list)
  /\ (forall m env,
        MacroTestCommand_undo m env = undo_each (rev (commands m)) env
        /\ (exists k,
              calls (snd (MacroTestCommand_undo m env)) =
              (calls env ++ map Undone (take k (rev (commands m))))%list)
        /\ (fst (MacroTestCommand_undo m env) = Ok tt ->
            undoes_all_in_reverse m env)
        /\ ((forall c w, c ∈ commands m -> fst (undo c w) = Ok tt) ->
            fst (MacroTestCommand_undo m env) = Ok tt))
  /\ (forall m pre c post env env1 e w2,
        commands m = (pre ++ c :: post)%list ->
        undo_each (rev post) env = (Ok tt, env1) ->
        undo c (world env1) = (Throw e, w2) ->
        MacroTestCommand_undo m env =
          (Throw e,
           {| calls := (calls env ++ map Undone (rev post ++ [c]))%list;
              world := w2 |})).
Proof.
  assert (Hloop : forall m env,
            MacroTestCommand_undo m env = undo_each (rev (commands m)) env).
  { intros m env. unfold MacroTestCommand_undo.
    rewrite (undo_loop_undo_each m _ env (Nat.le_refl _)), firstn_all.
    reflexivity. }
  split; [| split].
  - intros m pre c post env env1 r env2 Hcs Hpass Hc Hfailed.
    split.
    + unfold MacroTestCommand_execute, try_catch, bind at 1, now at 1, gets.
      unfold bind at 1.
      rewrite Hcs, (execute_loop_skips_passing _ _ _ _ _ _ Hpass).
      simpl. unfold bind at 1. rewrite Hc, Hfailed. reflexivity.
    + rewrite map_app, app_assoc, <- (all_pass_calls _ _ _ Hpass).
      pose proof (call_execute_calls c env1) as Hcalls.
      rewrite Hc in Hcalls. exact Hcalls.
  - intros m env. unfold undoes_all_in_reverse. rewrite Hloop.
    destruct (undo_each_calls (rev (commands m)) env)
      as (Hprefix & Hall & Htotal).
    split; [reflexivity |]. split; [exact Hprefix |].
    split; [exact Hall |].
    intros Hnothrow. apply Htotal. intros c w Hc.
    apply Hnothrow. apply list_elem_of_In, in_rev, list_elem_of_In, Hc.
  - intros m pre c post env env1 e w2 Hcs Hpost Hc.
    rewrite Hloop, Hcs, rev_app_distr. cbn [rev].
    rewrite <- app_assoc, (undo_each_app _ _ _ _ Hpost).
    cbn [app undo_each]. rewrite Hc.
    destruct (undo_each_calls (rev post) env) as (_ & Hall & _).
    rewrite Hpost in Hall. cbn [fst snd] in Hall.
    rewrite (Hall eq_refl), map_app, app_assoc. reflexivity.
Qed.

(** When every sub-command passes, the macro command passes. *)
Lemma macro_passes_when_all_pass m env env1 :
  all_pass (commands m) env = Some env1 ->
  MacroTestCommand_execute date_now m env =
    (Ok {| testName := name m;
           status := passed;
           duration := date_now (world env1) - date_now (world env);
           error := None;
           timestamp := date_now (world env1) |},
     env1).
Proof.
  intros Hpass.
  unfold MacroTestCommand_execute, try_catch, bind at 1, now at 1, gets.
  unfold bind at 1.
  rewrite <- (app_nil_r (commands m)),
    (execute_loop_skips_passing _ _ _ _ _ _ Hpass).
  reflexivity.
Qed.

(** A throw from a sub-command is caught: the macro command reports its
    message. *)
Lemma macro_catches_throwing_subcommand m pre c post env env1 e env2 :
  commands m = (pre ++ c :: post)%list ->
  all_pass pre env = Some env1 ->
  call_execute c env1 = (Throw e, env2) ->
  MacroTestCommand_execute date_now m env =
    (match message e with
     | Ok text =>
         Ok {| testName := name m;
               status := failed;
               duration := date_now (world env2) - date_now (world env);
               error := text;
               timestamp := date_now (world env2) |}
     | Throw e' => Throw e'
     end,
     env2).
Proof.
  intros Hcs Hpass Hc.
  unfold MacroTestCommand_execute, try_catch, bind at 1, now at 1, gets.
  unfold bind at 1.
  rewrite Hcs, (execute_loop_skips_passing _ _ _ _ _ _ Hpass).
  simpl. unfold bind at 1. rewrite Hc.
  unfold bind, now, gets, lift. destruct (message e); reflexivity.
Qed.

(** Without sub-commands nothing is called and nothing changes. *)
Lemma macro_without_commands m env :
  commands m = [] ->
  MacroTestCommand_execute date_now m env =
    (Ok {| testName := name m;
           status := passed;
           duration := 0;
           error := None;
           timestamp := date_now (world env) |},
     env)
  /\ MacroTestCommand_undo m env = (Ok tt, env).
Proof.
  intros Hm. split.
  - unfold MacroTestCommand_execute, try_catch, bind, now, gets.
    rewrite Hm. simpl. rewrite Z.sub_diag. reflexivity.
  - unfold MacroTestCommand_undo. rewrite Hm. reflexivity.
Qed.

(** C10: a macro command constructed with no sub-commands, from the default
    of the constructor or from an empty array, and with no [addCommand]
    call, returns from [execute] a result with status [passed] and no
    error, and its [undo] calls nothing and changes nothing. *)
Theorem empty_macro_passes_and_undo_is_noop :
  forall (name description : string) env,
    (MacroTestCommand_execute date_now
       (new_MacroTestCommand name description None) env =
       (Ok {| testName := name;
              status := passed;
              duration := 0;
              error := None;
              timestamp := date_now (world env) |},
        env)
     /\ MacroTestCommand_undo (new_MacroTestCommand name description None) env
        = (Ok tt, env))
    /\ (MacroTestCommand_execute date_now
          (new_MacroTestCommand name description (Some [])) env =
          (Ok {| testName := name;
                 status := passed;
                 duration := 0;
                 error := None;
                 timestamp := date_now (world env) |},
           env)
        /\ MacroTestCommand_undo
             (new_MacroTestCommand name description (Some [])) env
           = (Ok tt, env)).
Proof.
  intros name description env.
  split; apply macro_without_commands; reflexivity.
Qed.

End MacroProperties.

(** ** The notifier *)

Section NotifierProperties.
Import JS Observers Expected.

Variable W : Type.

Implicit Types (this : TestResultNotifier W) (observer : TestObserver W)
  (env : Env W) (n : Notification).

Lemma invoke_delivered observer n env :
  delivered (snd (invoke observer n env)) =
  (delivered env ++ [{| receiver := observer; notification := n |}])%list.
Proof.
  unfold invoke. destruct (handler observer n (world env)). reflexivity.
Qed.

Lemma invoke_result observer n env :
  fst (invoke observer n env) = fst (handler observer n (world env)).
Proof.
  unfold invoke. destruct (handler observer n (world env)). reflexivity.
Qed.

(** One fan-out over an array of observers: the handlers are invoked in
    array order until one throws; all of them are when the fan-out
    returns, and it returns when no handler throws. *)
Lemma fan_out_deliveries n (l : list (TestObserver W)) : forall env,
  (exists k,
     delivered (snd (forEach l (fun observer => invoke observer n) env)) =
     (delivered env ++ deliveries (take k l) n)%list)
  /\ (fst (forEach l (fun observer => invoke observer n) env) = Ok tt ->
      delivered (snd (forEach l (fun observer => invoke observer n) env)) =
      (delivered env ++ deliveries l n)%list)
  /\ ((forall observer w, observer ∈ l -> fst (handler observer n w) = Ok tt) ->
      fst (forEach l (fun observer => invoke observer n) env) = Ok tt).
Proof.
  induction l as [| o l IH]; intros env.
  - simpl. repeat split.
    + exists 0%nat. symmetry. apply app_nil_r.
    + intros _. symmetry. apply app_nil_r.
  - cbn [forEach]. unfold bind.
    pose proof (invoke_delivered o n env) as Hdel.
    pose proof (invoke_result o n env) as Hres.
    destruct (invoke o n env) as [[[] | e] env1]; simpl in Hdel, Hres.
    + destruct (IH env1) as (Hprefix & Hall & Htotal).
      split; [| split].
      * destruct Hprefix as [k Hk]. exists (S k).
        rewrite Hk, Hdel. unfold deliveries. cbn [take map].
        rewrite <- app_assoc. reflexivity.
      * intros Hok. rewrite (Hall Hok), Hdel. unfold deliveries. cbn [map].
        rewrite <- app_assoc. reflexivity.
      * intros Hnothrow. apply Htotal. intros observer w Hin.
        apply Hnothrow. right. exact Hin.
    + split; [| split].
      * exists 1%nat. unfold deliveries. cbn [take map]. rewrite take_0.
        exact Hdel.
      * discriminate.
      * intros Hnothrow.
        rewrite (Hnothrow o (world env)) in Hres; [discriminate | left].
Qed.


End NotifierProperties.

(** ** The composite validation strategy *)

Section CompositeProperties.
Import JS Strategies Expected.

Variable Data : Type.

Implicit Types (strategy : ValidationStrategy Data)
  (results : list ValidationResult) (data : Data).

(** The loop over sub-strategies that all return: every one is called, in
    order, and the accumulators collect the errors of the invalid results. *)
Lemma validate_loop_returns data (l : list (ValidationStrategy Data)) :
  forall results allErrors allValid log,
    Forall2 (fun s r => validate s data = Ok r) l results ->
    validate_loop l data allErrors allValid log =
    (Ok ((allErrors ++ errors_of_invalid results)%list,
         allValid && forallb isValid results),
     (log ++ l)%list).
Proof.
  induction l as [| s l IH]; intros results allErrors allValid log Hres.
  - apply Forall2_nil_inv_l in Hres. subst results. simpl.
    unfold ret. rewrite !app_nil_r, andb_true_r. reflexivity.
  - apply Forall2_cons_inv_l in Hres as (r & results' & Hs & Hrest & ->).
    cbn [validate_loop]. unfold bind, call_validate. rewrite Hs.
    unfold errors_of_invalid. cbn [flat_map forallb].
    destruct (isValid r); cbn [negb].
    + rewrite (IH _ _ _ _ Hrest). unfold errors_of_invalid. simpl.
      rewrite <- app_assoc. reflexivity.
    + rewrite (IH _ _ _ _ Hrest). unfold errors_of_invalid. simpl.
      rewrite andb_false_r, <- !app_assoc. reflexivity.
Qed.

(** A sub-strategy that throws ends the composite with its exception; the
    strategies after it are not called. *)
Lemma validate_loop_throws data (pre : list (ValidationStrategy Data)) :
  forall results s post e allErrors allValid log,
    Forall2 (fun s r => validate s data = Ok r) pre results ->
    validate s data = Throw e ->
    validate_loop (pre ++ s :: post) data allErrors allValid log =
    (Throw e, (log ++ pre ++ [s])%list).
Proof.
  induction pre as [| p pre IH];
    intros results s post e allErrors allValid log Hres Hs.
  - cbn [app validate_loop]. unfold bind, call_validate. rewrite Hs.
    reflexivity.
  - apply Forall2_cons_inv_l in Hres as (r & results' & Hp & Hrest & ->).
    cbn [validate_loop app]. unfold bind, call_validate. rewrite Hp.
    destruct (negb (isValid r));
      rewrite (IH _ _ _ _ _ _ _ Hrest Hs), <- app_assoc; reflexivity.
Qed.

Lemma errors_of_invalid_all results :
  (forall r, In r results -> isValid r = true -> errors r = []) ->
  errors_of_invalid results = all_errors results.
Proof.
  unfold errors_of_invalid, all_errors.
  induction results as [| r results IH]; intros Hclean; [reflexivity |].
  cbn [flat_map]. rewrite IH by (intros r' Hr'; apply Hclean; right; exact Hr').
  destruct (isValid r) eqn:Hv; [| reflexivity].
  rewrite (Hclean r (or_introl eq_refl) Hv). reflexivity.
Qed.

(** C3, as the code has it: on a datum for which every sub-strategy
    returns a result, the composite calls every sub-strategy once, in list
    order, without short-circuit; its [isValid] is true exactly when every
    sub-result is valid; its [errors] is the concatenation, in sub-strategy
    order, of the error lists of the sub-results that are not valid, which
    is the concatenation of all the error lists when the valid sub-results
    carry none. *)
Theorem composite_aggregates_errors_of_invalid_results
    (l : list (ValidationStrategy Data)) results data log :
  Forall2 (fun s r => validate s data = Ok r) l results ->
  composite_validate {| strategies := l |} data log =
    (Ok {| isValid := forallb isValid results;
           errors := errors_of_invalid results;
           field := Some "composite" |},
     (log ++ l)%list)
  /\ (forallb isValid results = true
      <-> Forall (fun r => isValid r = true) results)
  /\ ((forall r, In r results -> isValid r = true -> errors r = []) ->
      errors_of_invalid results = all_errors results).
Proof.
  intros Hres. split; [| split].
  - unfold composite_validate, bind. cbn [strategies].
    rewrite (validate_loop_returns _ _ _ [] true log Hres). reflexivity.
  - rewrite forallb_forall, List.Forall_forall. reflexivity.
  - apply errors_of_invalid_all.
Qed.

End CompositeProperties.

(** The field-format strategies report errors only on a datum they
    reject. *)
Lemma format_strategy_valid_has_no_errors check prefix fieldName strategyName
    datum r :
  Strategies.validate
    (Strategies.format_strategy check prefix fieldName strategyName) datum
    = JS.Ok r ->
  Strategies.isValid r = true ->
  Strategies.errors r = [].
Proof.
  simpl. intros Hr Hvalid. injection Hr as <-. simpl in *.
  rewrite Hvalid. reflexivity.
Qed.

(** ** The metrics observer *)

Section MetricsProperties.
Import JS Observers Expected.

Lemma metrics_after_snoc received result :
  metrics_after (received ++ [result]) =
  metrics_onTestComplete result (metrics_after received).
Proof. unfold metrics_after. rewrite fold_left_app. reflexivity. Qed.

Lemma sum_durations_snoc received result :
  sum_durations (received ++ [result]) =
  sum_durations received + duration result.
Proof.
  unfold sum_durations. induction received as [| r received IH]; simpl.
  - lia.
  - rewrite IH. lia.
Qed.

Lemma count_status_snoc st received result :
  count_status st (received ++ [result]) =
  count_status st received + count_status st [result].
Proof.
  unfold count_status. rewrite List.filter_app, length_app. lia.
Qed.

(** The running counts and the cumulative duration are exact. *)
Lemma metrics_totals received :
  let m := metrics_after received in
  totalTests m = Z.of_nat (length received)
  /\ passedTests m = count_status passed received
  /\ failedTests m = count_status failed received
  /\ skippedTests m = count_status skipped received
  /\ totalTests m = passedTests m + failedTests m + skippedTests m
  /\ totalDuration m = sum_durations received.
Proof.
  induction received as [| result received IH] using rev_ind.
  - repeat split.
  - rewrite metrics_after_snoc.
    destruct IH as (Hn & Hpassed & Hfailed & Hskipped & Hsum & Hdur).
    cbn zeta. unfold metrics_onTestComplete. cbn [totalTests passedTests
      failedTests skippedTests totalDuration].
    rewrite length_app, sum_durations_snoc, !count_status_snoc.
    simpl length. unfold count_status at 2 4 6. simpl.
    destruct (status result); simpl; repeat split; lia.
Qed.

(** The fastest test is a received result of minimal duration. *)
Lemma metrics_fastest received :
  received <> [] ->
  let m := metrics_after received in
  holds_a_received_result (fastestTest m) received
  /\ forall r d, In r received ->
       named_duration (fastestTest m) = Finite d -> d <= duration r.
Proof.
  induction received as [| result received IH] using rev_ind;
    [congruence |].
  intros _. cbn zeta. rewrite metrics_after_snoc.
  unfold metrics_onTestComplete. cbn [fastestTest].
  destruct received as [| r0 received0] eqn:Hrec.
  - simpl. split.
    + exists result. simpl. auto.
    + intros r d [<- | []] Hd. injection Hd as <-. lia.
  - rewrite <- Hrec in *.
    destruct IH as [Hheld Hmin]; [rewrite Hrec; discriminate |].
    destruct Hheld as (r & Hr & Hname & Hd).
    rewrite Hd. cbn [lt_num].
    destruct (Z.ltb_spec (duration result) (duration r)) as [Hlt | Hge].
    + split.
      * exists result. cbn. split; [apply in_app_iff; right; left |]; auto.
      * intros r' d Hin Heq. injection Heq as <-.
        apply in_app_iff in Hin as [Hin | [<- | []]]; [| lia].
        specialize (Hmin r' (duration r) Hin Hd). lia.
    + split.
      * exists r. split; [apply in_app_iff; left; exact Hr | auto].
      * intros r' d Hin Heq. rewrite Hd in Heq. injection Heq as <-.
        apply in_app_iff in Hin as [Hin | [<- | []]]; [| lia].
        apply (Hmin r' (duration r) Hin Hd).
Qed.

(** The slowest test is a received result of maximal duration once a
    result with a positive duration has been received. *)
Lemma metrics_slowest received :
  (exists r, In r received /\ 0 < duration r) ->
  let m := metrics_after received in
  holds_a_received_result (slowestTest m) received
  /\ forall r d, In r received ->
       named_duration (slowestTest m) = Finite d -> duration r <= d.
Proof.
  cbn zeta.
  assert (Hgen :
    (forall r d, In r received ->
       named_duration (slowestTest (metrics_after received)) = Finite d ->
       duration r <= d)
    /\ exists d, named_duration (slowestTest (metrics_after received)) = Finite d
         /\ (0 < d ->
             holds_a_received_result (slowestTest (metrics_after received))
               received)).
  { induction received as [| result received IH] using rev_ind.
    - split; [intros r d [] |].
      exists 0. split; [reflexivity | lia].
    - rewrite metrics_after_snoc. destruct IH as (Hmax & d0 & Hd0 & Hheld).
      unfold metrics_onTestComplete. cbn [slowestTest].
      rewrite Hd0. cbn [gt_num].
      destruct (Z.gtb_spec (duration result) d0) as [Hgt | Hle].
      + cbn [named_duration]. split.
        * intros r d Hin Heq. injection Heq as <-.
          apply in_app_iff in Hin as [Hin | [<- | []]]; [| lia].
          specialize (Hmax r d0 Hin Hd0). lia.
        * exists (duration result). split; [reflexivity |].
          intros _. exists result.
          split; [apply in_app_iff; right; left |]; auto.
      + split.
        * intros r d Hin Heq. rewrite Hd0 in Heq. injection Heq as <-.
          apply in_app_iff in Hin as [Hin | [<- | []]]; [| lia].
          apply (Hmax r d0 Hin Hd0).
        * exists d0. split; [exact Hd0 |].
          intros Hpos. destruct (Hheld Hpos) as (r' & Hr' & Hname & Hd).
          exists r'. split; [apply in_app_iff; left; exact Hr' | auto]. }
  intros (r & Hin & Hr). destruct Hgen as (Hmax & d0 & Hd0 & Hheld).
  split; [| exact Hmax].
  apply Hheld. specialize (Hmax r d0 Hin Hd0). lia.
Qed.

(** C9 at a result of duration 0: the counts, the cumulative duration, the
    average and the fastest test are as claimed, but the slowest test stays
    at its initial value, whose name is not the name of the result
    received. *)
Theorem metrics_slowest_ignores_zero_duration_result :
  let received := [Fixtures.instant_result] in
  let m := metrics_after received in
  totalTests m = passedTests m + failedTests m + skippedTests m
  /\ totalDuration m = sum_durations received
  /\ averageDuration m = (inject_Z (totalDuration m) / inject_Z (totalTests m))%Q
  /\ holds_a_received_result (fastestTest m) received
  /\ slowestTest m = {| name := ""; named_duration := Finite 0 |}
  /\ ~ holds_a_received_result (slowestTest m) received.
Proof.
  cbn zeta. repeat split.
  - exists Fixtures.instant_result. repeat split. left. reflexivity.
  - intros (r & [<- | []] & Hname & _). discriminate Hname.
Qed.

End MetricsProperties.

(** ** Runs on the test doubles *)

Import JS Expected Fixtures.

(** A call whose result is known returns it together with the state it
    reaches. *)
Lemma pair_of_fst {A B : Type} (x : A * B) (a : A) :
  fst x = a -> x = (a, snd x).
Proof. intros <-. destruct x. reflexivity. Qed.

Lemma all_pass_cons_passing {W : Type} (c : Commands.TestCommand W)
    (rest : list (Commands.TestCommand W)) (env : Commands.Env W) r :
  fst (Commands.call_execute c env) = Ok r ->
  Observers.is_failed (Observers.status r) = false ->
  all_pass (c :: rest) env = all_pass rest (snd (Commands.call_execute c env)).
Proof.
  intros Hr Hpass. simpl.
  destruct (Commands.call_execute c env) as [r' env']. simpl in Hr.
  subst r'. rewrite Hpass. reflexivity.
Qed.

(** On a healthy service, executing one fetch, then another, undoing it and
    executing a third leaves two entries in the history. *)
Lemma execute_after_undo_on_healthy_service :
  let s2 := snd (Commands.executeCommand fetch_two
             (snd (Commands.executeCommand fetch_one
                (Commands.new_TestCommandInvoker, start_env healthy)))) in
  let s3 := snd (Commands.undoLastCommand s2) in
  let i := fst (snd (Commands.executeCommand fetch_five s3)) in
  Commands.undoLastCommand s2 = (Ok tt, s3)
  /\ Commands.getHistory i = [fetch_one; fetch_five]
  /\ length (Commands.getHistory i) = 2%nat
  /\ Commands.getHistory i !! 1%nat = Some fetch_five
  /\ Commands.canRedo i = false.
Proof.
  cbv zeta.
  assert (Hundo :
    Commands.undoLastCommand
      (snd (Commands.executeCommand fetch_two
         (snd (Commands.executeCommand fetch_one
            (Commands.new_TestCommandInvoker, start_env healthy))))) =
    (Ok tt,
     snd (Commands.undoLastCommand
       (snd (Commands.executeCommand fetch_two
          (snd (Commands.executeCommand fetch_one
             (Commands.new_TestCommandInvoker, start_env healthy)))))))).
  { apply pair_of_fst. vm_compute. reflexivity. }
  split; [exact Hundo |].
  exact (execute_after_undo_discards_redo_branch Client.World
           fetch_one fetch_two fetch_five (start_env healthy) _ Hundo).
Defined.

(** C1 as the specification states it fails on that run: the history does
    not have three entries. *)
Lemma history_after_undo_then_execute_is_not_three :
  let i := fst (Commands.run_ops
                  [Commands.OpExecute fetch_one; Commands.OpExecute fetch_two;
                   Commands.OpUndo; Commands.OpExecute fetch_five]
                  (Commands.new_TestCommandInvoker, start_env healthy)) in
  ~ (length (Commands.getHistory i) = 3%nat
     /\ Commands.getHistory i !! 1%nat = Some fetch_five
     /\ Commands.canRedo i = false).
Proof.
  cbv zeta. intros [Hlen _]. vm_compute in Hlen. discriminate Hlen.
Qed.

(** One executed command keeps the cursor of a fresh invoker in range. *)
Lemma cursor_in_range_after_first_execution :
  cursor_in_range (fst (Commands.new_TestCommandInvoker (W := Client.World),
                        start_env healthy))
  /\ cursor_in_range
       (fst (Commands.step (Commands.OpExecute fetch_one)
               (Commands.new_TestCommandInvoker, start_env healthy))).
Proof.
  assert (Hfresh :
    cursor_in_range (fst (Commands.new_TestCommandInvoker (W := Client.World),
                          start_env healthy))).
  { unfold cursor_in_range. simpl. lia. }
  split; [exact Hfresh |].
  exact (proj2 (invoker_cursor_stays_in_range Client.World)
           (Commands.OpExecute fetch_one)
           (Commands.new_TestCommandInvoker, start_env healthy) Hfresh).
Defined.

(** Undo on a fresh invoker, redo after one execution, and redo after an
    undo. *)
Lemma undo_and_redo_at_the_ends_of_a_history :
  let fresh := (Commands.new_TestCommandInvoker, start_env healthy) in
  let once := Commands.run_ops [Commands.OpExecute fetch_one] fresh in
  let undone := Commands.run_ops
                  [Commands.OpExecute fetch_one; Commands.OpExecute fetch_two;
                   Commands.OpUndo] fresh in
  Commands.undoLastCommand fresh = (Ok tt, fresh)
  /\ Commands.redoCommand once = (Ok None, once)
  /\ exists command,
       Commands.history (fst undone)
         !! Z.to_nat (Commands.currentIndex (fst undone) + 1) = Some command
       /\ Commands.redoCommand undone =
          (res_map Some (fst (Commands.call_execute command (snd undone))),
           (Commands.set_currentIndex
              (Commands.currentIndex (fst undone) + 1) (fst undone),
            snd (Commands.call_execute command (snd undone)))).
Proof.
  intros fresh once undone.
  destruct (undo_at_start_and_redo_at_end_do_nothing Client.World)
    as (Hundo & Hnewest & Hredo).
  split; [| split].
  - apply (Hundo fresh). reflexivity.
  - apply (Hnewest once). vm_compute. reflexivity.
  - apply (Hredo undone). vm_compute. split; [discriminate | reflexivity].
Defined.

(** A macro command whose second sub-command is rejected by the count check
    of the client: the third is not executed, and one network call was
    made.  Its undo then invokes the undo of the three, last first, and the
    service receives the request of the third before that of the first.
    With a second sub-command whose undo rejects, the undo of the first is
    not invoked. *)
Lemma macro_reports_rejected_count_and_undoes_all :
  let m := Commands.new_MacroTestCommand "Smoke" "Fetches in a row"
             (Some [reverting "a"; fetch_none; reverting "c"]) in
  let ran := Commands.MacroTestCommand_execute Commands.client_now m
               (start_env healthy) in
  let undone := Commands.MacroTestCommand_undo m (snd ran) in
  let stuck := Commands.new_MacroTestCommand "Stuck" "Fetches in a row"
                 (Some [reverting "a"; stubborn; reverting "c"]) in
  (fst ran =
     Ok {| Observers.testName := "Smoke";
           Observers.status := Observers.failed;
           Observers.duration := 0;
           Observers.error :=
             Some "Command FetchMultipleUsers(0) failed: Count must be between 1 and 5000";
           Observers.timestamp := 0 |}
   /\ Commands.calls (snd ran) =
      [Commands.Executed (reverting "a"); Commands.Executed fetch_none]
   /\ Client.network_calls (Commands.world (snd ran)) = 1%nat)
  /\ (fst undone = Ok tt
      /\ Commands.calls (snd undone) =
         (Commands.calls (snd ran)
            ++ [Commands.Undone (reverting "c"); Commands.Undone fetch_none;
                Commands.Undone (reverting "a")])%list
      /\ Client.events (Commands.world (snd undone)) =
         (Client.events (Commands.world (snd ran))
            ++ [Client.Requested {[ "seed" := Client.PStr "c" ]};
                Client.Requested {[ "seed" := Client.PStr "a" ]}])%list)
  /\ Commands.MacroTestCommand_undo stuck (start_env healthy) =
     (Throw (Error "cannot undo"),
      {| Commands.calls :=
           [Commands.Undone (reverting "c"); Commands.Undone stubborn];
         Commands.world :=
           Client.record_event
             (Client.Requested {[ "seed" := Client.PStr "c" ]})
             (boot healthy) |}).
Proof.
  intros m ran undone stuck.
  pose (env1 := snd (Commands.call_execute (reverting "a") (start_env healthy))).
  pose (env2 := snd (Commands.call_execute fetch_none env1)).
  pose (r := {| Observers.testName := "FetchMultipleUsers(0)";
                Observers.status := Observers.failed;
                Observers.duration := 0;
                Observers.error := Some "Count must be between 1 and 5000";
                Observers.timestamp := 0 |}).
  destruct (macro_stops_at_first_failure_and_undoes_in_reverse
              Client.World Commands.client_now) as (Hexecute & Hundo & Hstop).
  split; [| split].
  - destruct (Hexecute m [reverting "a"] fetch_none [reverting "c"]
                (start_env healthy) env1 r env2) as [Hrun Hcalls].
    + reflexivity.
    + rewrite (all_pass_cons_passing (reverting "a") [] (start_env healthy)
                 {| Observers.testName := "FetchSingleUser";
                    Observers.status := Observers.passed;
                    Observers.duration := 0;
                    Observers.error := None;
                    Observers.timestamp := 0 |}).
      * reflexivity.
      * vm_compute. reflexivity.
      * reflexivity.
    + apply pair_of_fst. vm_compute. reflexivity.
    + reflexivity.
    + subst ran. rewrite Hrun. cbn [fst snd]. split; [| split].
      * vm_compute. reflexivity.
      * rewrite Hcalls. reflexivity.
      * vm_compute. reflexivity.
  - destruct (Hundo m (snd ran)) as (Heach & _ & Hall & _).
    assert (Hok : fst undone = Ok tt).
    { subst undone. rewrite Heach. vm_compute. reflexivity. }
    split; [exact Hok |]. split; [exact (Hall Hok) |].
    subst undone. rewrite Heach. vm_compute. reflexivity.
  - apply (Hstop stuck [reverting "a"] stubborn [reverting "c"]
             (start_env healthy)
             {| Commands.calls := [Commands.Undone (reverting "c")];
                Commands.world :=
                  Client.record_event
                    (Client.Requested {[ "seed" := Client.PStr "c" ]})
                    (boot healthy) |}
             (Error "cannot undo")).
    + reflexivity.
    + reflexivity.
    + reflexivity.
Defined.

(** C4 as the specification words it, on a macro command whose second
    sub-command has an undo that rejects: the undo of the macro command
    rejects after the undos of the third and the second, and the undo of
    the first is never invoked. *)
Lemma macro_undo_stops_at_throwing_undo :
  let m := Commands.new_MacroTestCommand "Stuck" "Fetches in a row"
             (Some [reverting "a"; stubborn; reverting "c"]) in
  fst (Commands.MacroTestCommand_undo m (start_env healthy))
    = Throw (Error "cannot undo")
  /\ Commands.calls (snd (Commands.MacroTestCommand_undo m (start_env healthy))) =
     [Commands.Undone (reverting "c"); Commands.Undone stubborn]
  /\ Client.events
       (Commands.world (snd (Commands.MacroTestCommand_undo m (start_env healthy))))
     = [Client.Requested {[ "seed" := Client.PStr "c" ]}]
  /\ ~ undoes_all_in_reverse m (start_env healthy).
Proof.
  cbv zeta. split; [reflexivity |].
  split; [reflexivity |].
  split; [vm_compute; reflexivity |].
  intros Hall. apply (f_equal (@length _)) in Hall.
  vm_compute in Hall. discriminate Hall.
Qed.


(** A handler that throws ends the fan-out: the observers subscribed after
    it are not notified, and the notify call throws. *)
Lemma faulty_observer_cuts_the_fan_out :
  let this := Observers.addObserver
                (Observers.addObserver Observers.new_TestResultNotifier
                   (faulty 1))
                (recorder 2 "second") in
  let env := {| Observers.delivered := []; Observers.world := [] |} in
  fst (Observers.notifyTestComplete this demo_result env)
    = Throw (Error "observer failed")
  /\ Observers.delivered (snd (Observers.notifyTestComplete this demo_result env)) =
     [{| Observers.receiver := faulty 1;
         Observers.notification := Observers.TestComplete demo_result |}].
Proof. split; reflexivity. Qed.

(** C3 as the specification states it fails for a sub-strategy that
    accepts the datum and reports a remark: the remark is not among the
    errors of the composite. *)
Lemma composite_drops_errors_of_valid_results :
  ~ aggregates_all_errors [remarking "Remark" ["note"]] "datum".
Proof.
  intros Hclaim.
  destruct (Hclaim [{| Strategies.isValid := true;
                       Strategies.errors := ["note"];
                       Strategies.field := None |}])
    as (r & log & Hrun & _ & Herrors).
  - repeat constructor.
  - vm_compute in Hrun. injection Hrun as <- _.
    vm_compute in Herrors. discriminate Herrors.
Qed.

(** A composite of a strategy that accepts and one that rejects with the
    error ["x"]. *)
Lemma composite_of_accepting_and_rejecting :
  Strategies.composite_validate
    {| Strategies.strategies := [accepting "A"; rejecting "B" ["x"]] |}
    "datum" [] =
    (Ok {| Strategies.isValid := false;
           Strategies.errors := ["x"];
           Strategies.field := Some "composite" |},
     [accepting "A"; rejecting "B" ["x"]]).
Proof.
  refine (proj1 (composite_aggregates_errors_of_invalid_results string
           [accepting "A"; rejecting "B" ["x"]]
           [{| Strategies.isValid := true;
               Strategies.errors := [];
               Strategies.field := None |};
            {| Strategies.isValid := false;
               Strategies.errors := ["x"];
               Strategies.field := None |}]
           "datum" [] _)).
  repeat constructor.
Defined.

(** A sub-strategy that throws ends the composite: the strategy after it
    is not called. *)
Lemma composite_stops_at_throwing_strategy :
  Strategies.composite_validate
    {| Strategies.strategies := [accepting "A"; brittle "B"; rejecting "C" ["x"]] |}
    "datum" [] =
    (Throw (TypeError "Cannot read properties of null"),
     [accepting "A"; brittle "B"]).
Proof. reflexivity. Qed.


(** * Further properties *)

(** ** The client: the shape of every call *)

(** The body of [Client.retryRequest] on the request of [getUsers], under
    a name of its own. *)
Lemma retryRequest_body config params attempt w :
  Client.retryRequest config (Client.axios_get params) attempt w =
  match Client.axios_get params w with
  | (Ok response, w1) => (Ok response, w1)
  | (Throw error, w1) =>
      if attempt >=? Client.retryAttempts config then (Throw error, w1)
      else if Client.is_client_error error then (Throw error, w1)
      else Client.retryRequest config (Client.axios_get params) (attempt + 1)
             (snd (Client.wait (Client.backoff config attempt) w1))
  end.
Proof. apply retryRequest_unfold. Qed.

Section ClientTraces.
Import JS Client Expected.

(** X1: with a maximum number of attempts [n] that is a whole number and
    at least 1, whatever the service answers, one [getUsers] call makes
    [k + 1] requests for some [k] below [n]; every request carries the same
    merged parameters, each of the first [k] is followed by a call of
    [wait], the delays asked are [d], [2d], [4d], ... in that order, and
    nothing else is recorded. *)
Theorem every_call_is_attempts_separated_by_doubling_waits config params w :
  1 <= retryAttempts config ->
  exists k : nat,
    Z.of_nat k < retryAttempts config
    /\ events (snd (getUsers config params w)) =
       (events w
          ++ backoff_schedule config (spread defaultParams params) 1 k
          ++ [Requested (spread defaultParams params)])%list
    /\ network_calls (snd (getUsers config params w))
       = (network_calls w + k + 1)%nat
    /\ waits (snd (getUsers config params w)) =
       (waits w
          ++ map (fun i => retryDelay config * 2 ^ (Z.of_nat i - 1))
                 (seq 1 k))%list.
Proof.
  intros Hn.
  destruct (getUsers_trace config params w) as (k & Hk & Hrun).
  exists k. rewrite Hrun. cbn [snd]. split; [lia |]. split; [| split].
  - unfold record_event. cbn [events]. rewrite retried_events.
    rewrite <- app_assoc. reflexivity.
  - rewrite network_calls_request, retried_network_calls. lia.
  - rewrite waits_request. unfold waits. rewrite retried_events, omap_app.
    destruct (waits_backoff_schedule config (spread defaultParams params) k 1)
      as [-> | Hneg]; [reflexivity | lia].
Qed.

Lemma sum_doubling (d : Z) (k : nat) :
  fold_right Z.add 0 (map (fun j => d * 2 ^ (Z.of_nat j)) (seq 0 k))
  = d * (2 ^ Z.of_nat k - 1).
Proof.
  induction k as [| k IH].
  - simpl. lia.
  - rewrite seq_S, map_app, fold_right_app. cbn [map fold_right Nat.add].
    assert (Hshift : forall (l : list Z) (a : Z),
              fold_right Z.add a l = a + fold_right Z.add 0 l).
    { induction l as [| x l IHl]; intros a; simpl; [lia |].
      rewrite IHl. lia. }
    rewrite Hshift, IH.
    rewrite Nat2Z.inj_succ, Z.pow_succ_r by lia. lia.
Qed.

(** The waits of [k] failed attempts last, taken together, the delays
    asked or longer, when each delay is within the range of the timer. *)
Lemma retried_lasts config params k : forall attempt w,
  (forall i, (i < k)%nat ->
     backoff config (attempt + Z.of_nat i) <= 2147483647) ->
  fold_right Z.add 0
    (map (fun i => backoff config (attempt + Z.of_nat i)) (seq 0 k))
  <= clock (retried config params attempt k w) - clock w.
Proof.
  induction k as [| k IH]; intros attempt w Hrange.
  - simpl. lia.
  - cbn [retried seq map fold_right].
    pose proof (wait_lasts (backoff config attempt)
                  (record_event (Requested params) w)) as [Hlast Hset].
    specialize (Hset ltac:(rewrite <- (Z.add_0_r attempt);
                           apply (Hrange 0%nat); lia)).
    specialize (IH (attempt + 1)
                  (snd (wait (backoff config attempt)
                          (record_event (Requested params) w)))
                  ltac:(intros i Hi;
                        replace (attempt + 1 + Z.of_nat i)
                          with (attempt + Z.of_nat (S i)) by lia;
                        apply Hrange; lia)).
    rewrite <- seq_shift, map_map.
    rewrite (map_ext _ (fun i => backoff config (attempt + 1 + Z.of_nat i)))
      by (intros i; f_equal; lia).
    rewrite Z.add_0_r.
    unfold record_event in Hlast at 2. cbn [clock] in Hlast. lia.
Qed.

(** X2: with a base delay [d >= 0] and [n >= 1] attempts allowed, a
    [getUsers] call that makes [k + 1] requests calls [wait] [k] times; the
    delays it asks come to [d * (2^k - 1)] milliseconds in all, which is at
    most [d * (2^(n-1) - 1)]; when each delay asked is at most 2^31 - 1
    milliseconds, the call lasts at least as long as the delays asked
    taken together.  How much longer it lasts is up to the timers and to
    the service. *)
Theorem backoff_asked_is_bounded_and_waited_out config params w :
  0 <= retryDelay config ->
  1 <= retryAttempts config ->
  exists (k : nat) (added : list Z),
    network_calls (snd (getUsers config params w))
      = (network_calls w + k + 1)%nat
    /\ waits (snd (getUsers config params w)) = (waits w ++ added)%list
    /\ length added = k
    /\ fold_right Z.add 0 added = retryDelay config * (2 ^ Z.of_nat k - 1)
    /\ fold_right Z.add 0 added
       <= retryDelay config * (2 ^ (retryAttempts config - 1) - 1)
    /\ ((forall ms, In ms added -> ms <= 2147483647) ->
        fold_right Z.add 0 added
        <= clock (snd (getUsers config params w)) - clock w).
Proof.
  intros Hd Hn.
  destruct (getUsers_trace config params w) as (k & Hk & Hrun).
  exists k, (map (fun i => retryDelay config * 2 ^ (Z.of_nat i - 1)) (seq 1 k)).
  rewrite Hrun. cbn [snd].
  assert (Hsum :
    fold_right Z.add 0
      (map (fun i => retryDelay config * 2 ^ (Z.of_nat i - 1)) (seq 1 k))
    = retryDelay config * (2 ^ Z.of_nat k - 1)).
  { rewrite <- (sum_doubling (retryDelay config) k).
    rewrite <- seq_shift, map_map. f_equal. apply map_ext. intros j.
    do 2 f_equal. lia. }
  assert (Hasked :
    map (fun i => retryDelay config * 2 ^ (Z.of_nat i - 1)) (seq 1 k)
    = map (fun i => backoff config (1 + Z.of_nat i)) (seq 0 k)).
  { rewrite <- seq_shift, map_map. apply map_ext. intros j.
    unfold backoff. do 2 f_equal. lia. }
  split; [| split; [| split; [| split; [| split]]]].
  - rewrite network_calls_request, retried_network_calls. lia.
  - rewrite waits_request. unfold waits. rewrite retried_events, omap_app.
    destruct (waits_backoff_schedule config (spread defaultParams params) k 1)
      as [-> | Hneg]; [reflexivity | lia].
  - rewrite length_map, length_seq. reflexivity.
  - exact Hsum.
  - rewrite Hsum. apply Z.mul_le_mono_nonneg_l; [exact Hd |].
    apply Z.sub_le_mono_r. apply Z.pow_le_mono_r; lia.
  - intros Hrange. rewrite Hasked in *.
    unfold record_event. cbn [clock].
    apply retried_lasts. intros i Hi. apply Hrange.
    apply in_map_iff. exists i. split; [reflexivity |].
    apply List.in_seq. lia.
Qed.

(** X3: when every allowed attempt fails in a retryable way, [getUsers]
    makes exactly [n] requests and [n - 1] waits and then throws the error
    made from the failure of the last attempt. *)
Theorem exhausted_retries_rethrow_the_last_failure config params w
    (errs : nat -> Thrown) :
  1 <= retryAttempts config ->
  (forall j, Z.of_nat j < retryAttempts config ->
     settle (server w (network_calls w + j)%nat (spread defaultParams params))
       = Throw (errs j)
     /\ classify (errs j) = Retryable) ->
  let n := Z.to_nat (retryAttempts config) in
  fst (getUsers config params w) = Throw (handleError (errs (n - 1)%nat))
  /\ network_calls (snd (getUsers config params w)) = (network_calls w + n)%nat
  /\ length (waits (snd (getUsers config params w)))
     = (length (waits w) + (n - 1))%nat.
Proof.
  intros Hn Hfail n.
  set (sent := spread defaultParams params) in *.
  assert (Hrun : retryRequest config (axios_get sent) 1 w =
                 (Throw (errs (n - 1)%nat),
                  record_event (Requested sent)
                    (retried config sent 1 (n - 1) w))).
  { rewrite (retryRequest_retries config sent (n - 1) 1 w).
    - rewrite retryRequest_body. unfold axios_get.
      rewrite retried_server, retried_network_calls.
      destruct (Hfail (n - 1)%nat ltac:(lia)) as [-> _].
      destruct (Z.geb_spec (1 + Z.of_nat (n - 1)) (retryAttempts config));
        [reflexivity | lia].
    - lia.
    - intros j Hj. exists (errs j). apply Hfail. lia. }
  assert (Hget : getUsers config params w =
                 (Throw (handleError (errs (n - 1)%nat)),
                  record_event (Requested sent)
                    (retried config sent 1 (n - 1) w))).
  { unfold getUsers, try_catch, bind. fold sent. rewrite Hrun. reflexivity. }
  rewrite Hget. cbn [fst snd]. split; [reflexivity |]. split.
  - rewrite network_calls_request, retried_network_calls. lia.
  - rewrite waits_request. unfold waits. rewrite retried_events, omap_app.
    destruct (waits_backoff_schedule config sent (n - 1) 1) as [-> | Hneg];
      [| lia].
    rewrite length_app, length_map, length_seq. reflexivity.
Qed.

Lemma string_app_assoc (a b c : string) :
  ((a ++ b) ++ c)%string = (a ++ b ++ c)%string.
Proof.
  induction a as [| x a IH]; [reflexivity |].
  change (String x ((a ++ b) ++ c)%string = String x (a ++ b ++ c)%string).
  f_equal. exact IH.
Qed.

Lemma handleError_of_axios response request msg :
  exists text,
    handleError (AxiosError response request msg) = Error text
    /\ (text = "No response from server - Network error or timeout"
        \/ (exists st rest,
              response = Some st
              /\ text = ("API request failed with status " ++ pretty st
                         ++ ": " ++ rest)%string)
        \/ (exists rest, text = ("Request configuration error: " ++ rest)%string)).
Proof.
  destruct response as [st |].
  - unfold handleError.
    assert (Hform : forall tail,
      exists text,
        Error (("API request failed with status " ++ pretty st) ++ ": " ++ tail)
          = Error text
        /\ exists rest,
             text = ("API request failed with status " ++ pretty st
                     ++ ": " ++ rest)%string).
    { intros tail. eexists. split; [reflexivity |]. exists tail.
      apply string_app_assoc. }
    destruct (st =? 400);
      [destruct (Hform "Bad Request - Invalid parameters") as (t & Ht & r & Hr);
       exists t; split; [exact Ht | right; left; exists st, r; auto] |].
    destruct (st =? 404);
      [destruct (Hform "Not Found - Invalid endpoint") as (t & Ht & r & Hr);
       exists t; split; [exact Ht | right; left; exists st, r; auto] |].
    destruct (st =? 429);
      [destruct (Hform "Too Many Requests - Rate limit exceeded")
         as (t & Ht & r & Hr);
       exists t; split; [exact Ht | right; left; exists st, r; auto] |].
    destruct (st =? 500);
      [destruct (Hform "Internal Server Error") as (t & Ht & r & Hr);
       exists t; split; [exact Ht | right; left; exists st, r; auto] |].
    destruct (st =? 503);
      [destruct (Hform "Service Unavailable") as (t & Ht & r & Hr);
       exists t; split; [exact Ht | right; left; exists st, r; auto] |].
    destruct (Hform msg) as (t & Ht & r & Hr).
    exists t. split; [exact Ht | right; left; exists st, r; auto].
  - destruct request; simpl.
    + eexists. split; [reflexivity | left; reflexivity].
    + eexists. split; [reflexivity | right; right; eexists; reflexivity].
Qed.

Lemma settle_throws_axios_errors o e :
  settle o = Throw e ->
  exists response request msg, e = AxiosError response request msg.
Proof.
  destruct o as [code body | reason | reason]; simpl.
  - destruct ((200 <=? code) && (code <? 300)); [discriminate |].
    intros H. injection H as <-. eauto.
  - intros H. injection H as <-. eauto.
  - intros H. injection H as <-. eauto.
Qed.

(** What [getUsers] throws comes from [handleError] on a failure of the
    transport: it is an [Error] with a message. *)
Lemma getUsers_throws_an_error config params w e w' :
  getUsers config params w = (Throw e, w') ->
  exists text, e = Error text.
Proof.
  destruct (getUsers_trace config params w) as (k & _ & Hrun).
  rewrite Hrun.
  destruct (settle _) as [r | e0] eqn:Hs; [discriminate |].
  intros H. injection H as <- _.
  destruct (settle_throws_axios_errors _ _ Hs) as (response & request & msg & ->).
  destruct (handleError_of_axios response request msg) as (text & Htext & _).
  exists text. exact Htext.
Qed.

(** X4: whatever [getUsers] throws is a plain [Error], never the error of
    the transport: its message is the no-response text, or starts with
    ["API request failed with status <status>: "], or starts with
    ["Request configuration error: "]. *)
Theorem getUsers_throws_only_described_errors config params w e :
  fst (getUsers config params w) = Throw e ->
  exists text,
    e = Error text
    /\ (text = "No response from server - Network error or timeout"
        \/ (exists (st : Z) rest,
              text = ("API request failed with status " ++ pretty st
                      ++ ": " ++ rest)%string)
        \/ (exists rest, text = ("Request configuration error: " ++ rest)%string)).
Proof.
  destruct (getUsers_trace config params w) as (k & _ & Hrun).
  rewrite Hrun. cbn [fst].
  destruct (settle _) as [r | e0] eqn:Hs; [discriminate |].
  intros H. injection H as <-.
  destruct (settle_throws_axios_errors _ _ Hs) as (response & request & msg & ->).
  destruct (handleError_of_axios response request msg)
    as (text & Htext & Hform).
  exists text. split; [exact Htext |].
  destruct Hform as [H | [(st & rest & _ & H) | H]]; eauto.
Qed.

End ClientTraces.


(** ** The client: the parameter checks *)

Section ClientChecks.
Import JS Client Expected.

Lemma getUsers_ends_with_a_request config params w :
  exists before,
    events (snd (getUsers config params w)) =
    (before ++ [Requested (spread defaultParams params)])%list
    /\ (network_calls w < network_calls (snd (getUsers config params w)))%nat.
Proof.
  destruct (getUsers_trace config params w) as (k & _ & Hrun).
  rewrite Hrun. cbn [snd].
  exists (events (retried config (spread defaultParams params) 1 k w)).
  split; [reflexivity |].
  rewrite network_calls_request, retried_network_calls. lia.
Qed.

(** X5: the count is checked by [getMultipleUsers] only: the fetches by
    gender and by seed go to the network with any count at all, also one
    outside [1, 5000], and the request carries that count. *)
Theorem fetches_by_gender_and_seed_send_any_count config (text : string)
    (count : Z) w :
  (exists before sent,
     events (snd (getUsersByGender config text count w)) =
       (before ++ [Requested sent])%list
     /\ sent !! "results" = Some (PNum count)
     /\ sent !! "gender" = Some (PStr text)
     /\ sent !! "format" = Some (PStr "json")
     /\ (network_calls w
         < network_calls (snd (getUsersByGender config text count w)))%nat)
  /\ (exists before sent,
        events (snd (getUsersWithSeed config text count w)) =
          (before ++ [Requested sent])%list
        /\ sent !! "results" = Some (PNum count)
        /\ sent !! "seed" = Some (PStr text)
        /\ sent !! "format" = Some (PStr "json")
        /\ (network_calls w
            < network_calls (snd (getUsersWithSeed config text count w)))%nat).
Proof.
  split.
  - unfold getUsersByGender.
    destruct (getUsers_ends_with_a_request config
                {[ "gender" := PStr text; "results" := PNum count ]} w)
      as (before & Hev & Hcalls).
    exists before, (spread defaultParams
                      {[ "gender" := PStr text; "results" := PNum count ]}).
    repeat split; try assumption; reflexivity.
  - unfold getUsersWithSeed.
    destruct (getUsers_ends_with_a_request config
                {[ "seed" := PStr text; "results" := PNum count ]} w)
      as (before & Hev & Hcalls).
    exists before, (spread defaultParams
                      {[ "seed" := PStr text; "results" := PNum count ]}).
    repeat split; try assumption; reflexivity.
Qed.

Lemma invalidFields_spec fields f :
  In f (invalidFields fields) <-> In f fields /\ ~ f ∈ availableFields.
Proof.
  unfold invalidFields, includes. rewrite filter_In.
  rewrite negb_true_iff, bool_decide_eq_false. reflexivity.
Qed.

Lemma invalidFields_nil fields :
  invalidFields fields = [] <-> Forall (fun f => f ∈ availableFields) fields.
Proof.
  unfold invalidFields, includes. induction fields as [| f fields IH]; simpl.
  - split; [constructor | reflexivity].
  - destruct (bool_decide_reflect (f ∈ availableFields)) as [Hin | Hout]; simpl.
    + rewrite IH. split.
      * intros H. constructor; assumption.
      * intros H. inversion H. assumption.
    + split; [discriminate |]. intros H. inversion H. contradiction.
Qed.

(** X6: [getUsersWithFields] and [getUsersWithoutFields] reject a list that
    holds a name outside the twelve attribute names (matched exactly, so
    also a known name in another letter case) before any network call; the
    error lists the rejected names, in the order given, separated by
    [", "].  A list of known names only, also the empty list, goes out as
    [inc] (or [exc]) joined by [","], with the count as given. *)
Theorem field_lists_are_checked_before_the_call config fields count w :
  (forall f, In f (invalidFields fields)
             <-> In f fields /\ ~ f ∈ availableFields)
  /\ (~ Forall (fun f => f ∈ availableFields) fields ->
      getUsersWithFields config fields count w =
        (Throw (Error ("Invalid fields: "
                       ++ array_join ", " (invalidFields fields))), w)
      /\ getUsersWithoutFields config fields count w =
        (Throw (Error ("Invalid fields: "
                       ++ array_join ", " (invalidFields fields))), w))
  /\ (Forall (fun f => f ∈ availableFields) fields ->
      getUsersWithFields config fields count w =
        getUsers config
          {[ "inc" := PStr (array_join "," fields); "results" := PNum count ]} w
      /\ getUsersWithoutFields config fields count w =
        getUsers config
          {[ "exc" := PStr (array_join "," fields); "results" := PNum count ]} w).
Proof.
  split; [apply invalidFields_spec |].
  unfold getUsersWithFields, getUsersWithoutFields.
  split.
  - intros Hbad.
    destruct (invalidFields fields) as [| f rest] eqn:Hinv.
    + exfalso. apply Hbad, invalidFields_nil, Hinv.
    + rewrite <- Hinv.
      replace (Z.of_nat (length (invalidFields fields)) >? 0) with true.
      * split; reflexivity.
      * rewrite Hinv. reflexivity.
  - intros Hgood. apply invalidFields_nil in Hgood. rewrite Hgood.
    split; reflexivity.
Qed.

(** X7: [getUsersByNationality] decides on the upper-cased code: an input
    whose upper case is not one of the twenty codes is rejected before any
    network call, the error quoting the input as given; otherwise the
    request carries the upper-cased code and the count as given.  Two
    inputs with the same upper case are treated alike. *)
Theorem nationality_is_checked_and_sent_in_upper_case
    (toUpperCase : string -> string) config nationality count w :
  (~ toUpperCase nationality ∈ supportedNationalities ->
   getUsersByNationality toUpperCase config nationality count w =
     (Throw (Error ("Unsupported nationality: " ++ nationality)), w))
  /\ (toUpperCase nationality ∈ supportedNationalities ->
      getUsersByNationality toUpperCase config nationality count w =
        getUsers config
          {[ "nat" := PStr (toUpperCase nationality); "results" := PNum count ]}
          w
      /\ forall other,
           toUpperCase other = toUpperCase nationality ->
           getUsersByNationality toUpperCase config other count w =
           getUsersByNationality toUpperCase config nationality count w).
Proof.
  unfold getUsersByNationality, includes. split.
  - intros Hout. rewrite bool_decide_eq_false_2 by exact Hout. reflexivity.
  - intros Hin. rewrite bool_decide_eq_true_2 by exact Hin.
    split; [reflexivity |].
    intros other Hsame. rewrite Hsame.
    rewrite bool_decide_eq_true_2 by exact Hin. reflexivity.
Qed.

End ClientChecks.


(** ** The client builder *)

Section BuilderProperties.
Import JS.

Lemma or_else_zero (a : option Z) (b : Z) : or_else a b = 0 -> b = 0.
Proof.
  unfold or_else. destruct a as [v |]; [| auto].
  destruct (Z.eqb_spec v 0); [auto | intros; contradiction].
Qed.

(** X8: a built client has a non-zero time-out, number of attempts and
    delay and a non-empty base URL whenever the defaults have: an entry of
    0 (or an empty URL) given to the builder is replaced by the default, so
    [withRetries(0)] does not switch retries off; and [withRetries] called
    without a delay sets the delay to 1000, whatever delay was set
    before. *)
Theorem built_client_falls_back_on_zero_entries defaults b :
  let c := fst (Builder.build defaults b) in
  (Client.timeout defaults <> 0 -> Client.timeout c <> 0)
  /\ (Client.retryAttempts defaults <> 0 -> Client.retryAttempts c <> 0)
  /\ (Client.retryDelay defaults <> 0 -> Client.retryDelay c <> 0)
  /\ (Client.baseUrl defaults <> "" -> Client.baseUrl c <> "")
  /\ (forall delay,
        Client.retryAttempts
          (fst (Builder.build defaults (Builder.withRetries 0 delay b)))
        = Client.retryAttempts defaults)
  /\ (forall attempts,
        Client.retryDelay
          (fst (Builder.build defaults (Builder.withRetries attempts None b)))
        = 1000).
Proof.
  cbn zeta. unfold Builder.build, Client.new_client. cbn [fst
    Client.timeout Client.retryAttempts Client.retryDelay Client.baseUrl
    Client.opt_timeout Client.opt_retryAttempts Client.opt_retryDelay
    Client.opt_baseUrl].
  repeat split; try (intros Hd Hc; apply or_else_zero in Hc; contradiction).
  intros Hd Hc. destruct (Builder.baseUrl b) as [u |]; [| contradiction].
  destruct (String.eqb_spec u ""); contradiction.
Qed.

(** The production preset with every numeric entry set to zero: the client
    gets the defaults. *)
Lemma zeroed_production_preset_gets_the_defaults :
  let b := Builder.withRetries 0 (Some 0)
             (Builder.withTimeout 0 Builder.forProduction) in
  let c := fst (Builder.build Client.defaultConfig b) in
  Client.timeout c <> 0
  /\ Client.retryAttempts c <> 0
  /\ Client.retryDelay c <> 0
  /\ Client.baseUrl c <> "".
Proof.
  intros b c.
  destruct (built_client_falls_back_on_zero_entries Client.defaultConfig b)
    as (Ht & Ha & Hd & Hu & _).
  repeat split.
  - apply Ht. discriminate.
  - apply Ha. discriminate.
  - apply Hd. discriminate.
  - apply Hu. discriminate.
Defined.

End BuilderProperties.


(** ** The commands over the client *)

Section ClientCommandProperties.
Import JS Observers Commands Expected.

Ltac settle_report :=
  eexists; eexists; (split; [reflexivity |]); cbn;
  repeat split; eauto.

Lemma getMultipleUsers_throws_an_error client count params w e w' :
  Client.getMultipleUsers client count params w = (Throw e, w') ->
  exists text, e = Error text.
Proof.
  unfold Client.getMultipleUsers.
  destruct ((count <? 1) || (count >? 5000)).
  - intros H. injection H as <- _. eexists. reflexivity.
  - apply getUsers_throws_an_error.
Qed.

(** X9: the execution of a fetch command never throws, whatever the
    service does: it returns a result named after the command, with the
    elapsed time, that is [passed] without an error or [failed] with one.
    A performance command does the same when its operation returns; when
    the operation throws a value whose [message] can be read, it returns a
    [failed] result with that message, which is absent when the value has
    none; when the operation throws [null] or [undefined], reading the
    message throws and [execute] throws that [TypeError].  The undo of
    these commands does nothing. *)
Theorem client_commands_capture_failures_as_results client w :
  reports_pass_or_failure (FetchSingleUserCommand client) w
  /\ (forall count,
        reports_pass_or_failure (FetchMultipleUsersCommand client count) w)
  /\ (forall gender count,
        reports_pass_or_failure
          (FetchUsersByGenderCommand client gender count) w)
  /\ (forall operation operationName maxDuration,
        let c := PerformanceTestCommand operation operationName maxDuration in
        (forall result w',
           operation w = (Ok result, w') -> reports_pass_or_failure c w)
        /\ (forall e w' text,
              operation w = (Throw e, w') ->
              message e = Ok text ->
              execute c w =
                (Ok {| testName := getCommandName c;
                       status := failed;
                       duration := Client.clock w' - Client.clock w;
                       error := text;
                       timestamp := Client.clock w' |}, w'))
        /\ (forall e w',
              operation w = (Throw e, w') ->
              thrown_nullish e = true ->
              exists text, execute c w = (Throw (TypeError text), w')))
  /\ (forall count gender n operation operationName maxDuration,
        undo (FetchSingleUserCommand client) w = (Ok tt, w)
        /\ undo (FetchMultipleUsersCommand client count) w = (Ok tt, w)
        /\ undo (FetchUsersByGenderCommand client gender n) w = (Ok tt, w)
        /\ undo (PerformanceTestCommand operation operationName maxDuration) w
           = (Ok tt, w)).
Proof.
  unfold reports_pass_or_failure.
  split; [| split; [| split; [| split]]].
  - cbn [execute getCommandName FetchSingleUserCommand].
    unfold bind, try_catch, gets, createTestResult.
    destruct (Client.getSingleUser client ∅ w) as [[result | e] w'] eqn:Hrun.
    + destruct (Z.of_nat (length (Client.results result)) =? 1); settle_report.
    + destruct (getUsers_throws_an_error _ _ _ _ _ Hrun) as [text ->].
      settle_report.
  - intros count. cbn [execute getCommandName FetchMultipleUsersCommand].
    unfold bind, try_catch, gets, createTestResult.
    destruct (Client.getMultipleUsers client count ∅ w) as [[result | e] w']
      eqn:Hrun.
    + destruct (Z.of_nat (length (Client.results result)) =? count);
        settle_report.
    + destruct (getMultipleUsers_throws_an_error _ _ _ _ _ _ Hrun)
        as [text ->].
      settle_report.
  - intros gender count.
    cbn [execute getCommandName FetchUsersByGenderCommand].
    unfold bind, try_catch, gets, createTestResult.
    destruct (Client.getUsersByGender client gender (default 1 count) w)
      as [[result | e] w'] eqn:Hrun.
    + destruct ((Z.of_nat (length (Client.results result)) =? default 1 count)
                && forallb (fun user => String.eqb (Client.gender user) gender)
                     (Client.results result)); settle_report.
    + destruct (getUsers_throws_an_error _ _ _ _ _ Hrun) as [text ->].
      settle_report.
  - intros operation operationName maxDuration. cbv zeta.
    cbn [execute getCommandName PerformanceTestCommand].
    unfold bind, try_catch, gets, createTestResult.
    split; [| split].
    + intros result w' Hrun. rewrite Hrun.
      destruct (client_now w' - client_now w <=? default 5000 maxDuration);
        settle_report.
    + intros e w' text Hrun Htext. rewrite Hrun.
      unfold lift. rewrite Htext. reflexivity.
    + intros e w' Hrun Hnull. rewrite Hrun. unfold lift.
      destruct e; try discriminate Hnull; eexists; reflexivity.
  - intros. repeat split.
Qed.

(** X10: a bulk-fetch command with a whole number outside [1, 5000] for
    count returns a failed result with the message of the count check and
    leaves the world as it was, so that no network call is made; with a
    count in range and a service that answers the first request with a 2xx
    response, it passes exactly when the response holds [count] records,
    and otherwise reports how many it got. *)
Theorem bulk_fetch_command_judges_the_count client count w :
  (count < 1 \/ 5000 < count ->
   exists r,
     execute (FetchMultipleUsersCommand client count) w = (Ok r, w)
     /\ status r = failed
     /\ error r = Some "Count must be between 1 and 5000")
  /\ (forall code body,
        1 <= count <= 5000 ->
        Client.server w (Client.network_calls w)
          (Client.spread Client.defaultParams
             (<["results" := Client.PNum count]> ∅))
          = Client.Responded code body ->
        200 <= code < 300 ->
        exists r w',
          execute (FetchMultipleUsersCommand client count) w = (Ok r, w')
          /\ Client.network_calls w' = S (Client.network_calls w)
          /\ (status r = passed
              <-> Z.of_nat (length (Client.results body)) = count)
          /\ (status r = failed ->
              error r = Some ("Expected " ++ pretty count ++ " users, got "
                              ++ pretty (Z.of_nat (length (Client.results body)))))).
Proof.
  split.
  - intros Hout.
    cbn [execute FetchMultipleUsersCommand].
    unfold bind, try_catch, gets, createTestResult.
    assert (Hrun : Client.getMultipleUsers client count ∅ w =
                   (Throw (Error "Count must be between 1 and 5000"), w)).
    { unfold Client.getMultipleUsers.
      destruct (Z.ltb_spec count 1); [reflexivity |].
      destruct (Z.gtb_spec count 5000); [reflexivity | lia]. }
    rewrite Hrun. eexists. split; [reflexivity |]. split; reflexivity.
  - intros code body Hin Hserver Hcode.
    assert (Hrun : Client.getMultipleUsers client count ∅ w =
                   (Ok body,
                    Client.record_event
                      (Client.Requested
                         (Client.spread Client.defaultParams
                            (<["results" := Client.PNum count]> ∅))) w)).
    { rewrite bulk_fetch_in_range_issues_the_call by exact Hin.
      unfold Client.getUsers, try_catch, bind.
      rewrite retryRequest_body. unfold Client.axios_get.
      rewrite Hserver, settle_success by exact Hcode. reflexivity. }
    cbn [execute FetchMultipleUsersCommand].
    unfold bind, try_catch, gets, createTestResult. rewrite Hrun.
    destruct (Z.eqb_spec (Z.of_nat (length (Client.results body))) count)
      as [Heq | Hne]; eexists; eexists; (split; [reflexivity |]); cbn.
    + split; [apply network_calls_request |].
      split; [tauto | discriminate].
    + split; [apply network_calls_request |].
      split; [| reflexivity]. split; [discriminate | contradiction].
Qed.

End ClientCommandProperties.

Section CommandVerdicts.
Import JS Observers Commands Expected.


End CommandVerdicts.


(** ** The invoker: how calls compose *)

Section InvokerCompositions.
Import JS Observers Commands Expected.

Variable W : Type.

Implicit Types (s : InvokerState W) (i : TestCommandInvoker W)
  (env : Env W) (command : TestCommand W) (cs : list (TestCommand W)).

Lemma slice0_at_newest {A} (l : list A) :
  slice0 l (Z.of_nat (length l) - 1 + 1) = l.
Proof.
  unfold slice0.
  destruct (Z.ltb_spec (Z.of_nat (length l) - 1 + 1) 0); [lia |].
  rewrite Z.min_l by lia.
  replace (Z.to_nat (Z.of_nat (length l) - 1 + 1)) with (length l) by lia.
  apply firstn_all.
Qed.

Lemma run_ops_cons (op : Op W) ops s :
  run_ops (op :: ops) s = run_ops ops (step op s).
Proof. reflexivity. Qed.

Lemma run_ops_app (ops1 ops2 : list (Op W)) s :
  run_ops (ops1 ++ ops2) s = run_ops ops2 (run_ops ops1 s).
Proof. unfold run_ops. apply fold_left_app. Qed.

(** Executing commands one after the other with the cursor on the newest
    entry appends them to the history. *)
Lemma run_executions_from_newest cs : forall i env,
  currentIndex i = Z.of_nat (length (history i)) - 1 ->
  let s' := run_ops (map OpExecute cs) (i, env) in
  history (fst s') = (history i ++ cs)%list
  /\ currentIndex (fst s') = Z.of_nat (length (history i ++ cs)) - 1
  /\ calls (snd s') = (calls env ++ map Executed cs)%list.
Proof.
  induction cs as [| c cs IH]; intros i env Hc.
  - cbn. rewrite !app_nil_r. auto.
  - cbn [map]. cbv zeta. rewrite run_ops_cons. cbn [step].
    rewrite executeCommand_eq. cbn [snd].
    rewrite Hc, slice0_at_newest.
    pose proof (call_execute_calls W c env) as Hcalls.
    specialize (IH {| history := (history i ++ [c])%list;
                      currentIndex := Z.of_nat (length (history i)) - 1 + 1 |}
                   (snd (call_execute c env))).
    cbn [history currentIndex] in IH.
    destruct IH as (Hh & Hi & Hl).
    { rewrite length_app. simpl. lia. }
    rewrite Hh, Hi, Hl, Hcalls.
    rewrite <- !app_assoc. auto.
Qed.


(** X13: with the cursor on an entry, an undo that returns followed by a
    redo puts the invoker back exactly as it was: the undo calls the [undo]
    of that entry and the redo its [execute], and the history is never
    touched.  An undo whose command throws leaves the invoker as it was. *)
Theorem undo_then_redo_restores_the_invoker i env command :
  index (history i) (currentIndex i) = Some command ->
  0 <= currentIndex i ->
  (forall s1,
     undoLastCommand (i, env) = (Ok tt, s1) ->
     fst s1 = set_currentIndex (currentIndex i - 1) i
     /\ snd s1 = snd (call_undo command env)
     /\ redoCommand s1 =
        (res_map Some (fst (call_execute command (snd s1))),
         (i, snd (call_execute command (snd s1)))))
  /\ (forall e s1,
        undoLastCommand (i, env) = (Throw e, s1) ->
        fst s1 = i /\ fst (call_undo command env) = Throw e).
Proof.
  intros Hidx Hpos.
  assert (Hlen : currentIndex i < Z.of_nat (length (history i))).
  { unfold index in Hidx. destruct (currentIndex i <? 0); [discriminate |].
    apply lookup_lt_Some in Hidx. lia. }
  rewrite undoLastCommand_eq, Hidx.
  destruct (Z.geb_spec (currentIndex i) 0) as [_ | Hneg]; [| lia].
  destruct (call_undo command env) as [[[] | e] env1].
  - split; [| intros e s1 Hu; discriminate Hu].
    intros s1 Hu. injection Hu as <-. cbn [fst snd].
    split; [reflexivity |]. split; [reflexivity |].
    rewrite redoCommand_eq. cbn [history currentIndex set_currentIndex].
    destruct (Z.ltb_spec (currentIndex i - 1)
                (Z.of_nat (length (history i)) - 1)); [| lia].
    replace (currentIndex i - 1 + 1) with (currentIndex i) by lia.
    rewrite Hidx. destruct i. reflexivity.
  - split; [intros s1 Hu; discriminate Hu |].
    intros e' s1 Hu. injection Hu as <- <-. auto.
Qed.

Lemma undo_keeps_history s : history (fst (snd (undoLastCommand s))) = history (fst s).
Proof.
  destruct s as [i env]. rewrite undoLastCommand_eq.
  destruct (currentIndex i >=? 0); [| reflexivity].
  destruct (index (history i) (currentIndex i)) as [c |]; [| reflexivity].
  destruct (call_undo c env) as [[[] | e] env1]; reflexivity.
Qed.

Lemma redo_keeps_history s : history (fst (snd (redoCommand s))) = history (fst s).
Proof.
  destruct s as [i env]. rewrite redoCommand_eq.
  destruct (currentIndex i <? Z.of_nat (length (history i)) - 1);
    [| reflexivity].
  destruct (index (history i) (currentIndex i + 1)) as [c |]; reflexivity.
Qed.

(** X14: [executeCommand] with the cursor in range keeps the entries up to
    the cursor, drops the ones after it, and makes the new command the last
    entry with the cursor on it, so that afterwards [canUndo()] is true and
    [canRedo()] is false, also when the execution throws;
    [undoLastCommand] and [redoCommand] never change the history and move
    the cursor by at most one. *)
Theorem execute_appends_and_undo_redo_only_move_the_cursor s command :
  cursor_in_range (fst s) ->
  let i' := fst (snd (executeCommand command s)) in
  history i' =
    (take (Z.to_nat (currentIndex (fst s) + 1)) (history (fst s))
       ++ [command])%list
  /\ currentIndex i' = currentIndex (fst s) + 1
  /\ index (history i') (currentIndex i') = Some command
  /\ canUndo i' = true
  /\ canRedo i' = false
  /\ history (fst (snd (undoLastCommand s))) = history (fst s)
  /\ history (fst (snd (redoCommand s))) = history (fst s)
  /\ currentIndex (fst s) - 1
     <= currentIndex (fst (snd (undoLastCommand s))) <= currentIndex (fst s)
  /\ currentIndex (fst s)
     <= currentIndex (fst (snd (redoCommand s))) <= currentIndex (fst s) + 1.
Proof.
  destruct s as [i env]. unfold cursor_in_range. cbn [fst]. intros Hc.
  cbn zeta. rewrite executeCommand_eq. cbn [fst snd history currentIndex].
  destruct (slice0_in_range (history i) (currentIndex i) Hc) as [Hslice Hlen].
  rewrite Hslice.
  assert (Hl : length (take (Z.to_nat (currentIndex i + 1)) (history i))
               = Z.to_nat (currentIndex i + 1)).
  { rewrite <- Hslice. exact Hlen. }
  split; [reflexivity |]. split; [reflexivity |].
  split.
  { unfold index. destruct (Z.ltb_spec (currentIndex i + 1) 0); [lia |].
    rewrite lookup_app_r by lia. rewrite Hl, Nat.sub_diag. reflexivity. }
  split.
  { unfold canUndo. cbn [currentIndex].
    destruct (Z.geb_spec (currentIndex i + 1) 0); [reflexivity | lia]. }
  split.
  { unfold canRedo. cbn [currentIndex history]. rewrite length_app, Hl.
    simpl length.
    destruct (Z.ltb_spec (currentIndex i + 1)
                (Z.of_nat (Z.to_nat (currentIndex i + 1) + 1) - 1));
      [lia | reflexivity]. }
  split; [apply undo_keeps_history |].
  split; [apply redo_keeps_history |].
  split.
  - rewrite undoLastCommand_eq.
    destruct (currentIndex i >=? 0); [| cbn; lia].
    destruct (index (history i) (currentIndex i)) as [c |]; [| cbn; lia].
    destruct (call_undo c env) as [[[] | e] env1]; cbn; lia.
  - rewrite redoCommand_eq.
    destruct (currentIndex i <? Z.of_nat (length (history i)) - 1);
      [| cbn; lia].
    destruct (index (history i) (currentIndex i + 1)) as [c |]; cbn; lia.
Qed.


(** Undoing [k] times with the cursor on entry [k - 1], when the undos
    return. *)
Lemma run_undos (h : list (TestCommand W)) : forall (k : nat) env,
  (k <= length h)%nat ->
  (forall c w, c ∈ h -> fst (undo c w) = Ok tt) ->
  let s' := run_ops (repeat OpUndo k)
              ({| history := h; currentIndex := Z.of_nat k - 1 |}, env) in
  fst s' = {| history := h; currentIndex := -1 |}
  /\ calls (snd s') = (calls env ++ map Undone (rev (take k h)))%list.
Proof.
  induction k as [| k IH]; intros env Hk Hret.
  - cbn. rewrite app_nil_r. auto.
  - destruct (lookup_lt_is_Some_2 h k) as [c Hc]; [lia |].
    cbn [repeat]. rewrite run_ops_cons. cbn [step].
    rewrite undoLastCommand_eq. cbn [history currentIndex].
    destruct (Z.geb_spec (Z.of_nat (S k) - 1) 0); [| lia].
    assert (Hidx : index h (Z.of_nat (S k) - 1) = Some c).
    { unfold index. destruct (Z.ltb_spec (Z.of_nat (S k) - 1) 0); [lia |].
      replace (Z.to_nat (Z.of_nat (S k) - 1)) with k by lia. exact Hc. }
    rewrite Hidx.
    pose proof (call_undo_calls W c env) as Hcalls.
    assert (Hok : fst (call_undo c env) = Ok tt).
    { unfold call_undo.
      pose proof (Hret c (world env)
                    (proj2 (list_elem_of_lookup h c) (ex_intro _ k Hc))) as Hu.
      destruct (undo c (world env)) as [r w']. exact Hu. }
    destruct (call_undo c env) as [[[] | e] env1]; [| discriminate Hok].
    cbn [snd set_currentIndex history currentIndex].
    replace (Z.of_nat (S k) - 1 - 1) with (Z.of_nat k - 1) by lia.
    destruct (IH env1 ltac:(lia) Hret) as [Hi Hl].
    change (set_currentIndex (Z.of_nat k - 1)
              {| history := h; currentIndex := Z.of_nat (S k) - 1 |})
      with ({| history := h; currentIndex := Z.of_nat k - 1 |}
            : TestCommandInvoker W).
    rewrite Hi, Hl. split; [reflexivity |].
    cbn [snd] in Hcalls. rewrite Hcalls, (take_S_r _ _ _ Hc), rev_app_distr.
    cbn [rev app map]. rewrite <- app_assoc. reflexivity.
Qed.


End InvokerCompositions.


(** ** The macro command: every outcome *)

Section MacroOutcomes.
Import JS Observers Commands Expected.

Variable W : Type.
Variable date_now : W -> Z.

Implicit Types (m : MacroTestCommand W) (env : Env W)
  (command : TestCommand W) (cs : list (TestCommand W)).

Lemma execute_loop_cons m startTime c cs env :
  execute_loop date_now m startTime (c :: cs) env =
  match call_execute c env with
  | (Ok result, env1) =>
      if is_failed (status result)
      then (Ok (Some {| testName := name m;
                        status := failed;
                        duration := date_now (world env1) - startTime;
                        error := Some ("Command " ++ getCommandName c
                                       ++ " failed: " ++ error_text result);
                        timestamp := date_now (world env1) |}), env1)
      else execute_loop date_now m startTime cs env1
  | (Throw e, env1) => (Throw e, env1)
  end.
Proof.
  cbn [execute_loop]. unfold bind at 1.
  destruct (call_execute c env) as [[r | e] env1]; [| reflexivity].
  destruct (is_failed (status r)); reflexivity.
Qed.

(** What the loop of [execute] can end with, against the sub-commands that
    pass. *)
Lemma execute_loop_outcome m startTime cs : forall env,
  (exists k,
     calls (snd (execute_loop date_now m startTime cs env)) =
     (calls env ++ map Executed (take k cs))%list)
  /\ match execute_loop date_now m startTime cs env with
     | (Ok None, env') => all_pass cs env = Some env'
     | (Ok (Some r), env') =>
         status r = failed /\ testName r = name m /\ all_pass cs env = None
     | (Throw e, env') =>
         all_pass cs env = None
         /\ exists c w w', c ∈ cs /\ execute c w = (Throw e, w')
     end.
Proof.
  induction cs as [| c cs IH]; intros env.
  - cbn. split; [| reflexivity]. exists 0%nat. symmetry. apply app_nil_r.
  - rewrite execute_loop_cons. cbn [all_pass].
    pose proof (call_execute_calls W c env) as Hcalls.
    assert (Hthrown : forall e env1,
              call_execute c env = (Throw e, env1) ->
              execute c (world env) = (Throw e, world env1)).
    { unfold call_execute. destruct (execute c (world env)) as [r0 w0].
      intros e env1 H. injection H as -> <-. reflexivity. }
    destruct (call_execute c env) as [[r | e] env1]; cbn [snd] in Hcalls.
    + destruct (is_failed (status r)).
      * cbn. split; [| repeat split].
        exists 1%nat. cbn [take map]. rewrite take_0. exact Hcalls.
      * destruct (IH env1) as [[k Hk] Hcase]. split.
        -- exists (S k). rewrite Hk, Hcalls. cbn [take map].
           rewrite <- app_assoc. reflexivity.
        -- destruct (execute_loop date_now m startTime cs env1)
             as [[[r' |] | e] env']; [exact Hcase | exact Hcase |].
           destruct Hcase as (Hnone & c' & w & w' & Hin & Hrun).
           split; [exact Hnone |].
           exists c', w, w'. split; [right; exact Hin | exact Hrun].
    + cbn. split.
      * exists 1%nat. cbn [take map]. rewrite take_0. exact Hcalls.
      * split; [reflexivity |].
        exists c, (world env), (world env1).
        split; [left | apply Hthrown; reflexivity].
Qed.

(** X16: the [execute] of a macro command executes a prefix of its
    sub-commands in order and then returns a result under the name of the
    macro that is [passed] or [failed], [passed] exactly when every
    sub-command returned a result that is not [failed], or throws a
    [TypeError]; it returns when no sub-command throws [null] or
    [undefined].  When the first sub-command that does not pass throws,
    the later sub-commands are not executed; the result is [failed] with
    the message of what was thrown when that message can be read, and
    [execute] throws when [null] or [undefined] was thrown. *)
Theorem macro_execute_returns_unless_null_is_thrown :
  (forall m env,
     exists env' k,
       calls env' = (calls env ++ map Executed (take k (commands m)))%list
       /\ ((exists r,
              MacroTestCommand_execute date_now m env = (Ok r, env')
              /\ testName r = name m
              /\ (status r = passed \/ status r = failed)
              /\ (status r = passed <-> all_pass (commands m) env = Some env'))
           \/ (exists text,
                 MacroTestCommand_execute date_now m env
                   = (Throw (TypeError text), env')
                 /\ all_pass (commands m) env = None)))
  /\ (forall m env,
        (forall c w e w',
           c ∈ commands m -> execute c w = (Throw e, w') ->
           thrown_nullish e = false) ->
        exists r env', MacroTestCommand_execute date_now m env = (Ok r, env'))
  /\ (forall m pre c post env env1 e env2,
        commands m = (pre ++ c :: post)%list ->
        all_pass pre env = Some env1 ->
        call_execute c env1 = (Throw e, env2) ->
        calls env2 = (calls env ++ map Executed (pre ++ [c]))%list
        /\ (forall text,
              message e = Ok text ->
              MacroTestCommand_execute date_now m env =
                (Ok {| testName := name m;
                       status := failed;
                       duration := date_now (world env2) - date_now (world env);
                       error := text;
                       timestamp := date_now (world env2) |},
                 env2))
        /\ (thrown_nullish e = true ->
            exists text,
              MacroTestCommand_execute date_now m env
                = (Throw (TypeError text), env2))).
Proof.
  split; [| split].
  - intros m env.
    unfold MacroTestCommand_execute, try_catch, bind at 1, now at 1, gets.
    unfold bind at 1.
    destruct (execute_loop_outcome m (date_now (world env)) (commands m) env)
      as [[k Hk] Hcase].
    destruct (execute_loop date_now m (date_now (world env)) (commands m) env)
      as [[[r |] | e] env'] eqn:Hloop; cbn [snd] in Hk.
    + destruct Hcase as (Hfailed & Hname & Hnone).
      exists env', k. split; [exact Hk |]. left. exists r. cbn.
      split; [reflexivity |]. split; [exact Hname |].
      split; [right; exact Hfailed |].
      split.
      * intros Hp. rewrite Hfailed in Hp. discriminate Hp.
      * intros Hsome. rewrite Hnone in Hsome. discriminate Hsome.
    + exists env', k. split; [exact Hk |]. left. eexists. cbn.
      split; [reflexivity |]. split; [reflexivity |].
      split; [left; reflexivity |].
      split; [intros _; exact Hcase | reflexivity].
    + destruct Hcase as [Hnone _].
      exists env', k. split; [exact Hk |].
      unfold bind, now, gets, lift. rewrite ?Hloop.
      assert (Hcaught : forall text,
                exists r,
                  (Ok {| testName := name m;
                         status := failed;
                         duration := date_now (world env')
                                     - date_now (world env);
                         error := text;
                         timestamp := date_now (world env') |}, env')
                  = (Ok r, env')
                  /\ testName r = name m
                  /\ (status r = passed \/ status r = failed)
                  /\ (status r = passed
                      <-> all_pass (commands m) env = Some env')).
      { intros text. eexists. split; [reflexivity |]. cbn.
        split; [reflexivity |]. split; [right; reflexivity |].
        split.
        - intros Hp. discriminate Hp.
        - intros Hsome. rewrite Hnone in Hsome. discriminate Hsome. }
      destruct e as [msg | msg | response request msg | | |]; cbn [message].
      * left. apply Hcaught.
      * left. apply Hcaught.
      * left. apply Hcaught.
      * right. eexists. split; [reflexivity | exact Hnone].
      * right. eexists. split; [reflexivity | exact Hnone].
      * left. apply Hcaught.
  - intros m env Hnonull.
    unfold MacroTestCommand_execute, try_catch, bind at 1, now at 1, gets.
    unfold bind at 1.
    destruct (execute_loop_outcome m (date_now (world env)) (commands m) env)
      as [_ Hcase].
    destruct (execute_loop date_now m (date_now (world env)) (commands m) env)
      as [[[r |] | e] env'] eqn:Hloop.
    + eexists. eexists. reflexivity.
    + eexists. eexists. reflexivity.
    + destruct Hcase as (_ & c & w & w' & Hin & Hrun).
      specialize (Hnonull c w e w' Hin Hrun).
      unfold bind, now, gets, lift. rewrite ?Hloop.
      destruct e; try discriminate Hnonull; eexists; eexists; reflexivity.
  - intros m pre c post env env1 e env2 Hcs Hpass Hc.
    pose proof (macro_catches_throwing_subcommand W date_now m pre c post
                  env env1 e env2 Hcs Hpass Hc) as Hrun.
    split; [| split].
    + rewrite map_app, app_assoc, <- (all_pass_calls W _ _ _ Hpass).
      pose proof (call_execute_calls W c env1) as Hcalls.
      rewrite Hc in Hcalls. exact Hcalls.
    + intros text Htext. rewrite Hrun, Htext. reflexivity.
    + intros Hnull. rewrite Hrun.
      destruct e; try discriminate Hnull; eexists; reflexivity.
Qed.

End MacroOutcomes.

Section ObserverRegistry.
Import JS Observers Expected.

Variable W : Type.

Implicit Types (this : TestResultNotifier W) (observer o : TestObserver W)
  (l pre post : list (TestObserver W)) (env : Env W) (n : Notification).

Lemma indexOf_absent l observer :
  (forall o, o ∈ l -> observer_id o <> observer_id observer) ->
  indexOf l observer = -1.
Proof.
  induction l as [| x l IH]; intros Hl; [reflexivity |].
  cbn [indexOf].
  destruct (Nat.eqb_spec (observer_id x) (observer_id observer)) as [Heq | _].
  - exfalso. apply (Hl x); [left | exact Heq].
  - rewrite IH; [reflexivity |]. intros o Ho. apply Hl. right. exact Ho.
Qed.

Lemma indexOf_first pre o post observer :
  observer_id o = observer_id observer ->
  (forall x, x ∈ pre -> observer_id x <> observer_id observer) ->
  indexOf (pre ++ o :: post)%list observer = Z.of_nat (length pre).
Proof.
  intros Hid. induction pre as [| x pre IH]; intros Hpre.
  - cbn [app indexOf length]. rewrite Hid, Nat.eqb_refl. reflexivity.
  - cbn [app indexOf].
    destruct (Nat.eqb_spec (observer_id x) (observer_id observer)) as [Heq | _].
    + exfalso. apply (Hpre x); [left | exact Heq].
    + rewrite IH by (intros y Hy; apply Hpre; right; exact Hy).
      destruct (Z.ltb_spec (Z.of_nat (length pre)) 0); [lia |].
      cbn [length]. lia.
Qed.

Lemma delete_middle pre o post :
  delete (length pre) (pre ++ o :: post)%list = (pre ++ post)%list.
Proof.
  induction pre as [| x pre IH]; [reflexivity |].
  cbn [length app]. change (delete (S (length pre)) (x :: (pre ++ o :: post)%list))
    with (x :: delete (length pre) (pre ++ o :: post)%list).
  rewrite IH. reflexivity.
Qed.


End ObserverRegistry.

Section FileObserverProperties.
Import JS Observers Expected.

Variable toISOString : Z -> string.

Lemma file_handle_appends ev logs :
  exists added,
    file_handle toISOString ev logs = (logs ++ added)%list
    /\ length added = if completes_with_error ev then 2%nat else 1%nat.
Proof.
  destruct ev as [now testName | result | now suite];
    cbn [file_handle completes_with_error].
  - eexists. split; reflexivity.
  - unfold file_onTestComplete. destruct (has_error result).
    + eexists. rewrite <- app_assoc. split; reflexivity.
    + eexists. split; reflexivity.
  - eexists. split; reflexivity.
Qed.

(** X18: the log of a file observer only grows: whatever it is told, the
    lines it held stay as they were, in place, and each notification adds
    one line, or two for a completion whose result carries a non-empty
    error text. *)
Theorem file_log_only_grows evs logs :
  exists added,
    file_after toISOString evs logs = (logs ++ added)%list
    /\ length added =
       (length evs + length (List.filter completes_with_error evs))%nat.
Proof.
  revert logs. induction evs as [| ev evs IH]; intros logs.
  - exists []. split; [symmetry; apply app_nil_r | reflexivity].
  - unfold file_after. cbn [fold_left].
    destruct (file_handle_appends ev logs) as (added1 & -> & Hlen1).
    destruct (IH (logs ++ added1)%list) as (added2 & Hrun & Hlen2).
    unfold file_after in Hrun. rewrite Hrun.
    exists (added1 ++ added2)%list. split; [symmetry; apply app_assoc |].
    rewrite length_app, Hlen1, Hlen2. cbn [List.filter length].
    destruct (completes_with_error ev); cbn [length]; lia.
Qed.

End FileObserverProperties.

Section MetricsSummaries.
Import JS Observers Expected.

(** X19: for results whose durations are whole numbers of milliseconds,
    none negative, that come to less than 2^53 in all, which are numbers
    that the code adds up exactly, after any sequence of completions the
    metrics hold the number of results, the number with each status and
    the sum of the durations; a reset gives the metrics of no result. *)
Theorem metrics_count_and_total_the_results received :
  (forall r, In r received -> 0 <= duration r) ->
  sum_durations received < 2 ^ 53 ->
  let m := metrics_after received in
  totalTests m = Z.of_nat (length received)
  /\ passedTests m = count_status passed received
  /\ failedTests m = count_status failed received
  /\ skippedTests m = count_status skipped received
  /\ totalTests m = passedTests m + failedTests m + skippedTests m
  /\ totalDuration m = sum_durations received
  /\ 0 <= totalDuration m < 2 ^ 53
  /\ metrics_reset m = metrics_after [].
Proof.
  intros Hwhole Hsmall. cbn zeta.
  destruct (metrics_totals received) as (Hn & Hp & Hf & Hs & Hsum & Hd).
  repeat (split; [assumption |]).
  split; [| reflexivity].
  rewrite Hd. split; [| exact Hsmall].
  clear - Hwhole. unfold sum_durations.
  induction received as [| r received IH]; [simpl; lia |].
  cbn [map fold_right].
  pose proof (Hwhole r (or_introl eq_refl)).
  specialize (IH (fun x Hx => Hwhole x (or_intror Hx))). lia.
Qed.

Lemma fastest_kept (post : list TestResult) : forall (m : Metrics) held d,
  fastestTest m = {| name := held; named_duration := Finite d |} ->
  (forall x, In x post -> d <= duration x) ->
  fastestTest (fold_left (fun m result => metrics_onTestComplete result m)
                 post m) = {| name := held; named_duration := Finite d |}.
Proof.
  induction post as [| x post IH]; intros m held d Hm Hpost; [exact Hm |].
  cbn [fold_left]. apply IH.
  - unfold metrics_onTestComplete. cbn [fastestTest]. rewrite Hm.
    cbn [named_duration lt_num].
    destruct (Z.ltb_spec (duration x) d) as [Hlt | _]; [| reflexivity].
    specialize (Hpost x (or_introl eq_refl)). lia.
  - intros y Hy. apply Hpost. right. exact Hy.
Qed.

Lemma slowest_kept (post : list TestResult) : forall (m : Metrics) held d,
  slowestTest m = {| name := held; named_duration := Finite d |} ->
  (forall x, In x post -> duration x <= d) ->
  slowestTest (fold_left (fun m result => metrics_onTestComplete result m)
                 post m) = {| name := held; named_duration := Finite d |}.
Proof.
  induction post as [| x post IH]; intros m held d Hm Hpost; [exact Hm |].
  cbn [fold_left]. apply IH.
  - unfold metrics_onTestComplete. cbn [slowestTest]. rewrite Hm.
    cbn [named_duration gt_num].
    destruct (Z.gtb_spec (duration x) d) as [Hgt | _]; [| reflexivity].
    specialize (Hpost x (or_introl eq_refl)). lia.
  - intros y Hy. apply Hpost. right. exact Hy.
Qed.

Lemma fastest_above (pre : list TestResult) bound :
  (forall x, In x pre -> bound < duration x) ->
  lt_num bound (named_duration (fastestTest (metrics_after pre))) = true.
Proof.
  induction pre as [| x pre IH] using rev_ind; intros Hpre; [reflexivity |].
  rewrite metrics_after_snoc. unfold metrics_onTestComplete.
  cbn [fastestTest].
  assert (Hx : bound < duration x).
  { apply Hpre, in_app_iff. right. left. reflexivity. }
  destruct (lt_num (duration x) _).
  - cbn. apply Z.ltb_lt. exact Hx.
  - apply IH. intros y Hy. apply Hpre, in_app_iff. left. exact Hy.
Qed.

Lemma slowest_below (pre : list TestResult) bound :
  0 < bound ->
  (forall x, In x pre -> duration x < bound) ->
  gt_num bound (named_duration (slowestTest (metrics_after pre))) = true.
Proof.
  intros Hbound.
  induction pre as [| x pre IH] using rev_ind; intros Hpre.
  - cbn. apply Z.gtb_lt. exact Hbound.
  - rewrite metrics_after_snoc. unfold metrics_onTestComplete.
    cbn [slowestTest].
    assert (Hx : duration x < bound).
    { apply Hpre, in_app_iff. right. left. reflexivity. }
    destruct (gt_num (duration x) _).
    + cbn. apply Z.gtb_lt. exact Hx.
    + apply IH. intros y Hy. apply Hpre, in_app_iff. left. exact Hy.
Qed.

Lemma metrics_after_middle pre r post :
  metrics_after (pre ++ r :: post) =
  fold_left (fun m result => metrics_onTestComplete result m) post
    (metrics_onTestComplete r (metrics_after pre)).
Proof. unfold metrics_after. rewrite fold_left_app. reflexivity. Qed.

(** X20: the fastest test is the earliest of the results of least
    duration, and the slowest test the earliest of the results of greatest
    duration when that duration is positive; when no result lasted more
    than 0 ms the slowest test stays the unnamed initial one. *)
Theorem metrics_extremes_are_the_earliest_extreme_results pre r post :
  let m := metrics_after (pre ++ r :: post) in
  ((forall x, In x pre -> duration r < duration x) ->
   (forall x, In x post -> duration r <= duration x) ->
   fastestTest m =
     {| name := testName r; named_duration := Finite (duration r) |})
  /\ (0 < duration r ->
      (forall x, In x pre -> duration x < duration r) ->
      (forall x, In x post -> duration x <= duration r) ->
      slowestTest m =
        {| name := testName r; named_duration := Finite (duration r) |})
  /\ ((forall x, In x (pre ++ r :: post) -> duration x <= 0) ->
      slowestTest m = {| name := ""; named_duration := Finite 0 |}).
Proof.
  cbn zeta. split; [| split].
  - intros Hpre Hpost. rewrite metrics_after_middle.
    apply fastest_kept; [| exact Hpost].
    unfold metrics_onTestComplete. cbn [fastestTest].
    rewrite (fastest_above pre (duration r) Hpre). reflexivity.
  - intros Hpos Hpre Hpost. rewrite metrics_after_middle.
    apply slowest_kept; [| exact Hpost].
    unfold metrics_onTestComplete. cbn [slowestTest].
    rewrite (slowest_below pre (duration r) Hpos Hpre). reflexivity.
  - intros Hall. apply (slowest_kept (pre ++ r :: post) initial_metrics "" 0);
      [reflexivity | exact Hall].
Qed.

End MetricsSummaries.

Section CompositeNesting.
Import JS Strategies Expected.

Variable Data : Type.

Implicit Types (l pre post : list (ValidationStrategy Data)) (data : Data)
  (this inner : CompositeValidationStrategy Data).

(** What the loop returns does not depend on the log. *)
Lemma validate_loop_any_log data l : forall allErrors allValid log log',
  fst (validate_loop l data allErrors allValid log) =
  fst (validate_loop l data allErrors allValid log').
Proof.
  induction l as [| s l IH]; intros allErrors allValid log log';
    [reflexivity |].
  cbn [validate_loop]. unfold bind, call_validate.
  destruct (validate s data) as [r | e]; [| reflexivity].
  destruct (negb (isValid r)); apply IH.
Qed.

(** The loop started with other accumulators returns the same, shifted by
    the accumulators. *)
Lemma validate_loop_shift data l : forall allErrors allValid log,
  fst (validate_loop l data allErrors allValid log) =
  res_map (fun acc => ((allErrors ++ fst acc)%list, allValid && snd acc))
          (fst (validate_loop l data [] true [])).
Proof.
  induction l as [| s l IH]; intros allErrors allValid log.
  - cbn. rewrite app_nil_r, andb_true_r. reflexivity.
  - cbn [validate_loop]. unfold bind, call_validate.
    destruct (validate s data) as [r | e]; [| reflexivity].
    destruct (isValid r); cbn [negb].
    + rewrite (IH allErrors allValid).
      rewrite (validate_loop_any_log data l [] true ([] ++ [s])%list []).
      reflexivity.
    + rewrite (IH (allErrors ++ errors r)%list false).
      rewrite (IH ([] ++ errors r)%list false).
      destruct (fst (validate_loop l data [] true [])) as [[e v] |];
        [| reflexivity].
      cbn. rewrite andb_false_r, app_assoc. reflexivity.
Qed.

Lemma validate_loop_app data pre : forall post allErrors allValid log,
  fst (validate_loop (pre ++ post) data allErrors allValid log) =
  match fst (validate_loop pre data allErrors allValid log) with
  | Ok acc => fst (validate_loop post data (fst acc) (snd acc) [])
  | Throw e => Throw e
  end.
Proof.
  induction pre as [| s pre IH]; intros post allErrors allValid log.
  - cbn [app validate_loop ret fst snd].
    rewrite (validate_loop_shift data post allErrors allValid log).
    rewrite (validate_loop_shift data post allErrors allValid []).
    reflexivity.
  - cbn [app validate_loop]. unfold bind, call_validate.
    destruct (validate s data) as [r | e]; [| reflexivity].
    destruct (negb (isValid r)); apply IH.
Qed.

(** A loop that ends valid has collected no error. *)
Lemma valid_loop_has_no_errors data l : forall acc log,
  fst (validate_loop l data [] true log) = Ok acc ->
  snd acc = true -> fst acc = [].
Proof.
  induction l as [| s l IH]; intros acc log Hrun Hvalid.
  - cbn in Hrun. injection Hrun as <-. reflexivity.
  - cbn [validate_loop] in Hrun. unfold bind, call_validate in Hrun.
    destruct (validate s data) as [r | e]; [| discriminate Hrun].
    destruct (isValid r); cbn [negb] in Hrun.
    + apply (IH acc _ Hrun Hvalid).
    + rewrite validate_loop_shift in Hrun.
      destruct (fst (validate_loop l data [] true [])) as [[e v] |];
        [| discriminate Hrun].
      cbn in Hrun. injection Hrun as <-. cbn in Hvalid. discriminate Hvalid.
Qed.

(** X21: composites nest: a composite used as a sub-strategy of another
    gives the outer composite the verdict and the errors that the outer
    one would give with the sub-strategies of the inner one in its place,
    and the same exception when a sub-strategy throws. *)
Theorem nested_composite_gives_the_flat_verdict inner pre post data :
  fst (composite_validate
         {| strategies := (pre ++ as_strategy inner :: post)%list |} data [])
  = fst (composite_validate
           {| strategies := (pre ++ strategies inner ++ post)%list |} data []).
Proof.
  unfold composite_validate, bind. cbn [strategies].
  assert (Hloop :
    fst (validate_loop (pre ++ as_strategy inner :: post) data [] true []) =
    fst (validate_loop (pre ++ strategies inner ++ post) data [] true [])).
  { rewrite !validate_loop_app.
    destruct (fst (validate_loop pre data [] true [])) as [[e0 v0] |];
      [| reflexivity].
    cbn [fst snd].
    rewrite (validate_loop_app data (strategies inner) post).
    cbn [validate_loop]. unfold bind, call_validate.
    cbn [validate as_strategy]. unfold composite_validate, bind.
    rewrite (validate_loop_shift data (strategies inner) e0 v0 []).
    destruct (validate_loop (strategies inner) data [] true [])
      as [[[e1 v1] |] log1] eqn:Hinner; cbn [fst snd ret res_map isValid errors];
      [| reflexivity].
    assert (Hclean : v1 = true -> e1 = []).
    { intros Hv. apply (valid_loop_has_no_errors data (strategies inner)
                          (e1, v1) []); [rewrite Hinner; reflexivity | exact Hv]. }
    destruct v1; cbn [negb].
    - rewrite (Hclean eq_refl), app_nil_r, andb_true_r.
      rewrite (validate_loop_shift data post e0 v0 _).
      rewrite (validate_loop_shift data post e0 v0 []). reflexivity.
    - rewrite andb_false_r.
      rewrite (validate_loop_shift data post (e0 ++ e1)%list false _).
      rewrite (validate_loop_shift data post (e0 ++ e1)%list false []).
      reflexivity. }
  destruct (validate_loop (pre ++ as_strategy inner :: post) data [] true [])
    as [[acc1 |] log1];
    destruct (validate_loop (pre ++ strategies inner ++ post) data [] true [])
    as [[acc2 |] log2]; cbn [fst] in Hloop; try discriminate Hloop.
  - injection Hloop as ->. reflexivity.
  - injection Hloop as ->. reflexivity.
Qed.

End CompositeNesting.

Section FormatProperties.
Import Stdlib.Strings.Ascii JS Helpers Expected.

Implicit Types (r : Regex) (s : string) (c : ascii).

Lemma string_cons_app c (a b : string) :
  (String c a ++ b)%string = String c (a ++ b)%string.
Proof. reflexivity. Qed.

Lemma string_app_nil_r (a : string) : (a ++ "")%string = a.
Proof.
  induction a as [| x a IH]; [reflexivity |].
  rewrite string_cons_app, IH. reflexivity.
Qed.

Lemma string_app_eq_nil (a b : string) :
  (a ++ b)%string = "" -> a = "" /\ b = "".
Proof.
  destruct a as [| x a]; [intros H; split; [reflexivity | exact H] |].
  rewrite string_cons_app. discriminate.
Qed.

Lemma string_length_app (a b : string) :
  String.length (a ++ b) = (String.length a + String.length b)%nat.
Proof.
  induction a as [| x a IH]; [reflexivity |].
  rewrite string_cons_app. cbn [String.length]. rewrite IH. reflexivity.
Qed.

Lemma all_units_app allows (a b : string) :
  all_units allows (a ++ b) = all_units allows a && all_units allows b.
Proof.
  induction a as [| x a IH]; [reflexivity |].
  rewrite string_cons_app. cbn [all_units]. rewrite IH.
  apply andb_assoc.
Qed.

Lemma nullable_spec r : nullable r = true <-> In_lang r "".
Proof.
  split.
  - induction r as [| | allows | r1 IH1 r2 IH2 | r1 IH1 r2 IH2 | r1 IH1];
      cbn [nullable]; intros H; try discriminate.
    + constructor.
    + apply andb_prop in H as [H1 H2].
      change "" with ("" ++ "")%string. constructor; auto.
    + apply orb_prop in H as [H | H];
        [apply in_alt_l | apply in_alt_r]; auto.
    + constructor.
  - intros H. remember "" as s eqn:Hs.
    induction H as [| allows c Hc | r1 r2 s1 s2 H1 IH1 H2 IH2
                    | r1 r2 s H IH | r1 r2 s H IH | r
                    | r s1 s2 H1 IH1 H2 IH2]; cbn [nullable];
      try reflexivity.
    + discriminate.
    + apply string_app_eq_nil in Hs as [-> ->].
      rewrite IH1, IH2; reflexivity.
    + rewrite IH by exact Hs. reflexivity.
    + rewrite IH by exact Hs. apply orb_true_r.
Qed.

Lemma deriv_sound c r : forall s, In_lang (deriv c r) s -> In_lang r (String c s).
Proof.
  induction r as [| | allows | r1 IH1 r2 IH2 | r1 IH1 r2 IH2 | r1 IH1];
    cbn [deriv]; intros s H.
  - inversion H.
  - inversion H.
  - destruct (allows c) eqn:Hc; inversion H; subst.
    constructor. exact Hc.
  - assert (Hseq : In_lang (Seq (deriv c r1) r2) s -> In_lang (Seq r1 r2) (String c s)).
    { intros Hs. inversion Hs; subst.
      rewrite <- string_cons_app. constructor; auto. }
    destruct (nullable r1) eqn:Hn; [| auto].
    inversion H; subst; [auto |].
    change (String c s) with ("" ++ String c s)%string.
    constructor; [apply nullable_spec; exact Hn | auto].
  - inversion H; subst; [apply in_alt_l | apply in_alt_r]; auto.
  - inversion H; subst. rewrite <- string_cons_app.
    apply in_star_cons; auto.
Qed.

Lemma deriv_complete c r s' :
  In_lang r s' -> forall s, s' = String c s -> In_lang (deriv c r) s.
Proof.
  intros H.
  induction H as [| allows c0 Hc | r1 r2 s1 s2 H1 IH1 H2 IH2
                  | r1 r2 s0 H IH | r1 r2 s0 H IH | r
                  | r s1 s2 H1 IH1 H2 IH2]; intros s Hs; cbn [deriv].
  - discriminate.
  - injection Hs as -> <-. rewrite Hc. constructor.
  - destruct s1 as [| x s1].
    + change ("" ++ s2)%string with s2 in Hs.
      apply nullable_spec in H1. rewrite H1. apply in_alt_r. auto.
    + rewrite string_cons_app in Hs. injection Hs as -> <-.
      assert (Hseq : In_lang (Seq (deriv c r1) r2) (s1 ++ s2)).
      { constructor; auto. }
      destruct (nullable r1); [apply in_alt_l |]; exact Hseq.
  - apply in_alt_l. auto.
  - apply in_alt_r. auto.
  - discriminate.
  - destruct s1 as [| x s1].
    + change ("" ++ s2)%string with s2 in Hs. auto.
    + rewrite string_cons_app in Hs. injection Hs as -> <-.
      constructor; auto.
Qed.

(** [test] decides the language of the pattern. *)
Lemma test_spec s : forall r, test r s = true <-> In_lang r s.
Proof.
  induction s as [| c s IH]; intros r; cbn [test].
  - apply nullable_spec.
  - rewrite IH. split; [apply deriv_sound |].
    intros H. apply (deriv_complete c r _ H). reflexivity.
Qed.

Lemma lang_seq r1 r2 s :
  In_lang (Seq r1 r2) s <->
  exists s1 s2, s = (s1 ++ s2)%string /\ In_lang r1 s1 /\ In_lang r2 s2.
Proof.
  split.
  - intros H. inversion H; subst. eauto.
  - intros (s1 & s2 & -> & H1 & H2). constructor; auto.
Qed.

Lemma lang_unit c s : In_lang (unit_ c) s <-> s = String c "".
Proof.
  unfold unit_. split.
  - intros H. inversion H as [| allows c0 Hc | | | | |]; subst.
    apply Ascii.eqb_eq in Hc. subst. reflexivity.
  - intros ->. constructor. apply Ascii.eqb_refl.
Qed.

Lemma lang_class allows s :
  In_lang (Class allows) s <->
  String.length s = 1%nat /\ all_units allows s = true.
Proof.
  split.
  - intros H. inversion H; subst. cbn. rewrite H1. auto.
  - intros [Hlen Hall]. destruct s as [| c [| ? ?]]; try discriminate.
    cbn in Hall. rewrite andb_true_r in Hall. constructor. exact Hall.
Qed.

Lemma lang_star_class allows s :
  In_lang (Star (Class allows)) s <-> all_units allows s = true.
Proof.
  split.
  - intros H. remember (Star (Class allows)) as r eqn:Hr.
    induction H as [| | | | | r0 | r0 s1 s2 H1 IH1 H2 IH2];
      try discriminate; [reflexivity |].
    injection Hr as ->. apply lang_class in H1 as [_ H1].
    rewrite all_units_app, H1, IH2; reflexivity.
  - induction s as [| c s IH]; [constructor |].
    cbn [all_units]. intros H. apply andb_prop in H as [Hc Hs].
    change (String c s) with (String c "" ++ s)%string.
    apply in_star_cons; [constructor; exact Hc | auto].
Qed.

Lemma lang_plus_class allows s :
  In_lang (plus (Class allows)) s <-> s <> "" /\ all_units allows s = true.
Proof.
  unfold plus. rewrite lang_seq. split.
  - intros (s1 & s2 & -> & H1 & H2).
    apply lang_class in H1 as [Hlen H1]. apply lang_star_class in H2.
    split.
    + destruct s1; [discriminate | rewrite string_cons_app; discriminate].
    + rewrite all_units_app, H1, H2. reflexivity.
  - intros [Hne Hall]. destruct s as [| c s]; [congruence |].
    cbn [all_units] in Hall. apply andb_prop in Hall as [Hc Hs].
    exists (String c ""), s. split; [reflexivity |].
    split; [constructor; exact Hc | apply lang_star_class; exact Hs].
Qed.

Lemma lang_times_class allows n : forall s,
  In_lang (times n (Class allows)) s <->
  String.length s = n /\ all_units allows s = true.
Proof.
  induction n as [| n IH]; intros s; cbn [times].
  - split.
    + intros H. inversion H. auto.
    + intros [Hlen _]. destruct s; [constructor | discriminate].
  - rewrite lang_seq. split.
    + intros (s1 & s2 & -> & H1 & H2).
      apply lang_class in H1 as [Hlen H1]. apply IH in H2 as [Hn H2].
      rewrite string_length_app, all_units_app, Hlen, Hn, H1, H2. auto.
    + intros [Hlen Hall]. destruct s as [| c s]; [discriminate |].
      cbn [all_units] in Hall. apply andb_prop in Hall as [Hc Hs].
      exists (String c ""), s. split; [reflexivity |].
      split; [constructor; exact Hc |].
      apply IH. cbn in Hlen. split; [congruence | exact Hs].
Qed.

Lemma emailRegex_lang s :
  In_lang emailRegex s <->
  exists local host tail,
    s = (local ++ "@" ++ host ++ "." ++ tail)%string
    /\ plain_run local /\ plain_run host /\ plain_run tail.
Proof.
  unfold emailRegex, plain_run. split.
  - intros H.
    apply lang_seq in H as (local & s1 & -> & Hlocal & H).
    apply lang_seq in H as (at_ & s2 & -> & Hat & H).
    apply lang_seq in H as (host & s3 & -> & Hhost & H).
    apply lang_seq in H as (dot & tail & -> & Hdot & Htail).
    apply lang_unit in Hat as ->. apply lang_unit in Hdot as ->.
    apply lang_plus_class in Hlocal, Hhost, Htail.
    exists local, host, tail. auto.
  - intros (local & host & tail & -> & Hlocal & Hhost & Htail).
    apply lang_plus_class in Hlocal, Hhost, Htail.
    constructor; [exact Hlocal |].
    constructor; [apply lang_unit; reflexivity |].
    constructor; [exact Hhost |].
    constructor; [apply lang_unit; reflexivity | exact Htail].
Qed.

Lemma uuidRegex_lang s :
  In_lang uuidRegex s <->
  exists g1 g2 g3 g4 g5,
    s = (g1 ++ "-" ++ g2 ++ "-" ++ g3 ++ "-" ++ g4 ++ "-" ++ g5)%string
    /\ hex_run 8 g1 /\ hex_run 4 g2 /\ hex_run 4 g3 /\ hex_run 4 g4
    /\ hex_run 12 g5.
Proof.
  unfold uuidRegex, hex_run. split.
  - intros H.
    apply lang_seq in H as (g1 & s1 & -> & Ha & H).
    apply lang_seq in H as (d1 & s2 & -> & Hd1 & H).
    apply lang_seq in H as (g2 & s3 & -> & Hb & H).
    apply lang_seq in H as (d2 & s4 & -> & Hd2 & H).
    apply lang_seq in H as (g3 & s5 & -> & Hc & H).
    apply lang_seq in H as (d3 & s6 & -> & Hd3 & H).
    apply lang_seq in H as (g4 & s7 & -> & Hd & H).
    apply lang_seq in H as (d4 & g5 & -> & Hd4 & He).
    apply lang_unit in Hd1 as ->. apply lang_unit in Hd2 as ->.
    apply lang_unit in Hd3 as ->. apply lang_unit in Hd4 as ->.
    apply lang_times_class in Ha, Hb, Hc, Hd, He.
    exists g1, g2, g3, g4, g5. auto 10.
  - intros (g1 & g2 & g3 & g4 & g5 & -> & Ha & Hb & Hc & Hd & He).
    apply lang_times_class in Ha, Hb, Hc, Hd, He.
    constructor; [exact Ha |].
    constructor; [apply lang_unit; reflexivity |].
    constructor; [exact Hb |].
    constructor; [apply lang_unit; reflexivity |].
    constructor; [exact Hc |].
    constructor; [apply lang_unit; reflexivity |].
    constructor; [exact Hd |].
    constructor; [apply lang_unit; reflexivity | exact He].
Qed.

(** X22: [isValidEmail] accepts exactly the strings made of a local part,
    an at sign, a host, a dot and a tail, each part non-empty and free of
    white space and of at signs; so an accepted address has one at sign,
    and the host and the tail may themselves hold dots. *)
Theorem email_check_accepts_local_at_host_dot_tail s :
  isValidEmail s = true <->
  exists local host tail,
    s = (local ++ "@" ++ host ++ "." ++ tail)%string
    /\ plain_run local /\ plain_run host /\ plain_run tail.
Proof. unfold isValidEmail. rewrite test_spec. apply emailRegex_lang. Qed.

(** X23: [isValidUUID] accepts exactly five runs of 8, 4, 4, 4 and 12
    hexadecimal digits, in either case, joined by hyphens: the version and
    variant digits are not told apart from the others. *)
Theorem uuid_check_accepts_five_hyphenated_hex_runs s :
  isValidUUID s = true <->
  exists g1 g2 g3 g4 g5,
    s = (g1 ++ "-" ++ g2 ++ "-" ++ g3 ++ "-" ++ g4 ++ "-" ++ g5)%string
    /\ hex_run 8 g1 /\ hex_run 4 g2 /\ hex_run 4 g3 /\ hex_run 4 g4
    /\ hex_run 12 g5.
Proof. unfold isValidUUID. rewrite test_spec. apply uuidRegex_lang. Qed.

(** No string passes both checks: an address holds an at sign, an
    identifier only digits, letters and hyphens. *)
Lemma email_and_uuid_exclude_each_other s :
  isValidEmail s = true -> isValidUUID s = false.
Proof.
  intros Hemail. destruct (isValidUUID s) eqn:Huuid; [| reflexivity].
  exfalso. unfold isValidEmail, isValidUUID in *.
  apply test_spec, emailRegex_lang in Hemail
    as (local & host & tail & Hs & _).
  apply test_spec, uuidRegex_lang in Huuid
    as (g1 & g2 & g3 & g4 & g5 & -> & [_ Ha] & [_ Hb] & [_ Hc] & [_ Hd]
        & [_ He]).
  pose (allows := fun x : ascii => hex_digit x || Ascii.eqb x "-").
  assert (Hweak : forall t, all_units hex_digit t = true ->
                            all_units allows t = true).
  { induction t as [| x t IH]; [reflexivity |]. cbn [all_units].
    intros H. apply andb_prop in H as [Hx Ht]. unfold allows at 1.
    rewrite Hx, IH by exact Ht. reflexivity. }
  assert (Hall : all_units allows
                   (g1 ++ "-" ++ g2 ++ "-" ++ g3 ++ "-" ++ g4 ++ "-" ++ g5)
                 = true).
  { rewrite !all_units_app.
    rewrite (Hweak _ Ha), (Hweak _ Hb), (Hweak _ Hc), (Hweak _ Hd),
      (Hweak _ He).
    reflexivity. }
  rewrite Hs in Hall. rewrite !all_units_app in Hall.
  apply andb_prop in Hall as [_ Hall]. apply andb_prop in Hall as [Hat _].
  vm_compute in Hat. discriminate Hat.
Qed.

(** X24: the age computed is the number of birthdays reached: the
    birthday of that many years after the birth is not after today, and
    the next one is; no other number has this property. *)
Theorem age_counts_the_birthdays_reached today dob :
  let age := calculateAge today dob in
  reached (getFullYear dob + age) (getMonth dob) (getDate dob) today
  /\ ~ reached (getFullYear dob + age + 1) (getMonth dob) (getDate dob) today
  /\ forall n,
       reached (getFullYear dob + n) (getMonth dob) (getDate dob) today ->
       ~ reached (getFullYear dob + n + 1) (getMonth dob) (getDate dob) today ->
       n = age.
Proof.
  cbn zeta. unfold calculateAge, reached.
  destruct (Z.ltb_spec (getMonth today - getMonth dob) 0);
    destruct (Z.eqb_spec (getMonth today - getMonth dob) 0);
    destruct (Z.ltb_spec (getDate today) (getDate dob));
    cbn [orb andb]; (split; [| split]); try lia.
Qed.

End FormatProperties.

Section StructureProperties.
Import JS Json Strategies Expected.

Implicit Types (user response part v : JsValue) (errs : list string).

Lemma bind_ok {S A B : Type} (m : M S A) (k : A -> M S B) s a s' :
  m s = (Ok a, s') -> bind m k s = k a s'.
Proof. unfold bind. intros ->. reflexivity. Qed.

Lemma bind_throw {S A B : Type} (m : M S A) (k : A -> M S B) s e s' :
  m s = (Throw e, s') -> bind m k s = (Throw e, s').
Proof. unfold bind. intros ->. reflexivity. Qed.

Lemma get_prop v key : nullish v = false -> get v key = Ok (prop v key).
Proof. destruct v; (discriminate || reflexivity). Qed.

Lemma lift_get {S : Type} v key (s : S) :
  nullish v = false -> lift (get v key) s = (Ok (prop v key), s).
Proof. intros Hv. unfold lift. rewrite get_prop by exact Hv. reflexivity. Qed.

Lemma check_required_run user field errs :
  nullish user = false ->
  shadows_hasOwnProperty user = false ->
  check_required user field errs =
  (Ok tt,
   if present user field then errs
   else (errs ++ [("Missing required field: " ++ field)%string])%list).
Proof.
  intros Hn Hown. unfold check_required, bind, lift.
  destruct user as [| | b | n | s | items | fields];
    try discriminate; try reflexivity.
  cbn [hasOwnProperty get present]. cbn [shadows_hasOwnProperty] in Hown.
  destruct (fields !! "hasOwnProperty"); [discriminate Hown |].
  destruct (fields !! field) as [value |] eqn:Hf.
  - rewrite bool_decide_true by eauto. cbn [negb default].
    destruct value; reflexivity.
  - rewrite bool_decide_false by (intros [? ?]; discriminate). reflexivity.
Qed.

Lemma required_loop user (l : list string) : forall errs,
  nullish user = false ->
  shadows_hasOwnProperty user = false ->
  forEach l (check_required user) errs =
  (Ok tt,
   (errs ++ map (fun field => ("Missing required field: " ++ field)%string)
              (List.filter (fun field => negb (present user field)) l))%list).
Proof.
  induction l as [| field l IH]; intros errs Hn Hown.
  - cbn. rewrite app_nil_r. reflexivity.
  - cbn [forEach].
    erewrite bind_ok by (apply check_required_run; assumption).
    rewrite IH by assumption. cbn [List.filter].
    destruct (present user field); cbn [negb map]; [reflexivity |].
    rewrite <- app_assoc. reflexivity.
Qed.

Lemma structured_spec part :
  truthy part && String.eqb (typeof part) "object" = structured part.
Proof.
  destruct part as [| | b | [| q | neg] | s | items | fields];
    cbn; rewrite ?andb_false_r; reflexivity.
Qed.

Lemma pair_check part key1 key2 text errs :
  (if truthy part && String.eqb (typeof part) "object"
   then
     let! first := lift (get part key1) in
     if negb (truthy first)
     then push text
     else
       let! second := lift (get part key2) in
       if negb (truthy second) then push text else ret tt
   else ret tt) errs =
  (Ok tt,
   (errs ++ (if lacks_one_of part key1 key2 then [text] else []))%list).
Proof.
  rewrite structured_spec. unfold lacks_one_of.
  destruct (structured part) eqn:Hs; cbn [andb].
  - assert (Hn : nullish part = false) by (destruct part; (discriminate || reflexivity)).
    erewrite bind_ok by (apply lift_get; exact Hn).
    destruct (truthy (prop part key1)); cbn [negb andb]; [| reflexivity].
    erewrite bind_ok by (apply lift_get; exact Hn).
    destruct (truthy (prop part key2)); cbn [negb]; [| reflexivity].
    unfold ret. rewrite app_nil_r. reflexivity.
  - unfold ret. rewrite app_nil_r. reflexivity.
Qed.

Lemma no_errors_iff (l : list string) :
  (Z.of_nat (length l) =? 0) = true <-> l = [].
Proof.
  destruct l; cbn; [tauto |]. split; [intros H | discriminate].
  apply Z.eqb_eq in H. lia.
Qed.

Lemma user_validate_returns user :
  nullish user = false ->
  shadows_hasOwnProperty user = false ->
  UserStructure_validate user =
  Ok {| isValid := Z.of_nat (length (user_defects user)) =? 0;
        errors := user_defects user;
        field := Some "user" |}.
Proof.
  intros Hn Hown. unfold UserStructure_validate.
  erewrite bind_ok by (apply required_loop; assumption).
  erewrite bind_ok by (apply lift_get; exact Hn).
  erewrite bind_ok by apply pair_check.
  erewrite bind_ok by (apply lift_get; exact Hn).
  erewrite bind_ok by apply pair_check.
  erewrite bind_ok by reflexivity.
  cbn [ret fst app]. unfold user_defects. rewrite <- !app_assoc.
  reflexivity.
Qed.

Lemma user_validate_throws user :
  nullish user = true \/ shadows_hasOwnProperty user = true ->
  exists text, UserStructure_validate user = Throw (TypeError text).
Proof.
  intros [Hn | Hown].
  - destruct user; try discriminate; eexists; reflexivity.
  - destruct user as [| | b | n | s | items | fields]; try discriminate.
    cbn [shadows_hasOwnProperty] in Hown.
    unfold UserStructure_validate, requiredFields.
    cbn [forEach]. unfold bind at 1. unfold bind at 1.
    unfold check_required at 1. unfold bind at 1, lift at 1.
    cbn [hasOwnProperty].
    destruct (fields !! "hasOwnProperty"); [| discriminate Hown].
    eexists. reflexivity.
Qed.

Lemma user_defects_nil user :
  user_defects user = [] <->
  (forall field, field ∈ requiredFields -> present user field = true)
  /\ lacks_one_of (prop user "name") "first" "last" = false
  /\ lacks_one_of (prop user "location") "city" "country" = false.
Proof.
  unfold user_defects. split.
  - intros H. apply app_eq_nil in H as [Hreq H].
    apply app_eq_nil in H as [Hname Hloc].
    split; [| split].
    + intros field Hin. apply list_elem_of_In in Hin.
      destruct (present user field) eqn:Hp; [reflexivity |].
      apply map_eq_nil in Hreq.
      assert (Hf : In field (List.filter (fun field => negb (present user field))
                               requiredFields)).
      { apply filter_In. rewrite Hp. auto. }
      rewrite Hreq in Hf. destruct Hf.
    + destruct (lacks_one_of (prop user "name") "first" "last");
        [discriminate | reflexivity].
    + destruct (lacks_one_of (prop user "location") "city" "country");
        [discriminate | reflexivity].
  - intros (Hreq & -> & ->). rewrite !app_nil_r.
    assert (Hfil : forall l : list string,
              (forall field, In field l -> present user field = true) ->
              List.filter (fun field => negb (present user field)) l = []).
    { induction l as [| f l IH]; intros Hl; [reflexivity |].
      cbn [List.filter]. rewrite (Hl f (or_introl eq_refl)). cbn [negb].
      apply IH. intros g Hg. apply Hl. right. exact Hg. }
    rewrite Hfil; [reflexivity |].
    intros field Hin. apply Hreq, list_elem_of_In, Hin.
Qed.

(** X25: the structure check of a user throws a [TypeError] on [undefined],
    on [null] and on an object that has a property of its own named
    ["hasOwnProperty"], and returns on every other datum; its errors are
    then the defects of the datum, one for each required field that is
    missing or [undefined], in the order of the fields, then one for a name
    and one for a location that is an object or an array without truthy
    parts; the datum is valid exactly when it has no defect.  A name or a
    location that is not an object or an array (a string, a number) is not
    looked into. *)
Theorem user_structure_check_reports_each_defect user :
  (nullish user = true \/ shadows_hasOwnProperty user = true ->
   exists text, UserStructure_validate user = Throw (TypeError text))
  /\ (nullish user = false ->
      shadows_hasOwnProperty user = false ->
      exists r,
        UserStructure_validate user = Ok r
        /\ errors r = user_defects user
        /\ field r = Some "user"
        /\ (isValid r = true <-> errors r = [])
        /\ (isValid r = true <->
            (forall field, field ∈ requiredFields ->
                           present user field = true)
            /\ lacks_one_of (prop user "name") "first" "last" = false
            /\ lacks_one_of (prop user "location") "city" "country" = false)).
Proof.
  split; [apply user_validate_throws |].
  intros Hn Hown. eexists.
  split; [apply user_validate_returns; assumption |].
  cbn [errors field isValid].
  split; [reflexivity |]. split; [reflexivity |].
  split; [apply no_errors_iff |].
  rewrite no_errors_iff. apply user_defects_nil.
Qed.

Lemma typeof_number v : String.eqb (typeof v) "number" = is_number v.
Proof. destruct v; reflexivity. Qed.

Lemma typeof_string v : String.eqb (typeof v) "string" = is_string v.
Proof. destruct v; reflexivity. Qed.

Lemma is_array_truthy v : negb (truthy v) || negb (isArray v) = negb (isArray v).
Proof. destruct v as [| | b | [| q | neg] | s | items | fields];
         try reflexivity; cbn; apply orb_true_r. Qed.

Lemma is_object_truthy v :
  negb (truthy v) || negb (String.eqb (typeof v) "object")
  = negb (structured v).
Proof.
  rewrite <- negb_andb, structured_spec. reflexivity.
Qed.

Lemma response_validate_returns response :
  nullish response = false ->
  ResponseStructure_validate response =
  Ok {| isValid := Z.of_nat (length (response_defects response)) =? 0;
        errors := response_defects response;
        field := Some "response" |}.
Proof.
  intros Hn. unfold ResponseStructure_validate, response_defects.
  erewrite bind_ok by (apply lift_get; exact Hn).
  rewrite is_array_truthy.
  set (info := prop response "info").
  assert (Hstep1 : forall errs,
            (if negb (isArray (prop response "results"))
             then push "Response must have results array" else ret tt) errs =
            (Ok tt, (errs ++ (if isArray (prop response "results")
                              then [] else ["Response must have results array"]))%list)).
  { intros errs. destruct (isArray (prop response "results")); cbn [negb];
      [unfold ret; rewrite app_nil_r |]; reflexivity. }
  erewrite bind_ok by apply Hstep1.
  erewrite bind_ok by (apply lift_get; exact Hn).
  fold info. rewrite is_object_truthy.
  destruct (structured info) eqn:Hs; cbn [negb].
  - assert (Hi : nullish info = false)
      by (destruct info; (discriminate || reflexivity)).
    assert (Hstep : forall (b : bool) text errs,
              (if negb b then push text else ret tt) errs =
              (Ok tt, (errs ++ (if b then [] else [text]))%list)).
    { intros b text errs. destruct b; cbn [negb];
        [unfold ret; rewrite app_nil_r |]; reflexivity. }
    erewrite bind_ok.
    2:{ erewrite bind_ok by (apply lift_get; exact Hi).
        rewrite typeof_number.
        erewrite bind_ok by apply Hstep.
        erewrite bind_ok by (apply lift_get; exact Hi).
        rewrite typeof_number.
        erewrite bind_ok by apply Hstep.
        erewrite bind_ok by (apply lift_get; exact Hi).
        rewrite typeof_string. apply Hstep. }
    erewrite bind_ok by reflexivity.
    cbn [ret fst app]. rewrite <- !app_assoc. reflexivity.
  - erewrite bind_ok by reflexivity.
    erewrite bind_ok by reflexivity.
    cbn [ret fst app]. reflexivity.
Qed.

Lemma response_defects_nil response :
  response_defects response = [] <->
  isArray (prop response "results") = true
  /\ structured (prop response "info") = true
  /\ is_number (prop (prop response "info") "results") = true
  /\ is_number (prop (prop response "info") "page") = true
  /\ is_string (prop (prop response "info") "seed") = true.
Proof.
  unfold response_defects.
  destruct (isArray (prop response "results"));
    destruct (structured (prop response "info"));
    destruct (is_number (prop (prop response "info") "results"));
    destruct (is_number (prop (prop response "info") "page"));
    destruct (is_string (prop (prop response "info") "seed"));
    cbn; split; try discriminate; try tauto;
    intros (? & ? & ? & ? & ?); discriminate.
Qed.

(** X26: the structure check of a response throws a [TypeError] on
    [undefined] and [null] and returns on every other datum; it is valid
    exactly when [results] is an array and [info] an object or an array
    whose [results] and [page] are numbers and whose [seed] is a string,
    and it names each of these that fails; the length of [results], the
    records in it and [info.version] are not looked at. *)
Theorem response_structure_check_reports_each_defect response :
  (nullish response = true ->
   exists text, ResponseStructure_validate response = Throw (TypeError text))
  /\ (nullish response = false ->
      exists r,
        ResponseStructure_validate response = Ok r
        /\ errors r = response_defects response
        /\ field r = Some "response"
        /\ (isValid r = true <-> errors r = [])
        /\ (isValid r = true <->
            isArray (prop response "results") = true
            /\ structured (prop response "info") = true
            /\ is_number (prop (prop response "info") "results") = true
            /\ is_number (prop (prop response "info") "page") = true
            /\ is_string (prop (prop response "info") "seed") = true)).
Proof.
  split.
  - intros Hn. destruct response; try discriminate; eexists; reflexivity.
  - intros Hn. eexists.
    split; [apply response_validate_returns; exact Hn |].
    cbn [errors field isValid].
    split; [reflexivity |]. split; [reflexivity |].
    split; [apply no_errors_iff |].
    rewrite no_errors_iff. apply response_defects_nil.
Qed.

Variable to_string : JsValue -> Res string.

(** X27: the validator made by [createFullUserValidator] accepts no datum:
    it hands the same datum to the structure check and, as a string, to
    the address check and to the identifier check, and no string passes
    both of these.  On a datum that is neither [undefined] nor [null], that
    has no property of its own named ["hasOwnProperty"] and that converts
    to a string, it returns the defects of the structure followed by the
    complaints of the format checks that fail, of which there is at least
    one; on [undefined], on [null] and on an object with such a property it
    throws the [TypeError] of the structure check. *)
Theorem full_user_validator_accepts_no_datum datum :
  (forall r log,
     composite_validate (createFullUserValidator to_string) datum [] = (Ok r, log) ->
     isValid r = false)
  /\ (forall text,
        nullish datum = false ->
        shadows_hasOwnProperty datum = false ->
        to_string datum = Ok text ->
        exists r,
          composite_validate (createFullUserValidator to_string) datum []
          = (Ok r, strategies (createFullUserValidator to_string))
          /\ isValid r = false
          /\ errors r =
             (user_defects datum
              ++ (if Helpers.isValidEmail text then []
                  else [("Invalid email format: " ++ text)%string])
              ++ (if Helpers.isValidUUID text then []
                  else [("Invalid UUID format: " ++ text)%string]))%list
          /\ (Helpers.isValidEmail text = false
              \/ Helpers.isValidUUID text = false))
  /\ (nullish datum = true \/ shadows_hasOwnProperty datum = true ->
      exists text,
        fst (composite_validate (createFullUserValidator to_string) datum [])
        = Throw (TypeError text)).
Proof.
  assert (Hrun : forall text,
            nullish datum = false ->
            shadows_hasOwnProperty datum = false ->
            to_string datum = Ok text ->
            composite_validate (createFullUserValidator to_string) datum []
            = (Ok {| isValid :=
                       (Z.of_nat (length (user_defects datum)) =? 0)
                       && Helpers.isValidEmail text
                       && Helpers.isValidUUID text;
                     errors :=
                       (user_defects datum
                        ++ (if Helpers.isValidEmail text then []
                            else [("Invalid email format: " ++ text)%string])
                        ++ (if Helpers.isValidUUID text then []
                            else [("Invalid UUID format: " ++ text)%string]))%list;
                     field := Some "composite" |},
               strategies (createFullUserValidator to_string))).
  { intros text Hn Hown Htext.
    unfold composite_validate, createFullUserValidator.
    cbn [strategies validate_loop]. unfold bind, call_validate.
    cbn [validate UserStructureValidationStrategy on_any
         EmailValidationStrategy UUIDValidationStrategy format_strategy].
    rewrite (user_validate_returns datum Hn Hown), Htext.
    cbn [isValid errors].
    generalize (user_defects datum). intros defects.
    destruct defects as [| defect defects].
    - destruct (Helpers.isValidEmail text), (Helpers.isValidUUID text);
        reflexivity.
    - cbn [length]. change (Z.of_nat (S (length defects)) =? 0) with false.
      destruct (Helpers.isValidEmail text), (Helpers.isValidUUID text);
        cbn; rewrite ?app_nil_r, <- ?app_assoc; reflexivity. }
  assert (Hexcl : forall text,
            Helpers.isValidEmail text && Helpers.isValidUUID text = false).
  { intros text. destruct (Helpers.isValidEmail text) eqn:He; [| reflexivity].
    rewrite (email_and_uuid_exclude_each_other text He). reflexivity. }
  assert (Hthrows : nullish datum = true \/ shadows_hasOwnProperty datum = true ->
            exists text,
              composite_validate (createFullUserValidator to_string) datum []
              = (Throw (TypeError text),
                 [UserStructureValidationStrategy])).
  { intros Hbad. destruct (user_validate_throws datum Hbad) as [msg Hthrow].
    exists msg.
    unfold composite_validate, createFullUserValidator.
    cbn [strategies validate_loop]. unfold bind, call_validate.
    cbn [validate UserStructureValidationStrategy].
    rewrite Hthrow. reflexivity. }
  split; [| split].
  - intros r log Hret.
    destruct (nullish datum) eqn:Hn.
    + exfalso. destruct (Hthrows (or_introl eq_refl)) as [msg Hthrow].
      rewrite Hthrow in Hret. discriminate Hret.
    + destruct (shadows_hasOwnProperty datum) eqn:Hown.
      { exfalso. destruct (Hthrows (or_intror eq_refl)) as [msg Hthrow].
        rewrite Hthrow in Hret. discriminate Hret. }
      destruct (to_string datum) as [text | e] eqn:Htext.
      * rewrite (Hrun text eq_refl eq_refl eq_refl) in Hret.
        injection Hret as <- _.
        cbn [isValid]. rewrite <- andb_assoc, Hexcl. apply andb_false_r.
      * exfalso.
        unfold composite_validate, createFullUserValidator in Hret.
        cbn [strategies validate_loop] in Hret.
        unfold bind, call_validate in Hret.
        cbn [validate UserStructureValidationStrategy on_any] in Hret.
        rewrite (user_validate_returns datum Hn Hown), Htext in Hret.
        cbn [isValid] in Hret.
        destruct (Z.of_nat (length (user_defects datum)) =? 0);
          discriminate Hret.
  - intros text Hn Hown Htext. eexists.
    split; [apply (Hrun text Hn Hown Htext) |].
    cbn [isValid errors].
    split; [rewrite <- andb_assoc, Hexcl; apply andb_false_r |].
    split; [reflexivity |].
    specialize (Hexcl text).
    destruct (Helpers.isValidEmail text); [right | left; reflexivity].
    exact Hexcl.
  - intros Hbad. destruct (Hthrows Hbad) as [msg ->]. exists msg. reflexivity.
Qed.

End StructureProperties.

Section ConfigProperties.
Import JS Config Expected.

Variable parseInt : string -> Number.
Variable toLowerCase : string -> string.

Implicit Types (penv : gmap string string) (config : AppConfig)
  (env : string).

Lemma env_var_insert penv key text :
  env_var (<[key := text]> penv) key
  = if truthy_string text then Some text else None.
Proof.
  unfold env_var, ProcessEnv. rewrite lookup_insert_eq. reflexivity.
Qed.

Lemma env_var_insert_ne penv key key' text :
  key <> key' -> env_var (<[key := text]> penv) key' = env_var penv key'.
Proof.
  intros Hne. unfold env_var, ProcessEnv.
  rewrite lookup_insert_ne by exact Hne. reflexivity.
Qed.

Lemma quiet_insert penv env : quiet penv -> quiet (<["NODE_ENV" := env]> penv).
Proof.
  unfold quiet. intros (H1 & H2 & H3 & H4).
  rewrite !env_var_insert_ne by discriminate. auto.
Qed.

(** Under a quiet process environment, loading is decided by [NODE_ENV]
    alone. *)
Lemma load_quiet penv config :
  quiet penv ->
  snd (loadEnvironmentConfig parseInt toLowerCase penv config) =
  let env := default "development" (env_var penv "NODE_ENV") in
  if String.eqb env "production" then
    set_testing_performanceThreshold (Int 3000)
      (set_testing_enableLogging false
         (set_api_retryAttempts (Int 5)
            (set_api_timeout (Int 30000) (set_environment env config))))
  else if String.eqb env "testing" then
    set_testing_maxConcurrentRequests (Int 5)
      (set_testing_enableLogging false
         (set_api_retryAttempts (Int 1)
            (set_api_timeout (Int 5000) (set_environment env config))))
  else set_environment env config.
Proof.
  intros (H1 & H2 & H3 & H4). unfold loadEnvironmentConfig.
  rewrite H1, H2, H3, H4. cbn zeta.
  destruct (String.eqb _ "production"); [reflexivity |].
  destruct (String.eqb _ "testing"); reflexivity.
Qed.

Lemma restore_env penv env :
  snd (getConfigForEnvironment parseInt toLowerCase env penv) =
  match env_var penv "NODE_ENV" with
  | Some _ => penv
  | None => delete "NODE_ENV" penv
  end.
Proof.
  unfold getConfigForEnvironment, bind, gets, modify, ret, env_var.
  unfold ProcessEnv in *.
  destruct (penv !! "NODE_ENV") as [text |] eqn:Henv.
  - destruct (truthy_string text); cbn [snd].
    + rewrite insert_insert_eq. apply insert_id. exact Henv.
    + apply delete_insert_eq.
  - cbn [snd]. apply delete_insert_eq.
Qed.

(** X28: [getConfigForEnvironment] puts [NODE_ENV] back as it was, except
    that a [NODE_ENV] set to the empty text ends up unset.  Under a process
    environment without overriding variables and whose own [NODE_ENV] is
    neither production nor testing, it returns the settings of the
    environment asked for.  The settings are layered on those of the
    ambient environment, which is loaded first: asked for production while
    [NODE_ENV] is testing, it returns the concurrency limit of testing with
    the other settings of production. *)
Theorem environment_settings_are_layered_on_the_ambient_ones penv env :
  snd (getConfigForEnvironment parseInt toLowerCase env penv) =
    match env_var penv "NODE_ENV" with
    | Some _ => penv
    | None => delete "NODE_ENV" penv
    end
  /\ (quiet penv -> plain_ambient penv ->
      fst (getConfigForEnvironment parseInt toLowerCase env penv)
      = Ok (preset env))
  /\ (quiet penv -> env_var penv "NODE_ENV" = Some "testing" ->
      fst (getConfigForEnvironment parseInt toLowerCase "production" penv)
      = Ok (set_testing_maxConcurrentRequests (Int 5) (preset "production"))).
Proof.
  split; [apply restore_env |]. split.
  - intros Hq [Hp Ht].
    unfold getConfigForEnvironment, bind, gets, modify, ret, new_ConfigManager.
    unfold ProcessEnv in *.
    assert (Hfst : forall (o : option string) (c : AppConfig) (p : gmap string string),
              fst (let (r, s') :=
                     match o with
                     | Some text =>
                         if truthy_string text
                         then fun s => (Ok tt, <["NODE_ENV" := text]> s)
                         else fun s => (Ok tt, delete "NODE_ENV" s)
                     | None => fun s => (Ok tt, delete "NODE_ENV" s)
                     end p in
                   match r with
                   | Ok _ => (Ok (getConfig c), s')
                   | Throw e => (Throw e, s')
                   end) = Ok c).
    { intros [text |] c p; [destruct (truthy_string text) |]; reflexivity. }
    rewrite Hfst.
    rewrite (load_quiet _ _ (quiet_insert penv env Hq)).
    rewrite (load_quiet _ _ Hq). cbn zeta.
    rewrite env_var_insert.
    set (ambient := default "development" (env_var penv "NODE_ENV")).
    assert (Ha1 : String.eqb ambient "production" = false).
    { apply String.eqb_neq. unfold ambient.
      destruct (env_var penv "NODE_ENV"); cbn; congruence. }
    assert (Ha2 : String.eqb ambient "testing" = false).
    { apply String.eqb_neq. unfold ambient.
      destruct (env_var penv "NODE_ENV"); cbn; congruence. }
    rewrite Ha1, Ha2. unfold preset.
    destruct (String.eqb_spec env "") as [-> | Hne]; [reflexivity |].
    assert (Htruthy : truthy_string env = true).
    { unfold truthy_string. apply negb_true_iff, String.eqb_neq. exact Hne. }
    rewrite Htruthy. cbn [default from_option]. unfold id.
    destruct (String.eqb_spec env "production") as [-> | _]; [reflexivity |].
    destruct (String.eqb_spec env "testing") as [-> | _]; reflexivity.
  - intros Hq Hamb.
    unfold getConfigForEnvironment, bind, gets, modify, ret, new_ConfigManager.
    unfold ProcessEnv in *.
    assert (Hfst : forall (o : option string) (c : AppConfig) (p : gmap string string),
              fst (let (r, s') :=
                     match o with
                     | Some text =>
                         if truthy_string text
                         then fun s => (Ok tt, <["NODE_ENV" := text]> s)
                         else fun s => (Ok tt, delete "NODE_ENV" s)
                     | None => fun s => (Ok tt, delete "NODE_ENV" s)
                     end p in
                   match r with
                   | Ok _ => (Ok (getConfig c), s')
                   | Throw e => (Throw e, s')
                   end) = Ok c).
    { intros [text |] c p; [destruct (truthy_string text) |]; reflexivity. }
    rewrite Hfst.
    rewrite (load_quiet _ _ (quiet_insert penv "production" Hq)).
    rewrite (load_quiet _ _ Hq). cbn zeta.
    rewrite env_var_insert, Hamb. reflexivity.
Qed.

Lemma push_if (b : bool) text (errs : list string) :
  (if b then push text else ret tt) errs
  = (Ok tt, (errs ++ (if b then [text] else []))%list).
Proof. destruct b; [reflexivity |]. unfold ret. rewrite app_nil_r. reflexivity. Qed.

Lemma bind_step {S A B : Type} (m : M S A) (k : A -> M S B) s a s' :
  m s = (Ok a, s') -> bind m k s = k a s'.
Proof. unfold bind. intros ->. reflexivity. Qed.

(** X29: [validateConfig] reports, in this order, a base address that is
    absent or empty, a timeout, a concurrency limit and a threshold that
    are whole numbers not above 0, and a negative number of attempts; the
    configuration is valid exactly when it reports nothing.  A number that
    is absent or [NaN], as [parseInt] gives for a variable without digits,
    passes every check. *)
Theorem config_validation_reports_each_defect config :
  errors (validateConfig config) =
    ((if negb (truthy_string (default "" (baseUrl (api config))))
      then ["API base URL is required"] else [])
     ++ (if le_zero (timeout (api config))
         then ["API timeout must be positive"] else [])
     ++ (if lt_zero (retryAttempts (api config))
         then ["Retry attempts cannot be negative"] else [])
     ++ (if le_zero (maxConcurrentRequests (testing config))
         then ["Max concurrent requests must be positive"] else [])
     ++ (if le_zero (performanceThreshold (testing config))
         then ["Performance threshold must be positive"] else []))%list
  /\ (isValid (validateConfig config) = true
      <-> errors (validateConfig config) = [])
  /\ (isValid (validateConfig config) = true <->
      (exists text, baseUrl (api config) = Some text /\ text <> "")
      /\ (forall z, timeout (api config) = Some (Int z) -> 0 < z)
      /\ (forall z, retryAttempts (api config) = Some (Int z) -> 0 <= z)
      /\ (forall z, maxConcurrentRequests (testing config) = Some (Int z) ->
                    0 < z)
      /\ (forall z, performanceThreshold (testing config) = Some (Int z) ->
                    0 < z)).
Proof.
  assert (Herr : errors (validateConfig config) =
    ((if negb (truthy_string (default "" (baseUrl (api config))))
      then ["API base URL is required"] else [])
     ++ (if le_zero (timeout (api config))
         then ["API timeout must be positive"] else [])
     ++ (if lt_zero (retryAttempts (api config))
         then ["Retry attempts cannot be negative"] else [])
     ++ (if le_zero (maxConcurrentRequests (testing config))
         then ["Max concurrent requests must be positive"] else [])
     ++ (if le_zero (performanceThreshold (testing config))
         then ["Performance threshold must be positive"] else []))%list).
  { unfold validateConfig. cbn [errors].
    erewrite bind_step by apply push_if.
    erewrite bind_step by apply push_if.
    erewrite bind_step by apply push_if.
    erewrite bind_step by apply push_if.
    rewrite push_if. cbn [snd app]. rewrite <- !app_assoc. reflexivity. }
  assert (Hvalid : isValid (validateConfig config) = true
                   <-> errors (validateConfig config) = []).
  { unfold validateConfig. cbn [isValid errors].
    match goal with |- context [length ?l] => generalize l end.
    intros l. destruct l; cbn; [tauto |].
    split; [intros H; apply Z.eqb_eq in H; lia | discriminate]. }
  split; [exact Herr |]. split; [exact Hvalid |].
  rewrite Hvalid, Herr.
  assert (Hle : forall n : option Number,
            le_zero n = false <-> forall z, n = Some (Int z) -> 0 < z).
  { intros [[| z] |]; cbn; split; try discriminate; try reflexivity.
    - intros H z' Hz. injection Hz as <-. apply Z.leb_gt in H. exact H.
    - intros H. apply Z.leb_gt. apply H. reflexivity. }
  assert (Hlt : forall n : option Number,
            lt_zero n = false <-> forall z, n = Some (Int z) -> 0 <= z).
  { intros [[| z] |]; cbn; split; try discriminate; try reflexivity.
    - intros H z' Hz. injection Hz as <-. apply Z.ltb_ge in H. exact H.
    - intros H. apply Z.ltb_ge. apply H. reflexivity. }
  rewrite <- !Hle, <- Hlt.
  assert (Hbase : negb (truthy_string (default "" (baseUrl (api config)))) = false
                  <-> exists text, baseUrl (api config) = Some text /\ text <> "").
  { unfold truthy_string. rewrite negb_involutive.
    destruct (baseUrl (api config)) as [text |]; cbn [default].
    - rewrite String.eqb_neq. split; [eauto |].
      intros (t & Ht & Hne). injection Ht as ->. exact Hne.
    - split; [discriminate | intros (t & Ht & _); discriminate]. }
  rewrite <- Hbase.
  destruct (negb _), (le_zero (timeout _)), (lt_zero _),
    (le_zero (maxConcurrentRequests _)), (le_zero (performanceThreshold _));
    cbn; split; try discriminate; try tauto;
    intros (? & ? & ? & ? & ?); discriminate.
Qed.

(** X30: a [ConfigBuilder] replaces whole sections: the configuration
    that it builds has, for each section that the builder was given, the
    settings given for that section and no other, so that the settings of
    the manager in that section are lost, its base address among them; the
    sections that the builder was not given, and the environment unless
    given, are those of the manager.  Settings given to the builder in
    several calls add up, the later ones first.  [applyToManager] makes
    the manager hold that same configuration. *)
Theorem builder_replaces_whole_sections rt given later :
  exists config,
    fst (getInstance parseInt toLowerCase rt) = Ok config
    /\ fst (build parseInt toLowerCase (withApiConfig given new_ConfigBuilder) rt)
       = Ok {| api := given;
               testing := testing config;
               reporting := reporting config;
               environment := environment config |}
    /\ fst (build parseInt toLowerCase
              (withApiConfig later (withApiConfig given new_ConfigBuilder)) rt)
       = Ok {| api := spread_api given later;
               testing := testing config;
               reporting := reporting config;
               environment := environment config |}
    /\ fst (build parseInt toLowerCase new_ConfigBuilder rt) = Ok config
    /\ instance (snd (applyToManager parseInt toLowerCase
                        (withApiConfig given new_ConfigBuilder) rt))
       = Some {| api := given;
                 testing := testing config;
                 reporting := reporting config;
                 environment := environment config |}.
Proof.
  unfold build, applyToManager, bind, modify, ret, getConfig, updateConfig.
  assert (Hspread : forall a : ApiSection, spread_api empty_api a = a).
  { intros [b t r d]. unfold spread_api, over. cbn.
    destruct b, t, r, d; reflexivity. }
  destruct (getInstance parseInt toLowerCase rt) as [[config | e] rt'] eqn:Hrun.
  - exists config.
    cbn [fst snd instance withApiConfig new_ConfigBuilder p_api default
         from_option].
    unfold spread_config, withApiConfig, new_ConfigBuilder.
    cbn [p_api p_testing p_reporting p_environment default from_option].
    unfold id. rewrite !Hspread.
    repeat split. destruct config. reflexivity.
  - exfalso. unfold getInstance in Hrun.
    destruct (instance rt); discriminate Hrun.
Qed.

End ConfigProperties.


(** ** Further runs on the test doubles *)

(** The testing client against the service that is unavailable twice:
    a run of requests separated by waits, fewer requests than the three
    attempts allowed would take beyond the third. *)
Lemma attempts_and_waits_on_flaky_service :
  exists k : nat,
    Z.of_nat k < Client.retryAttempts testing_client
    /\ Client.events (snd (Client.getUsers testing_client ∅ (boot flaky))) =
       (Client.events (boot flaky)
          ++ backoff_schedule testing_client
               (Client.spread Client.defaultParams ∅) 1 k
          ++ [Client.Requested (Client.spread Client.defaultParams ∅)])%list
    /\ Client.network_calls
         (snd (Client.getUsers testing_client ∅ (boot flaky)))
       = (Client.network_calls (boot flaky) + k + 1)%nat
    /\ Client.waits (snd (Client.getUsers testing_client ∅ (boot flaky))) =
       (Client.waits (boot flaky)
          ++ map (fun i => Client.retryDelay testing_client
                           * 2 ^ (Z.of_nat i - 1))
                 (seq 1 k))%list.
Proof.
  apply (every_call_is_attempts_separated_by_doubling_waits
           testing_client ∅ (boot flaky)).
  vm_compute. discriminate.
Defined.

(** The testing client against the service that is unavailable twice: the
    delays asked come to 3000 ms at most, and the call lasts as long. *)
Lemma backoff_time_on_flaky_service :
  exists (k : nat) (added : list Z),
    Client.network_calls
      (snd (Client.getUsers testing_client ∅ (boot flaky)))
      = (Client.network_calls (boot flaky) + k + 1)%nat
    /\ Client.waits (snd (Client.getUsers testing_client ∅ (boot flaky)))
       = (Client.waits (boot flaky) ++ added)%list
    /\ length added = k
    /\ fold_right Z.add 0 added
       = Client.retryDelay testing_client * (2 ^ Z.of_nat k - 1)
    /\ fold_right Z.add 0 added
       <= Client.retryDelay testing_client
          * (2 ^ (Client.retryAttempts testing_client - 1) - 1)
    /\ ((forall ms, In ms added -> ms <= 2147483647) ->
        fold_right Z.add 0 added
        <= Client.clock (snd (Client.getUsers testing_client ∅ (boot flaky)))
           - Client.clock (boot flaky)).
Proof.
  apply (backoff_asked_is_bounded_and_waited_out testing_client ∅ (boot flaky)).
  - vm_compute. discriminate.
  - vm_compute. discriminate.
Defined.

(** The testing client against the service that is always unavailable:
    three requests, two waits, then the error for status 503. *)
Lemma retries_exhausted_on_service_that_is_down :
  fst (Client.getUsers testing_client ∅ (boot down))
    = Throw (Client.handleError
               (AxiosError (Some 503) true "Request failed with status code 503"))
  /\ Client.network_calls (snd (Client.getUsers testing_client ∅ (boot down)))
     = (Client.network_calls (boot down)
        + Z.to_nat (Client.retryAttempts testing_client))%nat
  /\ length (Client.waits (snd (Client.getUsers testing_client ∅ (boot down))))
     = (length (Client.waits (boot down))
        + (Z.to_nat (Client.retryAttempts testing_client) - 1))%nat.
Proof.
  apply (exhausted_retries_rethrow_the_last_failure testing_client ∅ (boot down)
           (fun _ => AxiosError (Some 503) true
                       "Request failed with status code 503")).
  - vm_compute. discriminate.
  - intros j _. split; reflexivity.
Defined.

(** The error thrown for a 404. *)
Lemma not_found_is_reported_as_a_plain_error :
  exists text,
    Error "API request failed with status 404: Not Found - Invalid endpoint"
      = Error text
    /\ (text = "No response from server - Network error or timeout"
        \/ (exists (st : Z) rest,
              text = ("API request failed with status " ++ pretty st
                      ++ ": " ++ rest)%string)
        \/ (exists rest, text = ("Request configuration error: " ++ rest)%string)).
Proof.
  apply (getUsers_throws_only_described_errors testing_client ∅ (boot missing)).
  vm_compute. reflexivity.
Defined.

(** A field list with a name in upper case is rejected; the same names in
    lower case go out. *)
Lemma field_lists_of_the_tests :
  (Client.getUsersWithFields testing_client ["name"; "EMAIL"] 1 (boot healthy) =
     (Throw (Error ("Invalid fields: "
                    ++ array_join ", " (Client.invalidFields ["name"; "EMAIL"]))),
      boot healthy)
   /\ Client.getUsersWithoutFields testing_client ["name"; "EMAIL"] 1
        (boot healthy) =
     (Throw (Error ("Invalid fields: "
                    ++ array_join ", " (Client.invalidFields ["name"; "EMAIL"]))),
      boot healthy))
  /\ (Client.getUsersWithFields testing_client ["name"; "email"] 1 (boot healthy) =
        Client.getUsers testing_client
          {[ "inc" := Client.PStr (array_join "," ["name"; "email"]);
             "results" := Client.PNum 1 ]} (boot healthy)
      /\ Client.getUsersWithoutFields testing_client ["name"; "email"] 1
           (boot healthy) =
        Client.getUsers testing_client
          {[ "exc" := Client.PStr (array_join "," ["name"; "email"]);
             "results" := Client.PNum 1 ]} (boot healthy)).
Proof.
  split.
  - apply (proj1 (proj2 (field_lists_are_checked_before_the_call
                           testing_client ["name"; "EMAIL"] 1 (boot healthy)))).
    intros Hall. inversion Hall as [| ? ? _ Hrest]. subst.
    inversion Hrest as [| ? ? Hemail _]. subst.
    apply (bool_decide_pack _) in Hemail. vm_compute in Hemail.
    exact Hemail.
  - apply (proj2 (proj2 (field_lists_are_checked_before_the_call
                           testing_client ["name"; "email"] 1 (boot healthy)))).
    repeat constructor; apply bool_decide_unpack; vm_compute; exact I.
Defined.

(** A code in lower case is accepted and sent in upper case; a
    three-letter code is rejected. *)
Lemma nationalities_of_the_tests :
  Client.getUsersByNationality upper_ascii testing_client "USA" 1 (boot healthy) =
    (Throw (Error ("Unsupported nationality: " ++ "USA")), boot healthy)
  /\ Client.getUsersByNationality upper_ascii testing_client "gb" 1
       (boot healthy) =
     Client.getUsers testing_client
       {[ "nat" := Client.PStr (upper_ascii "gb");
          "results" := Client.PNum 1 ]} (boot healthy).
Proof.
  split.
  - apply (proj1 (nationality_is_checked_and_sent_in_upper_case upper_ascii
                    testing_client "USA" 1 (boot healthy))).
    intros Hin. apply (bool_decide_pack _) in Hin. vm_compute in Hin.
    exact Hin.
  - refine (proj1 (proj2 (nationality_is_checked_and_sent_in_upper_case
                            upper_ascii testing_client "gb" 1 (boot healthy))
                      _)).
    apply (bool_decide_unpack _). vm_compute. exact I.
Defined.

(** A performance command whose operation rejects with an error reports
    its message; one whose operation rejects with [null] rejects; a fetch
    on the service that is down reports the failure. *)
Lemma performance_commands_on_rejecting_operations :
  Commands.execute
    (Commands.PerformanceTestCommand (throw (Error "socket hang up"))
       "fetch" None) (boot healthy) =
    (Ok {| Observers.testName := "PerformanceTest(fetch)";
           Observers.status := Observers.failed;
           Observers.duration := 0;
           Observers.error := Some "socket hang up";
           Observers.timestamp := 0 |}, boot healthy)
  /\ (exists text,
        Commands.execute
          (Commands.PerformanceTestCommand (throw Null) "fetch" None)
          (boot healthy) = (Throw (TypeError text), boot healthy))
  /\ reports_pass_or_failure (Commands.FetchSingleUserCommand testing_client)
       (boot down).
Proof.
  split; [| split].
  - exact (proj1 (proj2 (proj1 (proj2 (proj2 (proj2
             (client_commands_capture_failures_as_results testing_client
                (boot healthy)))))
             (throw (Error "socket hang up")) "fetch" None))
             (Error "socket hang up") (boot healthy) (Some "socket hang up")
             eq_refl eq_refl).
  - exact (proj2 (proj2 (proj1 (proj2 (proj2 (proj2
             (client_commands_capture_failures_as_results testing_client
                (boot healthy)))))
             (throw Null) "fetch" None))
             Null (boot healthy) eq_refl eq_refl).
  - exact (proj1 (client_commands_capture_failures_as_results testing_client
                    (boot down))).
Defined.

(** A bulk fetch of 0 records fails on the count check without a network
    call; a bulk fetch of 5 on the healthy service passes after one call. *)
Lemma bulk_fetch_commands_on_healthy_service :
  (exists r,
     Commands.execute fetch_none (boot healthy) = (Ok r, boot healthy)
     /\ Observers.status r = Observers.failed
     /\ Observers.error r = Some "Count must be between 1 and 5000")
  /\ exists r w',
       Commands.execute fetch_five (boot healthy) = (Ok r, w')
       /\ Client.network_calls w' = S (Client.network_calls (boot healthy))
       /\ (Observers.status r = Observers.passed
           <-> Z.of_nat (length (Client.results (payload 5))) = 5)
       /\ (Observers.status r = Observers.failed ->
           Observers.error r =
             Some ("Expected " ++ pretty 5 ++ " users, got "
                   ++ pretty (Z.of_nat (length (Client.results (payload 5)))))).
Proof.
  split.
  - apply (proj1 (bulk_fetch_command_judges_the_count testing_client 0
                    (boot healthy))).
    left. lia.
  - apply (proj2 (bulk_fetch_command_judges_the_count testing_client 5
                    (boot healthy)) 200 (payload 5)).
    + lia.
    + vm_compute. reflexivity.
    + lia.
Defined.

(** After two fetches on a fresh invoker, an undo followed by a redo gives
    the invoker back with both entries and the cursor on the second. *)
Lemma undo_then_redo_after_two_fetches :
  let s := Commands.run_ops
             [Commands.OpExecute fetch_one; Commands.OpExecute fetch_two]
             (Commands.new_TestCommandInvoker, start_env healthy) in
  (forall s1,
     Commands.undoLastCommand (fst s, snd s) = (Ok tt, s1) ->
     fst s1 = Commands.set_currentIndex
                (Commands.currentIndex (fst s) - 1) (fst s)
     /\ snd s1 = snd (Commands.call_undo fetch_two (snd s))
     /\ Commands.redoCommand s1 =
        (res_map Some (fst (Commands.call_execute fetch_two (snd s1))),
         (fst s, snd (Commands.call_execute fetch_two (snd s1)))))
  /\ (forall e s1,
        Commands.undoLastCommand (fst s, snd s) = (Throw e, s1) ->
        fst s1 = fst s /\ fst (Commands.call_undo fetch_two (snd s)) = Throw e).
Proof.
  intros s.
  apply (undo_then_redo_restores_the_invoker Client.World (fst s) (snd s)
           fetch_two).
  - reflexivity.
  - vm_compute. discriminate.
Defined.

(** Executing a third fetch after an undo drops the undone entry. *)
Lemma execute_on_an_undone_history :
  let s := Commands.run_ops
             [Commands.OpExecute fetch_one; Commands.OpExecute fetch_two;
              Commands.OpUndo]
             (Commands.new_TestCommandInvoker, start_env healthy) in
  let i' := fst (snd (Commands.executeCommand fetch_five s)) in
  Commands.history i' =
    (take (Z.to_nat (Commands.currentIndex (fst s) + 1))
       (Commands.history (fst s)) ++ [fetch_five])%list
  /\ Commands.currentIndex i' = Commands.currentIndex (fst s) + 1
  /\ index (Commands.history i') (Commands.currentIndex i')
     = Some fetch_five
  /\ Commands.canUndo i' = true
  /\ Commands.canRedo i' = false
  /\ Commands.history (fst (snd (Commands.undoLastCommand s)))
     = Commands.history (fst s)
  /\ Commands.history (fst (snd (Commands.redoCommand s)))
     = Commands.history (fst s)
  /\ Commands.currentIndex (fst s) - 1
     <= Commands.currentIndex (fst (snd (Commands.undoLastCommand s)))
     <= Commands.currentIndex (fst s)
  /\ Commands.currentIndex (fst s)
     <= Commands.currentIndex (fst (snd (Commands.redoCommand s)))
     <= Commands.currentIndex (fst s) + 1.
Proof.
  intros s.
  apply (execute_appends_and_undo_redo_only_move_the_cursor Client.World s
           fetch_five).
  vm_compute. split; [discriminate | reflexivity].
Defined.


(** A macro whose second sub-command throws an error: the macro fails with
    the message thrown and the third sub-command is not executed.  When
    the second sub-command rejects with [null] instead, the macro
    rejects. *)
Lemma macro_with_an_exploding_subcommand :
  let m := Commands.new_MacroTestCommand "Smoke" "Fetches in a row"
             (Some [fetch_one; exploding; fetch_five]) in
  let stuck := Commands.new_MacroTestCommand "Stuck" "Fetches in a row"
                 (Some [fetch_one; choking; fetch_five]) in
  let env1 := snd (Commands.call_execute fetch_one (start_env healthy)) in
  let env2 := snd (Commands.call_execute exploding env1) in
  let env3 := snd (Commands.call_execute choking env1) in
  (Commands.calls env2 =
     (Commands.calls (start_env healthy)
        ++ map Commands.Executed ([fetch_one] ++ [exploding]))%list
   /\ Commands.MacroTestCommand_execute Commands.client_now m
        (start_env healthy) =
      (Ok {| Observers.testName := Commands.name m;
             Observers.status := Observers.failed;
             Observers.duration :=
               Commands.client_now (Commands.world env2)
               - Commands.client_now (Commands.world (start_env healthy));
             Observers.error := Some "exploded";
             Observers.timestamp :=
               Commands.client_now (Commands.world env2) |},
       env2))
  /\ (exists text,
        Commands.MacroTestCommand_execute Commands.client_now stuck
          (start_env healthy) = (Throw (TypeError text), env3)).
Proof.
  intros m stuck env1 env2 env3.
  assert (Hfirst : all_pass [fetch_one] (start_env healthy) = Some env1).
  { rewrite (all_pass_cons_passing fetch_one [] (start_env healthy)
               {| Observers.testName := "FetchSingleUser";
                  Observers.status := Observers.passed;
                  Observers.duration := 0;
                  Observers.error := None;
                  Observers.timestamp := 0 |}).
    + reflexivity.
    + vm_compute. reflexivity.
    + reflexivity. }
  pose proof (proj2 (proj2 (macro_execute_returns_unless_null_is_thrown
                              Client.World Commands.client_now))) as Hthrown.
  split.
  - destruct (Hthrown m [fetch_one] exploding [fetch_five] (start_env healthy)
                env1 (Error "exploded") env2) as (Hcalls & Hmessage & _).
    + reflexivity.
    + exact Hfirst.
    + apply pair_of_fst. reflexivity.
    + split; [exact Hcalls |].
      exact (Hmessage (Some "exploded") eq_refl).
  - destruct (Hthrown stuck [fetch_one] choking [fetch_five]
                (start_env healthy) env1 Null env3) as (_ & _ & Hnull).
    + reflexivity.
    + exact Hfirst.
    + apply pair_of_fst. reflexivity.
    + exact (Hnull eq_refl).
Defined.


(** Of four results lasting 7, 3, 3 and 9 ms the second is the fastest
    and the fourth the slowest; two results of 0 ms leave the slowest test
    unnamed. *)
Lemma extremes_of_four_results :
  let a := timed "a" 7 in
  let b := timed "b" 3 in
  let c := timed "c" 3 in
  let d := timed "d" 9 in
  Observers.fastestTest (Observers.metrics_after ([a] ++ b :: [c; d]))
    = {| Observers.name := Observers.testName b;
         Observers.named_duration := Observers.Finite (Observers.duration b) |}
  /\ Observers.slowestTest (Observers.metrics_after ([a; b; c] ++ d :: []))
     = {| Observers.name := Observers.testName d;
          Observers.named_duration := Observers.Finite (Observers.duration d) |}
  /\ Observers.slowestTest
       (Observers.metrics_after ([] ++ instant_result :: [instant_result]))
     = {| Observers.name := ""; Observers.named_duration := Observers.Finite 0 |}.
Proof.
  intros a b c d. split; [| split].
  - apply (proj1 (metrics_extremes_are_the_earliest_extreme_results
                    [a] b [c; d])).
    + intros x [<- | []]. reflexivity.
    + intros x [<- | [<- | []]]; discriminate.
  - apply (proj1 (proj2 (metrics_extremes_are_the_earliest_extreme_results
                           [a; b; c] d []))).
    + reflexivity.
    + intros x [<- | [<- | [<- | []]]]; reflexivity.
    + intros x [].
  - apply (proj2 (proj2 (metrics_extremes_are_the_earliest_extreme_results
                           [] instant_result [instant_result]))).
    intros x [<- | [<- | []]]; discriminate.
Defined.

(** Two results lasting 7 and 3 ms: two tests, 10 ms in all. *)
Lemma totals_of_two_results :
  let received := [timed "a" 7; timed "b" 3] in
  let m := Observers.metrics_after received in
  Observers.totalTests m = Z.of_nat (length received)
  /\ Observers.passedTests m = count_status Observers.passed received
  /\ Observers.failedTests m = count_status Observers.failed received
  /\ Observers.skippedTests m = count_status Observers.skipped received
  /\ Observers.totalTests m =
     Observers.passedTests m + Observers.failedTests m
     + Observers.skippedTests m
  /\ Observers.totalDuration m = sum_durations received
  /\ 0 <= Observers.totalDuration m < 2 ^ 53
  /\ Observers.metrics_reset m = Observers.metrics_after [].
Proof.
  intros received.
  apply (metrics_count_and_total_the_results received).
  - intros r [<- | [<- | []]]; vm_compute; discriminate.
  - vm_compute. reflexivity.
Defined.

(** The structure check throws on [null] and on an object with a property
    named ["hasOwnProperty"], and accepts the record of the tests. *)
Lemma structure_of_a_record :
  (exists text,
     Strategies.UserStructure_validate Json.JNull = Throw (TypeError text))
  /\ (exists text,
        Strategies.UserStructure_validate
          (Json.JObject {[ "hasOwnProperty" := Json.JBool true ]})
        = Throw (TypeError text))
  /\ exists r,
       Strategies.UserStructure_validate ada = Ok r
       /\ Strategies.errors r = user_defects ada
       /\ Strategies.field r = Some "user"
       /\ (Strategies.isValid r = true <-> Strategies.errors r = [])
       /\ (Strategies.isValid r = true <->
           (forall field, field ∈ Strategies.requiredFields ->
                          present ada field = true)
           /\ lacks_one_of (prop ada "name") "first" "last" = false
           /\ lacks_one_of (prop ada "location") "city" "country" = false).
Proof.
  split; [| split].
  - apply (proj1 (user_structure_check_reports_each_defect Json.JNull)).
    left. reflexivity.
  - apply (proj1 (user_structure_check_reports_each_defect
                    (Json.JObject {[ "hasOwnProperty" := Json.JBool true ]}))).
    right. vm_compute. reflexivity.
  - apply (proj2 (user_structure_check_reports_each_defect ada)).
    + reflexivity.
    + vm_compute. reflexivity.
Defined.

(** The structure check of a response throws on [undefined] and returns
    on the response of the tests. *)
Lemma structure_of_a_response :
  (exists text,
     Strategies.ResponseStructure_validate Json.JUndefined
       = Throw (TypeError text))
  /\ exists r,
       Strategies.ResponseStructure_validate page_of_one = Ok r
       /\ Strategies.errors r = response_defects page_of_one
       /\ Strategies.field r = Some "response"
       /\ (Strategies.isValid r = true <-> Strategies.errors r = [])
       /\ (Strategies.isValid r = true <->
           Json.isArray (prop page_of_one "results") = true
           /\ structured (prop page_of_one "info") = true
           /\ is_number (prop (prop page_of_one "info") "results") = true
           /\ is_number (prop (prop page_of_one "info") "page") = true
           /\ is_string (prop (prop page_of_one "info") "seed") = true).
Proof.
  split.
  - apply (proj1 (response_structure_check_reports_each_defect
                    Json.JUndefined)).
    reflexivity.
  - apply (proj2 (response_structure_check_reports_each_defect page_of_one)).
    reflexivity.
Defined.

(** The full validator on the record of the tests: the record is turned
    into ["[object Object]"], which is neither an address nor an
    identifier.  On [null] the validator throws. *)
Lemma full_validator_on_a_record :
  (exists r,
     Strategies.composite_validate
       (Strategies.createFullUserValidator plain_to_string) ada []
     = (Ok r, Strategies.strategies
                (Strategies.createFullUserValidator plain_to_string))
     /\ Strategies.isValid r = false
     /\ Strategies.errors r =
        (user_defects ada
         ++ (if Helpers.isValidEmail "[object Object]" then []
             else [("Invalid email format: " ++ "[object Object]")%string])
         ++ (if Helpers.isValidUUID "[object Object]" then []
             else [("Invalid UUID format: " ++ "[object Object]")%string]))%list
     /\ (Helpers.isValidEmail "[object Object]" = false
         \/ Helpers.isValidUUID "[object Object]" = false))
  /\ (exists text,
        fst (Strategies.composite_validate
               (Strategies.createFullUserValidator plain_to_string)
               Json.JNull [])
        = Throw (TypeError text)).
Proof.
  split.
  - apply (proj1 (proj2 (full_user_validator_accepts_no_datum
                           plain_to_string ada))
             "[object Object]").
    + reflexivity.
    + vm_compute. reflexivity.
    + reflexivity.
  - apply (proj2 (proj2 (full_user_validator_accepts_no_datum
                           plain_to_string Json.JNull))).
    left. reflexivity.
Defined.

(** Asked for production in an empty process environment, the settings of
    production; asked for production during a test run, those with the
    concurrency limit of testing. *)
Lemma production_settings_in_two_environments :
  fst (Config.getConfigForEnvironment parse_int lower_ascii "production" ∅)
    = Ok (preset "production")
  /\ fst (Config.getConfigForEnvironment parse_int lower_ascii "production"
            test_run)
     = Ok (Config.set_testing_maxConcurrentRequests (Config.Int 5)
             (preset "production")).
Proof.
  split.
  - apply (proj1 (proj2 (environment_settings_are_layered_on_the_ambient_ones
                           parse_int lower_ascii ∅ "production"))).
    + repeat split.
    + split; discriminate.
  - apply (proj2 (proj2 (environment_settings_are_layered_on_the_ambient_ones
                           parse_int lower_ascii test_run "production"))).
    + repeat split.
    + reflexivity.
Defined.

